(** * Verification of the mesh-VPN client core: translator and orchestrator

    Two components are covered.

    - [nmcfg]: the network-map translator, embedded from the Go source
      ([cidrIsSubnet], [haSubnetRouterAllowedIPs], [WGCfg]).  [nmcfg]
      gives the result of a call that returns; [nmcfg_outcome] tells the
      calls that return from the calls that panic.
    - [ipnlocal]: the backend orchestrator.  Of this package the sources
      hold the state machine test only.  The test double [mockControl] is
      embedded from that test; the orchestrator itself is modelled from the
      specification and checked against the sequence of calls and
      notifications that the test asserts.

    Further parts follow the two: what the translator logs, the other
    helpers of the state machine test (the notification throttler, the
    mock engine, the builder of network maps), and, of the gateway
    operator, the proxy controller, the extension server's hooks and the
    routes and xDS resources of the Envoy proxy group, all embedded from
    the Go sources. *)

From stdpp Require Import gmap strings list pretty sorting.
From Stdlib Require Import ZArith Lia.

Local Open Scope Z_scope.

(** ** Go's [net/netip] *)

Module netip.

(** An address is the zero [Addr], an IPv4 address or an IPv6 address
    (zones are left out). *)
Inductive Addr : Type :=
| AddrZero
| Addr4 (a : Z)
| Addr6 (a : Z).

#[global] Instance Addr_eq_dec : EqDecision Addr.
Proof. solve_decision. Defined.

#[global] Instance Addr_countable : Countable Addr.
Proof.
  refine (inj_countable'
    (λ x, match x with
          | AddrZero => inl ()
          | Addr4 a => inr (inl a)
          | Addr6 a => inr (inr a)
          end)
    (λ s, match s with
          | inl _ => AddrZero
          | inr (inl a) => Addr4 a
          | inr (inr a) => Addr6 a
          end) _).
  by intros [].
Defined.

Definition BitLen (a : Addr) : Z :=
  match a with
  | AddrZero => 0
  | Addr4 _ => 32
  | Addr6 _ => 128
  end.

(** [Prefix] stores the prefix length plus one, so that the zero value is
    the invalid prefix. *)
Record Prefix : Type := MkPrefix { ip : Addr; bitsPlusOne : Z }.

#[global] Instance Prefix_eq_dec : EqDecision Prefix.
Proof. solve_decision. Defined.

#[global] Instance Prefix_countable : Countable Prefix.
Proof.
  refine (inj_countable'
    (λ p, (ip p, bitsPlusOne p))
    (λ t, MkPrefix t.1 t.2) _).
  by intros [].
Defined.

Definition Bits (p : Prefix) : Z := bitsPlusOne p - 1.

Definition IsValid (p : Prefix) : bool := 0 <? bitsPlusOne p.

Definition IsSingleIP (p : Prefix) : bool :=
  IsValid p && (Bits p =? BitLen (ip p)).

(** [PrefixFrom ip bits], for a length within the address' range. *)
Definition PrefixFrom (a : Addr) (bits : Z) : Prefix := MkPrefix a (bits + 1).

End netip.

(** ** The parts of [tailcfg.Node] that the translator reads

    Modelled from the spec: the declaration of [tailcfg.Node] is outside the
    sources; the record has the fields that the translator and the tests
    read through the node view.  Keys are integers, zero for the zero key. *)

Module tailcfg.

Record Node : Type := MkNode {
  ID : Z;
  StableID : string;
  Name : string;
  Key : Z;
  DiscoKey : Z;
  HomeDERP : Z;
  IsWireGuardOnly : bool;
  Expired : bool;
  IsJailed : bool;
  MachineAuthorized : bool;
  Addresses : list netip.Prefix;
  AllowedIPs : list netip.Prefix;
  PrimaryRoutes : list netip.Prefix;
  Tags : list string;
  CapMap : gset string;
  DataPlaneAuditLogID : string;
  SelfNodeV4MasqAddrForThisPeer : option netip.Addr;
  SelfNodeV6MasqAddrForThisPeer : option netip.Addr
}.

(** A [NodeView] is a read-only pointer to a node; [None] is the view that
    is not [Valid]. *)
Definition NodeView : Type := option Node.

Definition Valid (v : NodeView) : bool :=
  match v with Some _ => true | None => false end.

Definition HasCap (n : Node) (cap : string) : bool := bool_decide (cap ∈ CapMap n).

(** The names of the two capabilities; only their being distinct matters. *)
Definition CapabilityDataPlaneAuditLogs : string :=
  "https://tailscale.com/cap/data-plane-audit-logs".

Definition NodeAttrLogExitFlows : string := "log-exit-flows".

End tailcfg.

(** ** The WireGuard configuration produced by the translator

    Modelled from the spec: the declaration of [wgcfg.Config] is outside the
    sources; the records have the fields that [WGCfg] writes. *)

Module wgcfg.

Record NetworkLogging_t : Type := MkNetworkLogging {
  NodeID : Z;
  DomainID : Z;
  LogExitFlowEnabled : bool
}.

Definition zeroNetworkLogging : NetworkLogging_t := MkNetworkLogging 0 0 false.

Record Peer : Type := MkPeer {
  PublicKey : Z;
  DiscoKey : Z;
  AllowedIPs : list netip.Prefix;
  V4MasqAddr : option netip.Addr;
  V6MasqAddr : option netip.Addr;
  IsJailed : bool
}.

Record Config : Type := MkConfig {
  PrivateKey : Z;
  Addresses : list netip.Prefix;
  Peers : list Peer;
  NetworkLogging : NetworkLogging_t
}.

End wgcfg.

(** ** The network map *)

Module netmap.

(** Modelled from the spec: the declaration of [netmap.NetworkMap] is
    outside the sources; the record has the fields that the translator and
    the state machine test use.  [Expiry] is [None] for Go's zero time. *)
Record NetworkMap : Type := MkNetworkMap {
  SelfNode : tailcfg.NodeView;
  Peers : list tailcfg.Node;
  DomainAuditLogID : string;
  Expiry : option Z
}.

(** Modelled from the spec: the accessor [GetAddresses] is declared with the
    network map, outside the sources; the translator's output
    "addresses" are those of the self node, none when there is no self node. *)
Definition GetAddresses (nm : NetworkMap) : list netip.Prefix :=
  match SelfNode nm with
  | Some n => tailcfg.Addresses n
  | None => []
  end.

(** Modelled from the spec: the flag constant is declared with the network
    map, outside the sources; "subnet-route acceptance" is one bit of the
    policy flags. *)
Definition AllowSubnetRoutes : Z := 2.

(** Modelled from the spec: the machine status of a map is declared outside
    the sources; a map is authorized only with a valid self node that is
    marked authorized (the test's empty map needs machine authorization). *)
Definition machineAuthorized (nm : NetworkMap) : bool :=
  match SelfNode nm with
  | Some n => tailcfg.MachineAuthorized n
  | None => false
  end.

End netmap.

(** ** The translator, package [nmcfg] *)

Module nmcfg.
Import netip.

(** [cidrIsSubnet] reports whether [cidr] is a non-default-route subnet
    exported by [node] that is not one of its own self addresses. *)
Definition cidrIsSubnet (node : tailcfg.Node) (cidr : Prefix) : bool :=
  if Bits cidr =? 0 then false
  else if negb (IsSingleIP cidr) then true
  else if existsb (λ selfCIDR, bool_decide (cidr = selfCIDR)) (tailcfg.Addresses node)
       then false
       else true.

(** The inner pair of loops over the two tag lists, leaving at the first
    equal pair. *)
Definition hasSharedTag (peerTags otherTags : list string) : bool :=
  existsb (λ pt, existsb (λ ot, bool_decide (pt = ot)) otherTags) peerTags.

(** One iteration of the loop over an HA group member's primary routes: the
    state is the result slice and the [seen] map. *)
Definition addRoute (st : list Prefix * gset Prefix) (route : Prefix)
  : list Prefix * gset Prefix :=
  if bool_decide (route ∈ st.2) then st
  else (st.1 ++ [route], {[ route ]} ∪ st.2).

(** One iteration of the loop over all peers. *)
Definition haStep (peer : tailcfg.Node) (st : list Prefix * gset Prefix)
  (otherPeer : tailcfg.Node) : list Prefix * gset Prefix :=
  if tailcfg.ID otherPeer =? tailcfg.ID peer then st
  else if (Z.of_nat (length (tailcfg.PrimaryRoutes otherPeer)) =? 0) then st
  else if negb (hasSharedTag (tailcfg.Tags peer) (tailcfg.Tags otherPeer)) then st
  else fold_left addRoute (tailcfg.PrimaryRoutes otherPeer) st.

Definition haSubnetRouterAllowedIPs (selfNode : tailcfg.NodeView)
  (peer : tailcfg.Node) (allPeers : list tailcfg.Node) : list Prefix :=
  match selfNode with
  | None => []
  | Some self =>
      let selfIsSubnetRouter :=
        existsb (cidrIsSubnet self) (tailcfg.AllowedIPs self) in
      if negb selfIsSubnetRouter then []
      else if Z.of_nat (length (tailcfg.Tags peer)) =? 0 then []
      else
        let seen : gset Prefix := list_to_set (tailcfg.AllowedIPs peer) in
        (fold_left (haStep peer) allPeers ([], seen)).1
  end.

(** The state of the loop over one peer's allowed IPs: the configured
    peer's list, the [didExitNodeLog] flag and the two lists kept for the
    log. *)
Record aipState : Type := MkAipState {
  aipAllowed : list Prefix;
  didExitNodeLog : bool;
  aipSkippedExitNode : list tailcfg.Node;
  aipSkippedSubnetRouter : list tailcfg.Node
}.

Definition aipStep (peer : tailcfg.Node) (flags : Z) (exitNode : string)
  (st : aipState) (allowedIP : Prefix) : aipState :=
  if (Bits allowedIP =? 0) && negb (bool_decide (tailcfg.StableID peer = exitNode)) then
    if didExitNodeLog st then st
    else MkAipState (aipAllowed st) true
           (aipSkippedExitNode st ++ [peer]) (aipSkippedSubnetRouter st)
  else if cidrIsSubnet peer allowedIP && (Z.land flags netmap.AllowSubnetRoutes =? 0) then
    MkAipState (aipAllowed st) (didExitNodeLog st)
      (aipSkippedExitNode st) (aipSkippedSubnetRouter st ++ [peer])
  else
    MkAipState (aipAllowed st ++ [allowedIP]) (didExitNodeLog st)
      (aipSkippedExitNode st) (aipSkippedSubnetRouter st).

(** The state of the loop over the peers. *)
Record peersState : Type := MkPeersState {
  cfgPeers : list wgcfg.Peer;
  skippedExitNode : list tailcfg.Node;
  skippedSubnetRouter : list tailcfg.Node;
  skippedExpired : list tailcfg.Node
}.

Definition peerStep (nm : netmap.NetworkMap) (flags : Z) (exitNode : string)
  (st : peersState) (peer : tailcfg.Node) : peersState :=
  if (tailcfg.DiscoKey peer =? 0) && (tailcfg.HomeDERP peer =? 0)
     && negb (tailcfg.IsWireGuardOnly peer) then st
  else if tailcfg.Expired peer then
    MkPeersState (cfgPeers st) (skippedExitNode st) (skippedSubnetRouter st)
      (skippedExpired st ++ [peer])
  else
    let a := fold_left (aipStep peer flags exitNode) (tailcfg.AllowedIPs peer)
               (MkAipState [] false (skippedExitNode st) (skippedSubnetRouter st)) in
    let haIPs :=
      if negb (Z.land flags netmap.AllowSubnetRoutes =? 0)
      then haSubnetRouterAllowedIPs (netmap.SelfNode nm) peer (netmap.Peers nm)
      else [] in
    let cpeer := wgcfg.MkPeer (tailcfg.Key peer) (tailcfg.DiscoKey peer)
                   (aipAllowed a ++ haIPs)
                   (tailcfg.SelfNodeV4MasqAddrForThisPeer peer)
                   (tailcfg.SelfNodeV6MasqAddrForThisPeer peer)
                   (tailcfg.IsJailed peer) in
    MkPeersState (cfgPeers st ++ [cpeer]) (aipSkippedExitNode a)
      (aipSkippedSubnetRouter a) (skippedExpired st).

Section WithLogID.

(** [logid.ParsePrivateID] is declared outside the sources; it is taken as
    a parameter.  [None] stands for a parse error. *)
Variable ParsePrivateID : string → option Z.

(** The block that sets up the log IDs for data-plane audit logging. *)
Definition networkLogging (nm : netmap.NetworkMap) : wgcfg.NetworkLogging_t :=
  match netmap.SelfNode nm with
  | None => wgcfg.zeroNetworkLogging
  | Some self =>
      let canNetworkLog := tailcfg.HasCap self tailcfg.CapabilityDataPlaneAuditLogs in
      let logExitFlowEnabled := tailcfg.HasCap self tailcfg.NodeAttrLogExitFlows in
      if canNetworkLog
         && negb (bool_decide (tailcfg.DataPlaneAuditLogID self = ""))
         && negb (bool_decide (netmap.DomainAuditLogID nm = ""))
      then
        match ParsePrivateID (tailcfg.DataPlaneAuditLogID self),
              ParsePrivateID (netmap.DomainAuditLogID nm) with
        | Some nodeID, Some domainID =>
            wgcfg.MkNetworkLogging nodeID domainID logExitFlowEnabled
        | _, _ => wgcfg.zeroNetworkLogging
        end
      else wgcfg.zeroNetworkLogging
  end.

(** [WGCfg] returns the network map's WireGuard configuration and an error
    ([None] is Go's nil error).  What the function writes to its logger is
    not part of the result.  This is the result of a call that returns; the
    calls that end in a panic are told apart in [nmcfg_outcome] below. *)
Definition WGCfg (pk : Z) (nm : netmap.NetworkMap) (flags : Z) (exitNode : string)
  : wgcfg.Config * option string :=
  let st := fold_left (peerStep nm flags exitNode) (netmap.Peers nm)
              (MkPeersState [] [] [] []) in
  (wgcfg.MkConfig pk (netmap.GetAddresses nm) (cfgPeers st) (networkLogging nm), None).

End WithLogID.

End nmcfg.

(** ** Preferences, states and notifications, package [ipn] *)

Module persist.

(** Modelled from the spec: the declaration of [persist.Persist] is outside
    the sources; the record is the identity kept with the preferences, with
    the fields that the tests read and write.  A key is zero when it is 0. *)
Record Persist : Type := MkPersist {
  PrivateNodeKey : Z;
  OldPrivateNodeKey : Z;
  NetworkLockKey : Z;
  NodeID : string;
  LoginName : string
}.

#[global] Instance Persist_eq_dec : EqDecision Persist.
Proof. solve_decision. Defined.

Definition zero : Persist := MkPersist 0 0 0 "" "".

End persist.

Module ipn.

(** Modelled from the spec: the declarations of package [ipn] are outside the
    sources; the connection states, the preferences with their edit mask and
    the notification record follow the specification's data model and the
    fields that the tests use. *)
Inductive State : Type :=
| NoState
| NeedsLogin
| NeedsMachineAuth
| Stopped
| Starting
| Running.

#[global] Instance State_eq_dec : EqDecision State.
Proof. solve_decision. Defined.

Record Prefs : Type := MkPrefs {
  ControlURL : string;
  WantRunning : bool;
  LoggedOut : bool;
  Hostname : string;
  Persist : persist.Persist
}.

#[global] Instance Prefs_eq_dec : EqDecision Prefs.
Proof. solve_decision. Defined.

(** A preference edit: a preferences value and one "field-set" flag per
    editable field.  There is no flag for [Persist]. *)
Record MaskedPrefs : Type := MkMaskedPrefs {
  mpPrefs : Prefs;
  ControlURLSet : bool;
  WantRunningSet : bool;
  LoggedOutSet : bool;
  HostnameSet : bool
}.

(** Only flagged fields are applied. *)
Definition ApplyEdits (p : Prefs) (m : MaskedPrefs) : Prefs :=
  MkPrefs
    (if ControlURLSet m then ControlURL (mpPrefs m) else ControlURL p)
    (if WantRunningSet m then WantRunning (mpPrefs m) else WantRunning p)
    (if LoggedOutSet m then LoggedOut (mpPrefs m) else LoggedOut p)
    (if HostnameSet m then Hostname (mpPrefs m) else Hostname p)
    (Persist p).

(** The notification record, with the four optional fields that the state
    machine test lets through to its queue. *)
Record Notify : Type := MkNotify {
  nState : option State;
  nPrefs : option Prefs;
  nBrowseToURL : option string;
  nLoginFinished : bool
}.

Definition NotifyState (s : State) : Notify := MkNotify (Some s) None None false.
Definition NotifyPrefs (p : Prefs) : Notify := MkNotify None (Some p) None false.
Definition NotifyBrowseToURL (u : string) : Notify := MkNotify None None (Some u) false.
Definition NotifyLoginFinished : Notify := MkNotify None None None true.

End ipn.

(** ** The orchestrator, package [ipnlocal] *)

Module ipnlocal.
Import ipn.

(** *** The control session of the state machine test

    [mockControl] and its methods are embedded from the test file. *)

Module controlclient.

(** Modelled from the spec: the login flags and the status record of the
    control session are declared outside the sources.  The value of the
    interactive flag is immaterial, it only has to be one bit; the status is
    what a control session reports to its observer: status(error, url,
    login-finished, network-map), with the session's identity. *)
Definition LoginDefault : Z := 0.

Definition LoginInteractive : Z := 2.

Record Status : Type := MkStatus {
  Err : option string;
  URL : string;
  LoginFinished : bool;
  NetMap : option netmap.NetworkMap;
  Persist : persist.Persist
}.

End controlclient.

Record mockControl : Type := MkMockControl {
  paused : bool;
  persist_ : persist.Persist;
  calls : list string;
  authBlocked : bool;
  shutdown : bool
}.

Definition newClient (optsPersist : persist.Persist) : mockControl :=
  MkMockControl false optsPersist [] true false.

(** [called] records that a particular function name was called. *)
Definition called (s : string) (c : mockControl) : mockControl :=
  MkMockControl (paused c) (persist_ c) (calls c ++ [s]) (authBlocked c) (shutdown c).

(** [populateKeys]; [newNode] is the key that [key.NewNode] would draw. *)
Definition populateKeys (newNode : Z) (c : mockControl) : mockControl * bool :=
  if persist.PrivateNodeKey (persist_ c) =? 0 then
    let p := persist_ c in
    (MkMockControl (paused c)
       (persist.MkPersist newNode (persist.PrivateNodeKey p)
          (persist.NetworkLockKey p) (persist.NodeID p) (persist.LoginName p))
       (calls c) (authBlocked c) (shutdown c), true)
  else (c, false).

Definition mockShutdown (c : mockControl) : mockControl :=
  let c := called "Shutdown" c in
  MkMockControl (paused c) (persist_ c) (calls c) (authBlocked c) true.

Definition mockLogin (flags : Z) (newNode : Z) (c : mockControl) : mockControl :=
  let c := called "Login" c in
  let '(c, newKeys) := populateKeys newNode c in
  let interact := negb (Z.land flags controlclient.LoginInteractive =? 0) in
  MkMockControl (paused c) (persist_ c) (calls c) (interact || newKeys) (shutdown c).

Definition mockLogout (c : mockControl) : mockControl := called "Logout" c.

Definition SetPaused (p : bool) (c : mockControl) : mockControl :=
  if Bool.eqb (paused c) p then c
  else
    let c := MkMockControl p (persist_ c) (calls c) (authBlocked c) (shutdown c) in
    if p then called "pause" c else called "unpause" c.

Definition AuthCantContinue (c : mockControl) : bool := authBlocked c.

(** The test writes the login name and node ID of the session's identity
    before it reports a finished login. *)
Definition setIdentity (login node : string) (c : mockControl) : mockControl :=
  let p := persist_ c in
  MkMockControl (paused c)
    (persist.MkPersist (persist.PrivateNodeKey p) (persist.OldPrivateNodeKey p)
       (persist.NetworkLockKey p) node login)
    (calls c) (authBlocked c) (shutdown c).

(** [assertCalls] compares and then forgets the recorded calls. *)
Definition forgetCalls (c : mockControl) : mockControl :=
  MkMockControl (paused c) (persist_ c) [] (authBlocked c) (shutdown c).

(** *** The backend *)

(** Modelled from the spec: the orchestrator's implementation ([LocalBackend]
    with its operations start, edit-preferences, start-interactive-login,
    logout and the two asynchronous handlers) is outside the sources.  The
    record holds what the specification's data model lists:
    current preferences, the active control session handle, the last
    network map, the derived connection state, the key-expired and
    engine-blocked flags, the engine's last relay-link count, the last
    browse-to URL with its time, the as-of time of the last engine status
    taken in, a clock, and the two outputs: the ordered notification stream
    and the number of preference writes.  Discarded
    sessions are kept so that the commands they received stay observable,
    as the test does with its previous session.  [nkeys] counts the node
    keys drawn so far and stands for the random source of [key.NewNode]. *)
Record LocalBackend : Type := MkBackend {
  prefs : ipn.Prefs;
  cc : option mockControl;
  discarded : list mockControl;
  netMap : option netmap.NetworkMap;
  state : ipn.State;
  blocked : bool;
  keyExpired : bool;
  engineStatus : Z;
  authURL : string;
  authURLTime : Z;
  interact : bool;
  now : Z;
  notifies : list ipn.Notify;
  stateWrites : nat;
  nkeys : Z;
  lastStatusTime : Z
}.

Definition set_prefs (v : ipn.Prefs) (b : LocalBackend) : LocalBackend :=
  MkBackend v (cc b) (discarded b) (netMap b) (state b) (blocked b)
    (keyExpired b) (engineStatus b) (authURL b) (authURLTime b) (interact b)
    (now b) (notifies b) (stateWrites b) (nkeys b) (lastStatusTime b).

Definition set_cc (v : option mockControl) (b : LocalBackend) : LocalBackend :=
  MkBackend (prefs b) v (discarded b) (netMap b) (state b) (blocked b)
    (keyExpired b) (engineStatus b) (authURL b) (authURLTime b) (interact b)
    (now b) (notifies b) (stateWrites b) (nkeys b) (lastStatusTime b).

Definition set_discarded (v : list mockControl) (b : LocalBackend) : LocalBackend :=
  MkBackend (prefs b) (cc b) v (netMap b) (state b) (blocked b) (keyExpired b)
    (engineStatus b) (authURL b) (authURLTime b) (interact b) (now b)
    (notifies b) (stateWrites b) (nkeys b) (lastStatusTime b).

Definition set_netMap (v : option netmap.NetworkMap) (b : LocalBackend) : LocalBackend :=
  MkBackend (prefs b) (cc b) (discarded b) v (state b) (blocked b)
    (keyExpired b) (engineStatus b) (authURL b) (authURLTime b) (interact b)
    (now b) (notifies b) (stateWrites b) (nkeys b) (lastStatusTime b).

Definition set_state (v : ipn.State) (b : LocalBackend) : LocalBackend :=
  MkBackend (prefs b) (cc b) (discarded b) (netMap b) v (blocked b)
    (keyExpired b) (engineStatus b) (authURL b) (authURLTime b) (interact b)
    (now b) (notifies b) (stateWrites b) (nkeys b) (lastStatusTime b).

Definition set_blocked (v : bool) (b : LocalBackend) : LocalBackend :=
  MkBackend (prefs b) (cc b) (discarded b) (netMap b) (state b) v
    (keyExpired b) (engineStatus b) (authURL b) (authURLTime b) (interact b)
    (now b) (notifies b) (stateWrites b) (nkeys b) (lastStatusTime b).

Definition set_keyExpired (v : bool) (b : LocalBackend) : LocalBackend :=
  MkBackend (prefs b) (cc b) (discarded b) (netMap b) (state b) (blocked b) v
    (engineStatus b) (authURL b) (authURLTime b) (interact b) (now b)
    (notifies b) (stateWrites b) (nkeys b) (lastStatusTime b).

Definition set_engineStatus (v : Z) (b : LocalBackend) : LocalBackend :=
  MkBackend (prefs b) (cc b) (discarded b) (netMap b) (state b) (blocked b)
    (keyExpired b) v (authURL b) (authURLTime b) (interact b) (now b)
    (notifies b) (stateWrites b) (nkeys b) (lastStatusTime b).

Definition set_authURL (v : string) (b : LocalBackend) : LocalBackend :=
  MkBackend (prefs b) (cc b) (discarded b) (netMap b) (state b) (blocked b)
    (keyExpired b) (engineStatus b) v (authURLTime b) (interact b) (now b)
    (notifies b) (stateWrites b) (nkeys b) (lastStatusTime b).

Definition set_authURLTime (v : Z) (b : LocalBackend) : LocalBackend :=
  MkBackend (prefs b) (cc b) (discarded b) (netMap b) (state b) (blocked b)
    (keyExpired b) (engineStatus b) (authURL b) v (interact b) (now b)
    (notifies b) (stateWrites b) (nkeys b) (lastStatusTime b).

Definition set_interact (v : bool) (b : LocalBackend) : LocalBackend :=
  MkBackend (prefs b) (cc b) (discarded b) (netMap b) (state b) (blocked b)
    (keyExpired b) (engineStatus b) (authURL b) (authURLTime b) v (now b)
    (notifies b) (stateWrites b) (nkeys b) (lastStatusTime b).

Definition set_now (v : Z) (b : LocalBackend) : LocalBackend :=
  MkBackend (prefs b) (cc b) (discarded b) (netMap b) (state b) (blocked b)
    (keyExpired b) (engineStatus b) (authURL b) (authURLTime b) (interact b) v
    (notifies b) (stateWrites b) (nkeys b) (lastStatusTime b).

Definition set_notifies (v : list ipn.Notify) (b : LocalBackend) : LocalBackend :=
  MkBackend (prefs b) (cc b) (discarded b) (netMap b) (state b) (blocked b)
    (keyExpired b) (engineStatus b) (authURL b) (authURLTime b) (interact b)
    (now b) v (stateWrites b) (nkeys b) (lastStatusTime b).

Definition set_stateWrites (v : nat) (b : LocalBackend) : LocalBackend :=
  MkBackend (prefs b) (cc b) (discarded b) (netMap b) (state b) (blocked b)
    (keyExpired b) (engineStatus b) (authURL b) (authURLTime b) (interact b)
    (now b) (notifies b) v (nkeys b) (lastStatusTime b).

Definition set_nkeys (v : Z) (b : LocalBackend) : LocalBackend :=
  MkBackend (prefs b) (cc b) (discarded b) (netMap b) (state b) (blocked b)
    (keyExpired b) (engineStatus b) (authURL b) (authURLTime b) (interact b)
    (now b) (notifies b) (stateWrites b) v (lastStatusTime b).

Definition set_lastStatusTime (v : Z) (b : LocalBackend) : LocalBackend :=
  MkBackend (prefs b) (cc b) (discarded b) (netMap b) (state b) (blocked b)
    (keyExpired b) (engineStatus b) (authURL b) (authURLTime b) (interact b)
    (now b) (notifies b) (stateWrites b) (nkeys b) v.

(** Modelled from the spec: a fresh backend.  The default preferences of a
    new profile are logged out and not running, there is no control session
    and no network map. *)
Definition emptyPrefs : ipn.Prefs := MkPrefs "" false true "" persist.zero.

Definition NewLocalBackend : LocalBackend :=
  MkBackend emptyPrefs None [] None NoState false false 0 "" 0 false 0 [] 0 0 0.

(** The operations are written as pipelines of steps on the backend:
    [b ▷ f ▷ g] is [g (f b)], and [when c f] is the step [f] taken under the
    condition [c] only. *)
Notation "b ▷ f" := (f b) (at level 45, left associativity, only parsing).

Definition when (c : bool) (f : LocalBackend → LocalBackend) (b : LocalBackend)
  : LocalBackend :=
  if c then f b else b.

(** Modelled from the spec: what leaves the backend, in a notification or
    as the result of an edit, carries no key material (the key-material test
    finds zero keys in the preferences that an edit hands back). *)
Definition stripKeysFromPrefs (p : ipn.Prefs) : ipn.Prefs :=
  let k := Persist p in
  MkPrefs (ControlURL p) (WantRunning p) (LoggedOut p) (Hostname p)
    (persist.MkPersist 0 0 0 (persist.NodeID k) (persist.LoginName k)).

Definition send (n : ipn.Notify) (b : LocalBackend) : LocalBackend :=
  set_notifies (notifies b ++ [n]) b.

Definition sendPrefs (b : LocalBackend) : LocalBackend :=
  send (NotifyPrefs (stripKeysFromPrefs (prefs b))) b.

(** Storing preferences writes them to the profile store. *)
Definition writePrefs (p : ipn.Prefs) (b : LocalBackend) : LocalBackend :=
  b ▷ set_prefs p ▷ set_stateWrites (S (stateWrites b)).

(** Apply a command to the current control session, if there is one. *)
Definition withCC (f : mockControl → mockControl) (b : LocalBackend) : LocalBackend :=
  match cc b with
  | Some c => set_cc (Some (f c)) b
  | None => b
  end.

Definition ccLogin (flags : Z) (b : LocalBackend) : LocalBackend :=
  match cc b with
  | Some c =>
      b ▷ set_cc (Some (mockLogin flags (nkeys b + 1) c)) ▷ set_nkeys (nkeys b + 1)
  | None => b
  end.

Definition hasCC (b : LocalBackend) : bool :=
  match cc b with Some _ => true | None => false end.

Definition hasNodeKey (b : LocalBackend) : bool :=
  negb (persist.PrivateNodeKey (Persist (prefs b)) =? 0).

Definition haveNetMap (b : LocalBackend) : bool :=
  match netMap b with Some _ => true | None => false end.

Definition selfAuthorized (b : LocalBackend) : bool :=
  match netMap b with Some nm => netmap.machineAuthorized nm | None => false end.

(** Modelled from the spec: the pause policy.  The session is paused when
    WantRunning is false and unpaused when WantRunning is true or while the
    first network map is still awaited. *)
Definition pauseOrResumeControlClient (b : LocalBackend) : LocalBackend :=
  withCC (SetPaused (negb (WantRunning (prefs b)) && haveNetMap b)) b.

Definition setNetMapLocked (nm : option netmap.NetworkMap) (b : LocalBackend)
  : LocalBackend :=
  b ▷ set_netMap nm ▷ pauseOrResumeControlClient.

Definition resetAuthURL (b : LocalBackend) : LocalBackend :=
  b ▷ set_authURL "" ▷ set_authURLTime 0 ▷ set_interact false.

Definition blockEngineUpdates (block : bool) (b : LocalBackend) : LocalBackend :=
  set_blocked block b.

(** Modelled from the spec: the state transition table, computed from the
    inputs sampled at recomputation time and from the state that the
    backend is in.  Before the first start there is no control session and
    the state is NoState.  Without a map, or when logged out, the state is
    NeedsLogin.  The other rows are tried in this order: a backend that does
    not want to run is Stopped, whether its key has expired or not; an
    expired key then yields NeedsLogin, and a machine that is not authorized
    NeedsMachineAuth; what is left is Starting or Running.  The relay link
    turns Starting into Running, "at which point we stay there" in the words
    of the test; a backend that comes from any other state passes through
    Starting first, also when the engine has counted a relay link before.
    The table of the specification reads "any" for the WantRunning of its
    expired-key row and lets the relay link decide alone; the order of the
    rows and the passage through Starting are the orchestrator's. *)
Definition transition
  (started haveMap authorized wantRunning loggedOut expired relayLink : bool)
  (current : ipn.State) : ipn.State :=
  if negb started then NoState
  else if negb haveMap || loggedOut then NeedsLogin
  else if negb wantRunning then Stopped
  else if expired then NeedsLogin
  else if negb authorized then NeedsMachineAuth
  else match current with
       | Running => Running
       | Starting => if relayLink then Running else Starting
       | _ => Starting
       end.

(** Modelled from the spec: the engine has a relay link when its last
    status counts one. *)
Definition hasRelayLink (b : LocalBackend) : bool := 0 <? engineStatus b.

Definition nextState (b : LocalBackend) : ipn.State :=
  transition (hasCC b) (haveNetMap b) (selfAuthorized b)
    (WantRunning (prefs b)) (LoggedOut (prefs b)) (keyExpired b) (hasRelayLink b)
    (state b).

(** Modelled from the spec: entering a state.  The pause policy is applied;
    when the state changed it is notified, and a change to NeedsLogin
    blocks the engine.  Entering the state that the backend is in already
    does neither. *)
Definition enterState (newState : ipn.State) (b : LocalBackend) : LocalBackend :=
  let changed := negb (bool_decide (state b = newState)) in
  b ▷ set_state newState
    ▷ when (bool_decide (newState = Running)) resetAuthURL
    ▷ pauseOrResumeControlClient
    ▷ when (changed && bool_decide (newState = NeedsLogin)) (blockEngineUpdates true)
    ▷ when changed (send (NotifyState newState)).

Definition stateMachine (b : LocalBackend) : LocalBackend :=
  enterState (nextState b) b.

(** Modelled from the spec: discarding the session.  It is shut down and
    never reused (shutdown is the only command that the test finds on a
    discarded session); a URL that it handed out goes with it. *)
Definition resetControlClient (b : LocalBackend) : LocalBackend :=
  match cc b with
  | None => b
  | Some c =>
      b ▷ set_discarded (mockShutdown c :: discarded b) ▷ set_cc None ▷ resetAuthURL
  end.

Definition newControlClient (b : LocalBackend) : LocalBackend :=
  set_cc (Some (called "New" (newClient (Persist (prefs b))))) b.

(** Modelled from the spec: start().  Discard any previous session, create
    one, emit the current preferences and the computed state.  A profile
    that is logged in and has a node key makes the new session log in, as
    the test finds after its fourth and fifth start. *)
Definition Start (b : LocalBackend) : LocalBackend :=
  b ▷ resetControlClient
    ▷ set_state NoState
    ▷ newControlClient
    ▷ sendPrefs
    ▷ when (negb (LoggedOut (prefs b)) && hasNodeKey b)
        (ccLogin controlclient.LoginDefault)
    ▷ stateMachine.

(** Modelled from the spec: edit-preferences(edit).  Merge the flagged
    fields, keep the identity, persist, log in when WantRunning turns true,
    recompute the state (with its pause or unpause), and notify.  The state
    is notified before the preferences, as the test asserts at every
    WantRunning flip.  The call returns the new preferences without key
    material. *)
Definition EditPrefs (mp : ipn.MaskedPrefs) (b : LocalBackend)
  : LocalBackend * ipn.Prefs :=
  let oldp := prefs b in
  let newp := ApplyEdits oldp mp in
  (b ▷ writePrefs newp
     ▷ when (negb (WantRunning oldp) && WantRunning newp)
         (ccLogin controlclient.LoginDefault)
     ▷ stateMachine
     ▷ sendPrefs,
   stripKeysFromPrefs newp).

(** Modelled from the spec: the validity window of a browse-to URL, in
    seconds; seven days less one hour. *)
Definition authURLValidity : Z := 7 * 24 * 3600 - 3600.

(** Modelled from the spec: start-interactive-login.  A URL still within
    its validity window is emitted again without contacting the session;
    otherwise a fresh login command is issued. *)
Definition StartLoginInteractive (b : LocalBackend) : LocalBackend :=
  let hasValidURL :=
    negb (bool_decide (authURL b = ""))
    && (now b - authURLTime b <? authURLValidity) in
  if negb (hasCC b) then b
  else if hasValidURL then send (NotifyBrowseToURL (authURL b)) b
  else b ▷ set_interact true ▷ ccLogin controlclient.LoginInteractive.

(** Modelled from the spec: a URL delivered by the session.  A new URL is
    always shown, the same URL only when an interactive login asked for it.
    Showing a URL blocks the engine, and takes a backend that is Running
    back to Starting. *)
Definition setAuthURL (url : string) (b : LocalBackend) : LocalBackend :=
  let changed := negb (bool_decide (authURL b = url)) in
  let popBrowser := changed || interact b in
  b ▷ when changed (set_authURL url)
    ▷ when changed (set_authURLTime (now b))
    ▷ set_interact false
    ▷ when popBrowser (blockEngineUpdates true)
    ▷ when popBrowser (send (NotifyBrowseToURL url))
    ▷ when (popBrowser && bool_decide (state b = Running)) (enterState Starting).

Definition isExpired (nm : netmap.NetworkMap) (t : Z) : bool :=
  match netmap.Expiry nm with
  | None => false
  | Some e => e <? t
  end.

(** Modelled from the spec: the preferences after a status event.  The
    session's identity is taken over; a finished login clears LoggedOut, and
    sets WantRunning when it followed a URL visit. *)
Definition prefsAfterStatus (st : controlclient.Status) (authWasInProgress : bool)
  (p : ipn.Prefs) : ipn.Prefs :=
  if controlclient.LoginFinished st then
    MkPrefs (ControlURL p) (WantRunning p || authWasInProgress) false
      (Hostname p) (controlclient.Persist st)
  else
    MkPrefs (ControlURL p) (WantRunning p) (LoggedOut p) (Hostname p)
      (controlclient.Persist st).

(** Modelled from the spec: the steps that a status event takes when it
    carries a map.  The key-expired flag follows the map's expiry, and the
    map is stored. *)
Definition noteKeyExpiry (nm : option netmap.NetworkMap) (b : LocalBackend)
  : LocalBackend :=
  match nm with
  | Some nm => set_keyExpired (isExpired nm (now b)) b
  | None => b
  end.

Definition storeNetMap (nm : option netmap.NetworkMap) (b : LocalBackend)
  : LocalBackend :=
  match nm with
  | Some nm => setNetMapLocked (Some nm) b
  | None => b
  end.

(** Modelled from the spec: the asynchronous status handler, fed by the
    control session.  An error leaves the state alone (the error message
    that goes to the subscribers is not one of the notifications kept here);
    otherwise the key-expired flag follows the new map (a key that is no
    longer expired unblocks the engine), a login that just completed is
    notified, the preferences and the stored map are updated, a URL is
    handed on, and the state is recomputed.  The translation of the map and
    the reconfiguration of the engine leave no trace in the state kept
    here. *)
Definition SetControlClientStatus (st : controlclient.Status) (b : LocalBackend)
  : LocalBackend :=
  let wasBlocked := blocked b in
  let authWasInProgress := negb (bool_decide (authURL b = "")) in
  let keyExpiryExtended :=
    match controlclient.NetMap st with
    | Some nm => keyExpired b && negb (isExpired nm (now b))
    | None => false
    end in
  let loginJustFinished :=
    controlclient.LoginFinished st && (wasBlocked || authWasInProgress) in
  let newp := prefsAfterStatus st authWasInProgress (prefs b) in
  let prefsChanged := negb (bool_decide (newp = prefs b)) in
  match controlclient.Err st with
  | Some _ => b
  | None =>
      b ▷ noteKeyExpiry (controlclient.NetMap st)
        ▷ when (keyExpiryExtended && wasBlocked) (blockEngineUpdates false)
        ▷ when (loginJustFinished && wasBlocked) (blockEngineUpdates false)
        ▷ when loginJustFinished (send NotifyLoginFinished)
        ▷ when (controlclient.LoginFinished st && authWasInProgress) resetAuthURL
        ▷ when prefsChanged (writePrefs newp)
        ▷ storeNetMap (controlclient.NetMap st)
        ▷ when prefsChanged sendPrefs
        ▷ when (negb (bool_decide (controlclient.URL st = "")))
            (setAuthURL (controlclient.URL st))
        ▷ stateMachine
  end.

(** [mockControl.send]: the session publishes a status to the backend. *)
Definition mockSend (err : option string) (url : string) (loginFinished : bool)
  (nm : option netmap.NetworkMap) (b : LocalBackend) : LocalBackend :=
  match cc b with
  | None => b
  | Some c =>
      let c := if loginFinished
               then MkMockControl (paused c) (persist_ c) (calls c) false (shutdown c)
               else c in
      SetControlClientStatus
        (controlclient.MkStatus err url loginFinished nm (persist_ c))
        (set_cc (Some c) b)
  end.

(** Modelled from the spec: the asynchronous engine-status handler,
    status(relay-link count, as-of time, error).  An error leaves the state
    alone, and so does a status that is older than the last one taken in;
    otherwise the as-of time and the count are stored and, with a control
    session, the state is recomputed. *)
Record EngineStatus : Type := MkEngineStatus { DERPs : Z; AsOf : Z }.

Definition setWgengineStatus (s : EngineStatus) (err : option string)
  (b : LocalBackend) : LocalBackend :=
  match err with
  | Some _ => b
  | None =>
      if AsOf s <? lastStatusTime b then b
      else b ▷ set_lastStatusTime (AsOf s)
             ▷ set_engineStatus (DERPs s)
             ▷ when (hasCC b) stateMachine
  end.

Definition setWantRunning (v : bool) (p : ipn.Prefs) : ipn.Prefs :=
  MkPrefs (ControlURL p) v (LoggedOut p) (Hostname p) (Persist p).

Definition setLoggedOut (v : bool) (p : ipn.Prefs) : ipn.Prefs :=
  MkPrefs (ControlURL p) (WantRunning p) v (Hostname p) (Persist p).

(** Modelled from the spec: logout.  A no-op for a backend that is logged
    out already, which is one that holds no node key: that is the backend
    in NeedsLogin of the test's second and third logout.  Otherwise the
    phases: stopped, preferences cleared, and then, unless there is no
    session, which is an error: logout issued, map cleared, session
    discarded, new-session state, and a start on the fresh logged-out
    profile.  The specification words the guard as "no-op if already in
    NeedsLogin"; a backend that is in NeedsLogin with its node key, as after
    the expiry of the key, is logged out in full. *)
Definition Logout (b : LocalBackend) : LocalBackend * option string :=
  if negb (hasNodeKey b) then (b, None)
  else
    let stopped :=
      b ▷ writePrefs (setWantRunning false (prefs b))
        ▷ stateMachine
        ▷ set_prefs (setLoggedOut true (setWantRunning false (prefs b)))
        ▷ sendPrefs in
    if negb (hasCC b) then (stopped, Some "no controlclient")
    else
      (stopped ▷ withCC mockLogout
               ▷ setNetMapLocked None
               ▷ resetControlClient
               ▷ enterState NoState
               ▷ set_prefs emptyPrefs
               ▷ Start,
       None).

(** The passing of time. *)
Definition tick (d : Z) (b : LocalBackend) : LocalBackend :=
  set_now (now b + d) b.

End ipnlocal.

(** ** Vocabulary of the translator's properties *)

Module nmcfg_props.
Import netip nmcfg.

(** A peer is included unless it is unreachable (no discovery key, no relay
    home, not WireGuard-only) or expired. *)
Definition included (peer : tailcfg.Node) : bool :=
  negb ((tailcfg.DiscoKey peer =? 0) && (tailcfg.HomeDERP peer =? 0)
        && negb (tailcfg.IsWireGuardOnly peer))
  && negb (tailcfg.Expired peer).

Definition subnetRoutesAccepted (flags : Z) : bool :=
  negb (Z.land flags netmap.AllowSubnetRoutes =? 0).

(** The test that the loop over a peer's allowed IPs applies to one entry. *)
Definition keepAllowedIP (peer : tailcfg.Node) (flags : Z) (exitNode : string)
  (a : Prefix) : bool :=
  negb ((Bits a =? 0) && negb (bool_decide (tailcfg.StableID peer = exitNode)))
  && negb (cidrIsSubnet peer a && negb (subnetRoutesAccepted flags)).

(** The configured peer that the loop body builds for an included peer. *)
Definition cpeerOf (nm : netmap.NetworkMap) (flags : Z) (exitNode : string)
  (peer : tailcfg.Node) : wgcfg.Peer :=
  wgcfg.MkPeer (tailcfg.Key peer) (tailcfg.DiscoKey peer)
    (List.filter (keepAllowedIP peer flags exitNode) (tailcfg.AllowedIPs peer)
     ++ (if subnetRoutesAccepted flags
         then haSubnetRouterAllowedIPs (netmap.SelfNode nm) peer (netmap.Peers nm)
         else []))
    (tailcfg.SelfNodeV4MasqAddrForThisPeer peer)
    (tailcfg.SelfNodeV6MasqAddrForThisPeer peer)
    (tailcfg.IsJailed peer).

(** The filtering rule as the specification words it: a default route needs
    the exit node, an entry that is neither a default route nor a single
    address needs the flag, every other entry is kept. *)
Definition keptAsWritten (peer : tailcfg.Node) (flags : Z) (exitNode : string)
  (a : Prefix) : Prop :=
  if Bits a =? 0 then tailcfg.StableID peer = exitNode
  else if negb (IsSingleIP a) then subnetRoutesAccepted flags = true
  else True.

(** The filtering rule of the code: a single address is kept without the
    flag only when it is one of the peer's own addresses. *)
Definition kept (peer : tailcfg.Node) (flags : Z) (exitNode : string)
  (a : Prefix) : Prop :=
  if Bits a =? 0 then tailcfg.StableID peer = exitNode
  else (IsSingleIP a = true ∧ a ∈ tailcfg.Addresses peer)
       ∨ subnetRoutesAccepted flags = true.

(** The per-peer filtering follows [rule]: for every included peer and every
    entry of its allowed-IP list, the entry is in the configured peer's
    allowed IPs exactly when the rule keeps it. *)
Definition allowedIPsFiltered
  (rule : tailcfg.Node → Z → string → Prefix → Prop)
  (cfg : wgcfg.Config) (nm : netmap.NetworkMap) (flags : Z) (exitNode : string)
  : Prop :=
  Forall2
    (λ peer cpeer, ∀ a, a ∈ tailcfg.AllowedIPs peer →
       (a ∈ wgcfg.AllowedIPs cpeer ↔ rule peer flags exitNode a))
    (List.filter included (netmap.Peers nm)) (wgcfg.Peers cfg).

(** [other] is a member of [peer]'s HA group that contributes routes: another
    peer, with a non-empty primary-routes set, sharing a tag with [peer]. *)
Definition contributes (peer other : tailcfg.Node) : Prop :=
  tailcfg.ID other ≠ tailcfg.ID peer
  ∧ tailcfg.PrimaryRoutes other ≠ []
  ∧ ∃ t, t ∈ tailcfg.Tags peer ∧ t ∈ tailcfg.Tags other.

(** The self node advertises a subnet route, in the sense of [cidrIsSubnet]. *)
Definition selfIsSubnetRouter (selfNode : tailcfg.NodeView) : Prop :=
  ∃ self a, selfNode = Some self ∧ a ∈ tailcfg.AllowedIPs self
            ∧ cidrIsSubnet self a = true.

(** The preconditions of the HA expansion for one peer. *)
Definition haEnabled (nm : netmap.NetworkMap) (flags : Z) (peer : tailcfg.Node)
  : Prop :=
  subnetRoutesAccepted flags = true
  ∧ selfIsSubnetRouter (netmap.SelfNode nm)
  ∧ tailcfg.Tags peer ≠ [].

(** The conditions under which the network-logging parameters are set. *)
Definition loggingEnabled (parse : string → option Z) (nm : netmap.NetworkMap)
  (self : tailcfg.Node) (nodeID domainID : Z) : Prop :=
  netmap.SelfNode nm = Some self
  ∧ tailcfg.HasCap self tailcfg.CapabilityDataPlaneAuditLogs = true
  ∧ tailcfg.DataPlaneAuditLogID self ≠ ""
  ∧ netmap.DomainAuditLogID nm ≠ ""
  ∧ parse (tailcfg.DataPlaneAuditLogID self) = Some nodeID
  ∧ parse (netmap.DomainAuditLogID nm) = Some domainID.

(** *** Test data, after the translator's tests *)

Definition ipv4 (a b c d : Z) : Addr := Addr4 (((a * 256 + b) * 256 + c) * 256 + d).

Definition node (id : Z) (name : string) (tags : list string)
  (addrs allowed primary : list Prefix) : tailcfg.Node :=
  tailcfg.MkNode id name name id 0 0 false false false true
    addrs allowed primary tags ∅ "" None None.

(** The same node, reachable: it offers a discovery key. *)
Definition reachable (n : tailcfg.Node) : tailcfg.Node :=
  tailcfg.MkNode (tailcfg.ID n) (tailcfg.StableID n) (tailcfg.Name n)
    (tailcfg.Key n) 7 (tailcfg.HomeDERP n) (tailcfg.IsWireGuardOnly n)
    (tailcfg.Expired n) (tailcfg.IsJailed n) (tailcfg.MachineAuthorized n)
    (tailcfg.Addresses n) (tailcfg.AllowedIPs n) (tailcfg.PrimaryRoutes n)
    (tailcfg.Tags n) (tailcfg.CapMap n) (tailcfg.DataPlaneAuditLogID n)
    (tailcfg.SelfNodeV4MasqAddrForThisPeer n)
    (tailcfg.SelfNodeV6MasqAddrForThisPeer n).

Definition siteASubnet : Prefix := PrefixFrom (ipv4 10 100 0 0) 16.
Definition siteBSubnet : Prefix := PrefixFrom (ipv4 10 200 0 0) 16.
Definition siteASubnetV6 : Prefix := PrefixFrom (Addr6 (0xfd00000a * 2 ^ 96)) 64.
Definition siteBSubnetV6 : Prefix := PrefixFrom (Addr6 (0xfd00000b * 2 ^ 96)) 64.
Definition siteASR1Addr : Prefix := PrefixFrom (ipv4 100 64 0 1) 32.
Definition siteASR2Addr : Prefix := PrefixFrom (ipv4 100 64 0 2) 32.
Definition siteBSR1Addr : Prefix := PrefixFrom (ipv4 100 64 0 3) 32.
Definition siteBSR2Addr : Prefix := PrefixFrom (ipv4 100 64 0 4) 32.
Definition addr99 : Prefix := PrefixFrom (ipv4 100 64 0 99) 32.

Definition siteASR1 : tailcfg.Node :=
  node 1 "site-a-sr1" ["tag:site-a-sr"] [siteASR1Addr]
    [siteASR1Addr; siteASubnet] [siteASubnet].
Definition siteASR2 : tailcfg.Node :=
  node 2 "site-a-sr2" ["tag:site-a-sr"] [siteASR2Addr]
    [siteASR2Addr; siteASubnet] [siteASubnet].
Definition siteBSR1 : tailcfg.Node :=
  node 3 "site-b-sr1" ["tag:site-b-sr"] [siteBSR1Addr]
    [siteBSR1Addr; siteBSubnet] [siteBSubnet].
Definition siteBSR2 : tailcfg.Node :=
  node 4 "site-b-sr2" ["tag:site-b-sr"] [siteBSR2Addr]
    [siteBSR2Addr; siteBSubnet] [siteBSubnet].
Definition siteASR1AsSeenBySiteBSR2 : tailcfg.Node :=
  node 1 "site-a-sr1" ["tag:site-a-sr"] [siteASR1Addr]
    [siteASR1Addr] [siteASubnet].
Definition siteASR2AsSeenBySiteBSR2 : tailcfg.Node := siteASR2.
Definition siteASR1V6 : tailcfg.Node :=
  node 11 "site-a-sr1-v6" ["tag:site-a-sr-v6"] [siteASR1Addr]
    [siteASR1Addr] [siteASubnetV6].
Definition siteASR2V6 : tailcfg.Node :=
  node 12 "site-a-sr2-v6" ["tag:site-a-sr-v6"] [siteASR2Addr]
    [siteASR2Addr; siteASubnetV6] [siteASubnetV6].
Definition siteBSR2V6 : tailcfg.Node :=
  node 14 "site-b-sr2-v6" ["tag:site-b-sr-v6"] [siteBSR2Addr]
    [siteBSR2Addr; siteBSubnetV6] [siteBSubnetV6].
Definition allPeers : list tailcfg.Node :=
  [siteASR1AsSeenBySiteBSR2; siteASR2AsSeenBySiteBSR2; siteBSR1].
Definition allPeersV6 : list tailcfg.Node := [siteASR1V6; siteASR2V6].
Definition nonSubnetRouterSelf : tailcfg.Node := node 99 "" [] [addr99] [addr99] [].
Definition noTagsPeer : tailcfg.Node :=
  node 99 "no-tags-peer" [] [addr99] [addr99] [PrefixFrom (ipv4 10 99 0 0) 16].
Definition otherSR : tailcfg.Node :=
  node 99 "other-sr" ["tag:other"] [addr99] [addr99] [PrefixFrom (ipv4 10 99 0 0) 16].

(** The node of the [cidrIsSubnet] test, with its two addresses. *)
Definition cidrNode : tailcfg.Node :=
  node 0 "" []
    [siteASR1Addr; PrefixFrom (Addr6 (0xfd7a115ca1e0 * 2 ^ 80 + 1)) 128] [] [].

(** A map as site B's second router sees it, with reachable peers. *)
Definition siteBSR2Map : netmap.NetworkMap :=
  netmap.MkNetworkMap (Some siteBSR2) (List.map reachable allPeers) "" None.

(** A peer that lists, besides its own address, the address of another
    node; and a map with this peer alone. *)
Definition hostRoutePeer : tailcfg.Node :=
  reachable (node 1 "site-a-sr1" [] [siteASR1Addr] [siteASR1Addr; siteASR2Addr] []).
Definition hostRouteMap : netmap.NetworkMap :=
  netmap.MkNetworkMap None [hostRoutePeer] "" None.

(** A self node entitled to audit logging, and two parsers for the log
    identifiers: one that accepts the identifier "ok" only, one that accepts
    every identifier. *)
Definition auditSelf (nodeLogID : string) : tailcfg.Node :=
  tailcfg.MkNode 4 "site-b-sr2" "site-b-sr2" 4 0 0 false false false true
    [siteBSR2Addr] [siteBSR2Addr] [] []
    {[ tailcfg.CapabilityDataPlaneAuditLogs ]} nodeLogID None None.
Definition auditMap (nodeLogID domainLogID : string) : netmap.NetworkMap :=
  netmap.MkNetworkMap (Some (auditSelf nodeLogID)) [] domainLogID None.
Definition parseOk (s : string) : option Z :=
  if bool_decide (s = "ok") then Some 42 else None.
Definition parseAny (s : string) : option Z := Some (Z.of_nat (String.length s)).

End nmcfg_props.

(** ** Vocabulary of the orchestrator's properties *)

Module ipnlocal_props.
Import ipn ipnlocal.

(** The calls that reach the backend: the operations of the user interface,
    the two asynchronous handlers, and the passing of time. *)
Inductive Op : Type :=
| OpStart
| OpEditPrefs (mp : ipn.MaskedPrefs)
| OpStartLoginInteractive
| OpLogout
| OpStatus (st : controlclient.Status)
| OpSend (err : option string) (url : string) (loginFinished : bool)
    (nm : option netmap.NetworkMap)
| OpEngineStatus (s : EngineStatus) (err : option string)
| OpTick (d : N).

Definition apply (o : Op) (b : LocalBackend) : LocalBackend :=
  match o with
  | OpStart => Start b
  | OpEditPrefs mp => (EditPrefs mp b).1
  | OpStartLoginInteractive => StartLoginInteractive b
  | OpLogout => (Logout b).1
  | OpStatus st => SetControlClientStatus st b
  | OpSend err url loginFinished nm => mockSend err url loginFinished nm b
  | OpEngineStatus s err => setWgengineStatus s err b
  | OpTick d => tick (Z.of_N d) b
  end.

Definition run (ops : list Op) (b : LocalBackend) : LocalBackend :=
  fold_left (λ b o, apply o b) ops b.

(** What Starting and Running rest on, by the transition table: a session,
    an authorized map, a key that has not expired, and preferences that are
    logged in and want to run. *)
Definition runnable (b : LocalBackend) : Prop :=
  hasCC b = true
  ∧ (∃ nm, netMap b = Some nm ∧ netmap.machineAuthorized nm = true)
  ∧ keyExpired b = false
  ∧ LoggedOut (prefs b) = false
  ∧ WantRunning (prefs b) = true.

(** A step [f] preserves an observation [π] of the backend when it leaves
    it as it was. *)
Class Preserves {A : Type} (π : LocalBackend → A) (f : LocalBackend → LocalBackend)
  : Prop :=
  preserved : ∀ b, π (f b) = π b.

(** Engine status reports delivered one after the other, none in error. *)
Definition deliver (ss : list EngineStatus) (b : LocalBackend) : LocalBackend :=
  fold_left (λ b s, setWgengineStatus s None b) ss b.

(** Reports that arrive in the order of their as-of times, none older than
    the time [t]. *)
Fixpoint inOrder (t : Z) (ss : list EngineStatus) : Prop :=
  match ss with
  | [] => True
  | s :: ss => t ≤ AsOf s ∧ inOrder (AsOf s) ss
  end.

(** A logout that is a no-op: the current session and the discarded ones,
    with the commands that they received, the notifications, the preferences
    and the state are as they were. *)
Definition logoutIsNoop (b : LocalBackend) : Prop :=
  let b' := (Logout b).1 in
  cc b' = cc b ∧ discarded b' = discarded b ∧ notifies b' = notifies b
  ∧ prefs b' = prefs b ∧ state b' = state b.

(** What the specification expects of a status event with an expired map. *)
Definition needsLoginBlocked (b : LocalBackend) : Prop :=
  state b = NeedsLogin ∧ blocked b = true.

(** A status event that carries the network map [nm] and no error. *)
Definition carriesMap (st : controlclient.Status) (nm : netmap.NetworkMap) : Prop :=
  controlclient.Err st = None ∧ controlclient.NetMap st = Some nm.

(** The ordering of the two notifications of an edit, as the specification
    words it: the preferences first, the state after. *)
Definition prefsThenState (mp : ipn.MaskedPrefs) (b : LocalBackend) : Prop :=
  let b' := (EditPrefs mp b).1 in
  state b' ≠ state b →
  notifies b' = notifies b ++ [NotifyPrefs (stripKeysFromPrefs (prefs b'));
                               NotifyState (state b')].

(** The ordering that the test asserts: the state first, the preferences
    after. *)
Definition stateThenPrefs (mp : ipn.MaskedPrefs) (b : LocalBackend) : Prop :=
  let b' := (EditPrefs mp b).1 in
  state b' ≠ state b →
  notifies b' = notifies b ++ [NotifyState (state b');
                               NotifyPrefs (stripKeysFromPrefs (prefs b'))].

(** *** Test data, after the state machine test *)

Definition authorizedSelf : tailcfg.NodeView :=
  Some (tailcfg.MkNode 0 "" "" 0 0 0 false false false true [] [] [] [] ∅ "" None None).

(** The map of a machine that still needs authorization, and the map of an
    authorized machine with an expiry. *)
Definition emptyMap : netmap.NetworkMap := netmap.MkNetworkMap None [] "" None.
Definition authorizedMap (expiry : option Z) : netmap.NetworkMap :=
  netmap.MkNetworkMap authorizedSelf [] "" expiry.

Definition editControlURL : ipn.MaskedPrefs :=
  MkMaskedPrefs (MkPrefs "https://localhost:1/" false false "" persist.zero)
    true false false false.
Definition editWantRunning (v : bool) : ipn.MaskedPrefs :=
  MkMaskedPrefs (MkPrefs "" v false "" persist.zero) false true false false.
Definition editHostname (h : string) : ipn.MaskedPrefs :=
  MkMaskedPrefs (MkPrefs "" false false h persist.zero) false false false true.

(** What the test does between two looks at the outputs: calls of the
    backend, and what it reaches for inside the backend or the session. *)
Inductive Action : Type :=
| Call (o : Op)
| NonInteractiveLogin
| ExpireAuthURL
| SetIdentity (login node : string)
| ClearNetMap.

Definition act (a : Action) (b : LocalBackend) : LocalBackend :=
  match a with
  | Call o => apply o b
  | NonInteractiveLogin =>
      ccLogin (Z.lor controlclient.LoginDefault controlclient.LoginInteractive) b
  | ExpireAuthURL => set_authURLTime (now b - 7 * 24 * 3600) b
  | SetIdentity login node => withCC (setIdentity login node) b
  | ClearNetMap => setNetMapLocked None b
  end.

(** The test looks at the outputs of one step at a time: it forgets the
    recorded calls and drains the notifications. *)
Definition drained (b : LocalBackend) : LocalBackend :=
  set_notifies []
    (set_discarded (List.map forgetCalls (discarded b)) (withCC forgetCalls b)).

(** A notification as the test looks at it. *)
Inductive Seen : Type :=
| SeenState (s : ipn.State)
| SeenPrefs (loggedOut wantRunning : bool) (loginName : string)
| SeenBrowseToURL (url : string)
| SeenLoginFinished
| SeenNothing.

Definition seen (n : ipn.Notify) : Seen :=
  match nState n, nPrefs n, nBrowseToURL n, nLoginFinished n with
  | Some s, _, _, _ => SeenState s
  | None, Some p, _, _ =>
      SeenPrefs (LoggedOut p) (WantRunning p) (persist.LoginName (Persist p))
  | None, None, Some u, _ => SeenBrowseToURL u
  | None, None, None, true => SeenLoginFinished
  | None, None, None, false => SeenNothing
  end.

(** What the test observes after a step: the notifications, the calls
    received by the current session and by the session discarded last, the
    state and the engine-blocked flag. *)
Record Observation : Type := Observe {
  oNotifies : list Seen;
  oCalls : list string;
  oPreviousCalls : list string;
  oState : ipn.State;
  oBlocked : bool
}.

Definition observed (b : LocalBackend) : Observation :=
  Observe (List.map seen (notifies b))
    (match cc b with Some c => calls c | None => [] end)
    (match discarded b with c :: _ => calls c | [] => [] end)
    (state b) (blocked b).

Fixpoint script (steps : list (list Action)) (b : LocalBackend) : list Observation :=
  match steps with
  | [] => []
  | acts :: steps =>
      let b' := fold_left (λ b a, act a b) acts (drained b) in
      observed b' :: script steps b'
  end.

(** The steps of the state machine test. *)
Definition stateMachineTest : list (list Action) :=
  [ [Call OpStart];
    [Call OpStart];
    [NonInteractiveLogin];
    [Call (OpEditPrefs editControlURL);
     Call (OpSend None "https://localhost:1/1" false None)];
    [Call OpStartLoginInteractive];
    [ExpireAuthURL; Call OpStartLoginInteractive];
    [Call (OpSend None "https://localhost:1/2" false None)];
    [SetIdentity "user1" "node1"; Call (OpSend None "" true (Some emptyMap))];
    [Call (OpSend None "" false (Some (authorizedMap None)))];
    [Call (OpEditPrefs (editWantRunning false))];
    [Call (OpEditPrefs (editWantRunning true))];
    [Call OpLogout];
    [Call OpLogout];
    [Call OpLogout];
    [Call OpStart];
    [Call (OpEditPrefs editControlURL)];
    [Call OpStartLoginInteractive;
     Call (OpSend None "https://localhost:1/3" false None)];
    [SetIdentity "user2" "node2";
     Call (OpSend None "" true (Some (authorizedMap None)))];
    [Call (OpEditPrefs (editWantRunning false))];
    [Call OpStart];
    [ClearNetMap];
    [Call (OpSend None "" true (Some (authorizedMap None)))];
    [Call (OpEditPrefs (editWantRunning true))];
    [Call (OpEditPrefs (editWantRunning false))];
    [Call OpStartLoginInteractive;
     Call (OpSend None "https://localhost:1/4" false None)];
    [SetIdentity "user3" "node3";
     Call (OpSend None "" true (Some (authorizedMap None)))];
    [Call OpStart];
    [Call (OpSend None "" true (Some (authorizedMap None)))];
    [Call (OpSend None "" false (Some (authorizedMap (Some (-60)))))];
    [Call (OpSend None "" false (Some (authorizedMap (Some 60))))];
    [Call (OpEngineStatus (MkEngineStatus 1 0) None)] ].

(** The first steps of the test, up to the machine authorization: start,
    interactive login, the URL, the finished login, the authorized map. *)
Definition loginOps : list Op :=
  [OpStart;
   OpEditPrefs editControlURL;
   OpStartLoginInteractive;
   OpSend None "https://localhost:1/1" false None;
   OpSend None "" true (Some emptyMap);
   OpSend None "" false (Some (authorizedMap None))].

(** A backend in Starting: logged in, authorized, wanting to run, no relay
    link yet. *)
Definition startingBackend : LocalBackend :=
  Eval vm_compute in run loginOps (set_now 1000000 NewLocalBackend).

(** Status events with an authorized map, as the session of
    [startingBackend] sends them in the test: with an expiry a minute before
    the time of that backend, and with an expiry after it. *)
Definition expiredStatus : controlclient.Status :=
  controlclient.MkStatus None "" false (Some (authorizedMap (Some 999940)))
    (Persist (prefs startingBackend)).
Definition extendedStatus : controlclient.Status :=
  controlclient.MkStatus None "" false (Some (authorizedMap (Some 1000070)))
    (Persist (prefs startingBackend)).

(** The backend stopped by its user, and the backend whose key expired while
    it was Starting. *)
Definition stoppedBackend : LocalBackend :=
  Eval vm_compute in (EditPrefs (editWantRunning false) startingBackend).1.
Definition expiredBackend : LocalBackend :=
  Eval vm_compute in SetControlClientStatus expiredStatus startingBackend.

(** The preferences of the key-material test: a private and an old private
    node key are set. *)
Definition keyedPrefs : ipn.Prefs :=
  MkPrefs "" false false "" (persist.MkPersist 11 12 0 "" "").
Definition keyedBackend : LocalBackend := set_prefs keyedPrefs NewLocalBackend.

End ipnlocal_props.

(** ** What the translator logs

    [WGCfg] ends with three calls of [logList], one for each list of peers
    that it passed over.  [strings.Cut] and [cmp.Or] are Go's. *)

Module nmcfg_log.
Import netip nmcfg.

Fixpoint dropString (n : nat) (s : string) : string :=
  match n, s with
  | O, _ => s
  | S n, String _ s => dropString n s
  | S _, EmptyString => EmptyString
  end.

(** [strings.Cut]: the text before and after the first instance of [sep],
    and whether [sep] was found; when it is not, the whole of [s], the empty
    text and false. *)
Fixpoint Cut (s sep : string) : string * string * bool :=
  if String.prefix sep s then ("", dropString (String.length sep) s, true)
  else match s with
       | EmptyString => ("", "", false)
       | String c s' =>
           let '(before, after, found) := Cut s' sep in
           (String c before, after, found)
       end.

(** [cmp.Or] on two texts: the first that is not empty. *)
Definition cmpOr (a b : string) : string :=
  if bool_decide (a = "") then b else a.

Section WithHostinfo.

(** The host information of a node is outside the node record; the host name
    that it holds is taken as a function of the node. *)
Variable Hostname : tailcfg.Node → string.

Definition nodeDebugName (n : tailcfg.Node) : string :=
  (Cut (cmpOr (tailcfg.Name n) (Hostname n)) ".").1.1.

Definition max : nat := 5.

(** The writer that [logList] hands to the logger: the loop over the nodes,
    at index [i], for a list of [total] nodes. *)
Fixpoint writeNodes (total : nat) (i : nat) (nodes : list tailcfg.Node) : string :=
  match nodes with
  | [] => ""
  | n :: rest =>
      if (i =? max)%nat then "... +" +:+ pretty (Z.of_nat total - Z.of_nat max)
      else
        (if (0 <? i)%nat then ", " else "")
        +:+ nodeDebugName n +:+ " (" +:+ tailcfg.StableID n +:+ ")"
        +:+ writeNodes total (S i) rest
  end.

(** [logList]: the lines that it logs, none for an empty list. *)
Definition logList (title : string) (nodes : list tailcfg.Node) : list string :=
  if (length nodes =? 0)%nat then []
  else ["[v1] wgcfg: " +:+ title +:+ " from " +:+ pretty (Z.of_nat (length nodes))
        +:+ " nodes: " +:+ writeNodes (length nodes) 0 nodes].

End WithHostinfo.

(** The state in which the loop of [WGCfg] over the peers ends. *)
Definition peersLoop (nm : netmap.NetworkMap) (flags : Z) (exitNode : string)
  : peersState :=
  fold_left (peerStep nm flags exitNode) (netmap.Peers nm) (MkPeersState [] [] [] []).

(** The three calls of [logList]. *)
Definition logSkipped (Hostname : tailcfg.Node → string)
  (nm : netmap.NetworkMap) (flags : Z) (exitNode : string) : list string :=
  let st := peersLoop nm flags exitNode in
  logList Hostname "skipped unselected exit nodes" (skippedExitNode st)
  ++ logList Hostname "did not accept subnet routes" (skippedSubnetRouter st)
  ++ logList Hostname "skipped expired peers" (skippedExpired st).

End nmcfg_log.

(** ** More vocabulary for the translator *)

Module nmcfg_more.
Import netip nmcfg nmcfg_props nmcfg_log.

(** The first test of the loop over the peers: a peer that predates both
    relays and discovery. *)
Definition unreachable (peer : tailcfg.Node) : bool :=
  (tailcfg.DiscoKey peer =? 0) && (tailcfg.HomeDERP peer =? 0)
  && negb (tailcfg.IsWireGuardOnly peer).

(** A peer that lists a default route without being the selected exit
    node. *)
Definition unselectedExitNode (exitNode : string) (peer : tailcfg.Node) : bool :=
  existsb (λ a, Bits a =? 0) (tailcfg.AllowedIPs peer)
  && negb (bool_decide (tailcfg.StableID peer = exitNode)).

(** The node with another allowed-IP list. *)
Definition withAllowedIPs (ips : list Prefix) (n : tailcfg.Node) : tailcfg.Node :=
  tailcfg.MkNode (tailcfg.ID n) (tailcfg.StableID n) (tailcfg.Name n)
    (tailcfg.Key n) (tailcfg.DiscoKey n) (tailcfg.HomeDERP n)
    (tailcfg.IsWireGuardOnly n) (tailcfg.Expired n) (tailcfg.IsJailed n)
    (tailcfg.MachineAuthorized n) (tailcfg.Addresses n) ips
    (tailcfg.PrimaryRoutes n) (tailcfg.Tags n) (tailcfg.CapMap n)
    (tailcfg.DataPlaneAuditLogID n) (tailcfg.SelfNodeV4MasqAddrForThisPeer n)
    (tailcfg.SelfNodeV6MasqAddrForThisPeer n).

(** Texts in a row, each after the separator. *)
Fixpoint prefixed (sep : string) (l : list string) : string :=
  match l with
  | [] => ""
  | x :: l => sep +:+ x +:+ prefixed sep l
  end.

(** A text without a dot. *)
Definition noDot (s : string) : Prop := ∀ a b, s ≠ a +:+ "." +:+ b.

(** The entry of one node in a logged list. *)
Definition logEntry (Hostname : tailcfg.Node → string) (n : tailcfg.Node) : string :=
  nodeDebugName Hostname n +:+ " (" +:+ tailcfg.StableID n +:+ ")".

End nmcfg_more.

(** ** The calls of the translator that do not return

    [nmcfg.WGCfg] above is the result of a call that returns.  A call can
    also end in a panic of the Go runtime: [nodeDebugName] reads the host
    name through the node's host information, whatever the node's name,
    and the view of a node without host information panics there.  The
    loop over the peers names a peer in the log line of the HA expansion,
    and [logList] names the first nodes of a list inside the writer that
    it hands to the logger. *)

Module nmcfg_outcome.
Import netip nmcfg nmcfg_log.

(** How a call ends: it returns, or the Go runtime panics. *)
Inductive outcome (A : Type) : Type :=
| Returns (a : A)
| Panics (why : string).
Arguments Returns {A} a.
Arguments Panics {A} why.

Definition andThen {A B : Type} (o : outcome A) (k : A → outcome B) : outcome B :=
  match o with
  | Returns a => k a
  | Panics why => Panics why
  end.

Definition returns {A : Type} (o : outcome A) : Prop := ∃ a, o = Returns a.

Definition nilDereference : string :=
  "runtime error: invalid memory address or nil pointer dereference".

Section WithHostinfo.

(** The host information of a node is outside the node record: [Hostinfo n]
    is the host name that it holds, [None] for a node that carries no host
    information. *)
Variable Hostinfo : tailcfg.Node → option string.

(** The logger is the caller's.  Of it the model keeps what bears on the
    outcome of [WGCfg]: whether, given a writer among the arguments of a log
    line, it runs the writer and passes on its panic.  A logger that
    discards its arguments does not run the writer, and one that formats
    them with package fmt recovers the panic of a formatter. *)
Variable logfPassesOnPanics : bool.

(** [cmp.Or] is a function: both of its arguments are evaluated, the host
    name also for a node that has a name. *)
Definition nodeDebugName (n : tailcfg.Node) : outcome string :=
  match Hostinfo n with
  | None => Panics nilDereference
  | Some hostname => Returns (Cut (cmpOr (tailcfg.Name n) hostname) ".").1.1
  end.

(** The body of the loop over the peers. *)
Definition peerStep (nm : netmap.NetworkMap) (flags : Z) (exitNode : string)
  (st : peersState) (peer : tailcfg.Node) : outcome peersState :=
  if (tailcfg.DiscoKey peer =? 0) && (tailcfg.HomeDERP peer =? 0)
     && negb (tailcfg.IsWireGuardOnly peer) then Returns st
  else if tailcfg.Expired peer then
    Returns (MkPeersState (cfgPeers st) (skippedExitNode st) (skippedSubnetRouter st)
               (skippedExpired st ++ [peer]))
  else
    let a := fold_left (aipStep peer flags exitNode) (tailcfg.AllowedIPs peer)
               (MkAipState [] false (skippedExitNode st) (skippedSubnetRouter st)) in
    let cpeer allowedIPs :=
      wgcfg.MkPeer (tailcfg.Key peer) (tailcfg.DiscoKey peer) allowedIPs
        (tailcfg.SelfNodeV4MasqAddrForThisPeer peer)
        (tailcfg.SelfNodeV6MasqAddrForThisPeer peer)
        (tailcfg.IsJailed peer) in
    let next allowedIPs :=
      MkPeersState (cfgPeers st ++ [cpeer allowedIPs]) (aipSkippedExitNode a)
        (aipSkippedSubnetRouter a) (skippedExpired st) in
    if negb (Z.land flags netmap.AllowSubnetRoutes =? 0) then
      let haIPs := haSubnetRouterAllowedIPs (netmap.SelfNode nm) peer (netmap.Peers nm) in
      if (0 <? length haIPs)%nat then
        andThen (nodeDebugName peer) (λ _, Returns (next (aipAllowed a ++ haIPs)))
      else Returns (next (aipAllowed a))
    else Returns (next (aipAllowed a)).

(** The loop over the peers. *)
Definition peersLoop (nm : netmap.NetworkMap) (flags : Z) (exitNode : string)
  : outcome peersState :=
  fold_left (λ st peer, andThen st (λ st, peerStep nm flags exitNode st peer))
    (netmap.Peers nm) (Returns (MkPeersState [] [] [] [])).

(** The writer that [logList] hands to the logger: the loop over the nodes,
    at index [i]. *)
Fixpoint writeNodes (i : nat) (nodes : list tailcfg.Node) : outcome unit :=
  match nodes with
  | [] => Returns tt
  | n :: rest =>
      if (i =? max)%nat then Returns tt
      else andThen (nodeDebugName n) (λ _, writeNodes (S i) rest)
  end.

Definition logList (nodes : list tailcfg.Node) : outcome unit :=
  if (length nodes =? 0)%nat then Returns tt
  else if logfPassesOnPanics then writeNodes 0 nodes
  else Returns tt.

Section WithLogID.

Variable ParsePrivateID : string → option Z.

(** [WGCfg], called with a pointer to a network map: [None] is the nil
    pointer. *)
Definition WGCfg (pk : Z) (nm : option netmap.NetworkMap) (flags : Z)
  (exitNode : string) : outcome (wgcfg.Config * option string) :=
  match nm with
  | None => Panics nilDereference
  | Some nm =>
      let networkLogging := networkLogging ParsePrivateID nm in
      andThen (peersLoop nm flags exitNode) (λ st,
      andThen (logList (skippedExitNode st)) (λ _,
      andThen (logList (skippedSubnetRouter st)) (λ _,
      andThen (logList (skippedExpired st)) (λ _,
      Returns (wgcfg.MkConfig pk (netmap.GetAddresses nm) (cfgPeers st)
                 networkLogging, None)))))
  end.

End WithLogID.

End WithHostinfo.

End nmcfg_outcome.

(** ** Vocabulary for the calls of the translator *)

Module nmcfg_outcome_props.
Import netip nmcfg nmcfg_props nmcfg_outcome.

(** The peers that the log line of the HA expansion names: the included
    peers that the expansion gives a route. *)
Definition haExpanded (nm : netmap.NetworkMap) (flags : Z) (peer : tailcfg.Node)
  : bool :=
  included peer && subnetRoutesAccepted flags
  && (0 <? length (haSubnetRouterAllowedIPs (netmap.SelfNode nm) peer
                     (netmap.Peers nm)))%nat.

Definition carriesHostinfo (Hostinfo : tailcfg.Node → option string)
  (n : tailcfg.Node) : bool :=
  match Hostinfo n with Some _ => true | None => false end.

(** Every peer that the loop over the peers names carries host
    information. *)
Definition expandedPeersNamed (Hostinfo : tailcfg.Node → option string)
  (nm : netmap.NetworkMap) (flags : Z) : bool :=
  forallb (λ peer, negb (haExpanded nm flags peer) || carriesHostinfo Hostinfo peer)
    (netmap.Peers nm).

(** Every node that the writer of [logList] names, the first five of the
    list, carries host information. *)
Definition listedNodesNamed (Hostinfo : tailcfg.Node → option string)
  (nodes : list tailcfg.Node) : bool :=
  forallb (carriesHostinfo Hostinfo) (take nmcfg_log.max nodes).

(** The self node advertises a subnet route, as the specification words it:
    an entry that is neither a default route nor a single address. *)
Definition selfAdvertisesSubnetRoute (selfNode : tailcfg.NodeView) : Prop :=
  ∃ self a, selfNode = Some self ∧ a ∈ tailcfg.AllowedIPs self
            ∧ Bits a ≠ 0 ∧ IsSingleIP a = false.

(** The preconditions of the HA expansion as the specification words
    them. *)
Definition haEnabledAsWritten (nm : netmap.NetworkMap) (flags : Z)
  (peer : tailcfg.Node) : Prop :=
  subnetRoutesAccepted flags = true
  ∧ selfAdvertisesSubnetRoute (netmap.SelfNode nm)
  ∧ tailcfg.Tags peer ≠ [].

(** The HA expansion under the preconditions [enabled]: the allowed IPs of
    every configured peer are the filtered list followed by a list without
    duplicates, whose members are, when the preconditions hold, the primary
    routes of the contributing peers that the peer's own list does not
    hold, and which is empty when a precondition fails. *)
Definition haExpansion
  (enabled : netmap.NetworkMap → Z → tailcfg.Node → Prop)
  (cfg : wgcfg.Config) (nm : netmap.NetworkMap) (flags : Z) (exitNode : string)
  : Prop :=
  Forall2
    (λ peer cpeer, ∃ added,
       wgcfg.AllowedIPs cpeer
       = List.filter (keepAllowedIP peer flags exitNode) (tailcfg.AllowedIPs peer)
         ++ added
       ∧ NoDup added
       ∧ (∀ x, x ∈ added ↔
               enabled nm flags peer
               ∧ (x ∉ tailcfg.AllowedIPs peer)
               ∧ ∃ other, other ∈ netmap.Peers nm ∧ contributes peer other
                          ∧ x ∈ tailcfg.PrimaryRoutes other)
       ∧ (¬ enabled nm flags peer → added = []))
    (List.filter included (netmap.Peers nm)) (wgcfg.Peers cfg).

(** *** Test data *)

(** Nodes that all carry host information, and nodes that carry none, as
    the nodes that the translator's tests build. *)
Definition withHostinfo (n : tailcfg.Node) : option string := Some (tailcfg.Name n).
Definition withoutHostinfo (n : tailcfg.Node) : option string := None.

(** A self node that lists, besides its own address, the single address of
    another node, and no subnet; with the two routers of site A as peers. *)
Definition hostRouteSelf : tailcfg.Node :=
  node 4 "site-b-sr2" ["tag:site-b-sr"] [siteBSR2Addr] [siteBSR2Addr; siteBSR1Addr] [].
Definition hostRouteSelfMap : netmap.NetworkMap :=
  netmap.MkNetworkMap (Some hostRouteSelf)
    (List.map reachable [siteASR1AsSeenBySiteBSR2; siteASR2AsSeenBySiteBSR2]) "" None.

End nmcfg_outcome_props.

(** ** The helpers of the state machine test

    The notification throttler, the calls on the mock of the control
    session, and the mock of the engine, embedded from the test file. *)

Module statetest.
Import ipn ipnlocal.

(** How a call of a helper ends: it returns, it fails the test through
    [t.Fatalf], or the Go runtime panics. *)
Inductive failure : Type :=
| PutChannelFull (n : ipn.Notify)
| DrainChannelEmpty (i count : Z)
| CallsDiffer (got want : list string).

Inductive outcome (A : Type) : Type :=
| Returns (a : A)
| Fatal (f : failure)
| Panics (why : string).
Arguments Returns {A} a.
Arguments Fatal {A} f.
Arguments Panics {A} why.

Definition andThen {A B : Type} (o : outcome A) (k : A → outcome B) : outcome B :=
  match o with
  | Returns a => k a
  | Fatal f => Fatal f
  | Panics why => Panics why
  end.

(** *** [notifyThrottler]

    A buffered channel of notifications: its capacity, the notifications
    queued and whether it was closed.  The throttler holds one channel,
    [None] for the nil channel that it has before the first [expect].  The
    calls are taken one after the other, no other goroutine running in
    between: a receive that finds the queue of an open channel empty runs
    into the timeout, and a send that finds no room takes the default
    branch. *)
Record chan : Type := MkChan {
  capacity : Z;
  queue : list ipn.Notify;
  closed : bool
}.

Definition notifyThrottler : Type := option chan.

Definition zeroNotify : ipn.Notify := MkNotify None None None false.

(** [expect] tells the throttler to expect [count] upcoming notifications. *)
Definition expect (count : Z) (nt : notifyThrottler) : outcome notifyThrottler :=
  if count <? 0 then Panics "makechan: size out of range"
  else Returns (Some (MkChan count [] false)).

(** [put] adds one notification into the throttler's queue. *)
Definition put (n : ipn.Notify) (nt : notifyThrottler) : outcome notifyThrottler :=
  match nt with
  | None => Fatal (PutChannelFull n)
  | Some ch =>
      if closed ch then Panics "send on closed channel"
      else if Z.of_nat (length (queue ch)) <? capacity ch
           then Returns (Some (MkChan (capacity ch) (queue ch ++ [n]) false))
           else Fatal (PutChannelFull n)
  end.

(** The receive loop of [drain], with [k] receives to go at index [i]; a
    closed channel that is empty yields zero values. *)
Fixpoint receive (k : nat) (i count : Z) (ch : chan) (nn : list ipn.Notify)
  : outcome (list ipn.Notify * chan) :=
  match k with
  | O => Returns (nn, ch)
  | S k =>
      match queue ch with
      | n :: q =>
          receive k (i + 1) count (MkChan (capacity ch) q (closed ch)) (nn ++ [n])
      | [] =>
          if closed ch then receive k (i + 1) count ch (nn ++ [zeroNotify])
          else Fatal (DrainChannelEmpty i count)
      end
  end.

(** [drain] pulls [count] notifications out of the queue and closes the
    channel. *)
Definition drain (count : Z) (nt : notifyThrottler)
  : outcome (list ipn.Notify * notifyThrottler) :=
  match nt with
  | None =>
      if 0 <? count then Fatal (DrainChannelEmpty 0 count)
      else Panics "close of nil channel"
  | Some ch =>
      andThen (receive (Z.to_nat count) 0 count ch [])
        (λ r, if closed r.2 then Panics "close of closed channel"
              else Returns (r.1, Some (MkChan (capacity r.2) (queue r.2) true)))
  end.

(** Notifications put one after the other. *)
Definition puts (ns : list ipn.Notify) (nt : notifyThrottler) : outcome notifyThrottler :=
  fold_left (λ o n, andThen o (put n)) ns (Returns nt).

(** *** The calls on [mockControl]

    The methods of the mock that touch nothing but the mock, and
    [assertCalls], which fails the test unless the calls recorded are the
    wanted ones and then forgets them.  A second [Shutdown] closes a closed
    channel. *)
Inductive mockCall : Type :=
| CallLogin (flags newNode : Z)
| CallLogout
| CallSetPaused (p : bool)
| CallShutdown
| CallSetHostinfo
| CallSetNetInfo
| CallSetTKAHead
| CallUpdateEndpoints
| CallAssertCalls (want : list string).

Definition mockStep (c : mockControl) (call : mockCall) : outcome mockControl :=
  match call with
  | CallLogin flags newNode => Returns (mockLogin flags newNode c)
  | CallLogout => Returns (mockLogout c)
  | CallSetPaused p => Returns (SetPaused p c)
  | CallShutdown =>
      if shutdown c then Panics "close of closed channel"
      else Returns (mockShutdown c)
  | CallSetHostinfo => Returns (called "SetHostinfo" c)
  | CallSetNetInfo => Returns (called "SetNetInfo" (called "SetNetinfo" c))
  | CallSetTKAHead => Returns c
  | CallUpdateEndpoints => Returns (called "UpdateEndpoints" c)
  | CallAssertCalls want =>
      if bool_decide (calls c = want) then Returns (forgetCalls c)
      else Fatal (CallsDiffer (calls c) want)
  end.

Definition mockRun (calls : list mockCall) (c : mockControl) : outcome mockControl :=
  fold_left (λ o call, andThen o (λ c, mockStep c call)) calls (Returns c).

(** The recorded calls that are a pause or an unpause. *)
Definition pauseCalls (c : mockControl) : list string :=
  List.filter (λ s, bool_decide (s = "pause") || bool_decide (s = "unpause")) (calls c).

(** Pauses and unpauses in turn, [k] of them, after a state [p] of the
    paused flag. *)
Fixpoint inTurn (p : bool) (k : nat) : list string :=
  match k with
  | O => []
  | S k => (if p then "unpause" else "pause") :: inTurn (negb p) k
  end.

(** What every call keeps: the pauses and unpauses recorded since the calls
    were last forgotten come in turn, after a state [p0] of the paused flag,
    and the last agrees with the flag. *)
Definition pausesInTurn (p0 : bool) (c : mockControl) : Prop :=
  ∃ k, pauseCalls c = inTurn p0 k
       ∧ paused c = (if Nat.even k then p0 else negb p0).

(** *** [mockEngine]

    The configurations are pointers, [None] when nil; the router and DNS
    configurations and the packet filters are declared outside the sources
    and left abstract.  The status callback is left out. *)
Section Engine.
Context {RouterConfig DNSConfig Filter : Type}.

Record mockEngine : Type := MkMockEngine {
  doneClosed : bool;
  engineClosed : bool;
  cfg : option wgcfg.Config;
  routerCfg : option RouterConfig;
  dnsCfg : option DNSConfig;
  filter_ : option Filter;
  jailedFilter : option Filter
}.

Definition newMockEngine : mockEngine :=
  MkMockEngine false false None None None None None.

(** [Reconfig], with its error. *)
Definition Reconfig (c : option wgcfg.Config) (r : option RouterConfig)
  (d : option DNSConfig) (e : mockEngine) : mockEngine * option string :=
  if engineClosed e then (e, Some "engine closed")
  else (MkMockEngine (doneClosed e) (engineClosed e) c r d (filter_ e) (jailedFilter e),
        None).

Definition Config (e : mockEngine) : option wgcfg.Config := cfg e.
Definition RouterConfig_ (e : mockEngine) : option RouterConfig := routerCfg e.
Definition DNSConfig_ (e : mockEngine) : option DNSConfig := dnsCfg e.
Definition GetFilter (e : mockEngine) : option Filter := filter_ e.
Definition GetJailedFilter (e : mockEngine) : option Filter := jailedFilter e.

Definition SetFilter (f : option Filter) (e : mockEngine) : mockEngine :=
  MkMockEngine (doneClosed e) (engineClosed e) (cfg e) (routerCfg e) (dnsCfg e)
    f (jailedFilter e).

Definition SetJailedFilter (f : option Filter) (e : mockEngine) : mockEngine :=
  MkMockEngine (doneClosed e) (engineClosed e) (cfg e) (routerCfg e) (dnsCfg e)
    (filter_ e) f.

(** [Close] closes the [done] channel, once. *)
Definition Close (e : mockEngine) : mockEngine :=
  if engineClosed e then e
  else MkMockEngine true true (cfg e) (routerCfg e) (dnsCfg e)
         (filter_ e) (jailedFilter e).

(** What the three getters return. *)
Definition configs (e : mockEngine)
  : option wgcfg.Config * option RouterConfig * option DNSConfig :=
  (Config e, RouterConfig_ e, DNSConfig_ e).

Inductive engineCall : Type :=
| CallReconfig (c : option wgcfg.Config) (r : option RouterConfig) (d : option DNSConfig)
| CallClose
| CallSetFilter (f : option Filter)
| CallSetJailedFilter (f : option Filter).

Definition engineStep (e : mockEngine) (call : engineCall) : mockEngine :=
  match call with
  | CallReconfig c r d => (Reconfig c r d e).1
  | CallClose => Close e
  | CallSetFilter f => SetFilter f e
  | CallSetJailedFilter f => SetJailedFilter f e
  end.

(** The configurations handed to the engine before the first [Close], in
    the order of the calls. *)
Fixpoint accepted (calls : list engineCall)
  : list (option wgcfg.Config * option RouterConfig * option DNSConfig) :=
  match calls with
  | [] => []
  | CallReconfig c r d :: calls => (c, r, d) :: accepted calls
  | CallClose :: _ => []
  | _ :: calls => accepted calls
  end.

End Engine.
Arguments mockEngine : clear implicits.
Arguments engineCall : clear implicits.

(** *** Test data *)

Definition twoNotifications : list ipn.Notify :=
  [NotifyState NeedsLogin; NotifyLoginFinished].

Definition pausingCalls : list mockCall :=
  [CallSetPaused true; CallSetPaused true; CallLogin 0 5; CallSetPaused false;
   CallSetPaused true].

End statetest.

(** ** The network maps that the reconfiguration test builds *)

Module netmaptest.

(** [buildNetmapWithPeers], embedded from the test file.

    The declarations of the user profile and of the relay map are outside
    the sources; the records have the fields that the helper writes.  A
    node comes with the user that owns it, a field that the node record of
    the translator leaves out. *)
Record UserProfile : Type := MkUserProfile {
  upID : Z;
  DisplayName : string;
  LoginName : string
}.

Record DERPNode : Type := MkDERPNode { dnName : string; dnRegionID : Z }.

Record DERPRegion : Type := MkDERPRegion {
  RegionID : Z;
  RegionName : string;
  Nodes : list DERPNode
}.

Record userNode : Type := MkUserNode { theNode : tailcfg.Node; User : Z }.

Record builtMap : Type := MkBuiltMap {
  SelfNode : userNode;
  Name : string;
  Domain : string;
  Peers : list userNode;
  UserProfiles : gmap Z UserProfile;
  DERPMap : gmap Z DERPRegion
}.

Definition firstAutoUserID : Z := 10000.
Definition domain : string := "example.com".
Definition magicDNSSuffix : string := ".test.ts.net".

(** Go's addition on [int64]. *)
Definition int64 (z : Z) : Z := (z + 2 ^ 63) mod 2 ^ 64 - 2 ^ 63.

Definition withName (name : string) (n : tailcfg.Node) : tailcfg.Node :=
  tailcfg.MkNode (tailcfg.ID n) (tailcfg.StableID n) name
    (tailcfg.Key n) (tailcfg.DiscoKey n) (tailcfg.HomeDERP n)
    (tailcfg.IsWireGuardOnly n) (tailcfg.Expired n) (tailcfg.IsJailed n)
    (tailcfg.MachineAuthorized n) (tailcfg.Addresses n) (tailcfg.AllowedIPs n)
    (tailcfg.PrimaryRoutes n) (tailcfg.Tags n) (tailcfg.CapMap n)
    (tailcfg.DataPlaneAuditLogID n) (tailcfg.SelfNodeV4MasqAddrForThisPeer n)
    (tailcfg.SelfNodeV6MasqAddrForThisPeer n).

(** The closure [makeUserForNode]: a node without a user gets one made
    from its ID, and a profile under its name; a node with a user gets a
    numbered profile unless the user has one. *)
Definition makeUserForNode (n : userNode) (users : gmap Z UserProfile)
  : userNode * gmap Z UserProfile :=
  if User n =? 0 then
    let user := int64 (firstAutoUserID + tailcfg.ID (theNode n)) in
    (MkUserNode (theNode n) user,
     <[user := MkUserProfile user (tailcfg.Name (theNode n))
                 (tailcfg.Name (theNode n) +:+ "@" +:+ domain)]> users)
  else
    match users !! User n with
    | None =>
        (n, <[User n := MkUserProfile (User n) ("User " +:+ pretty (User n))
                          ("user-" +:+ pretty (User n) +:+ "@" +:+ domain)]> users)
    | Some _ => (n, users)
    end.

(** The region that [makeDERPRegionForNode] makes for a home relay. *)
Definition regionOf (home : Z) : DERPRegion :=
  MkDERPRegion home ("Region " +:+ pretty home) [MkDERPNode (pretty home +:+ "a") home].

Definition makeDERPRegionForNode (n : tailcfg.Node) (regions : gmap Z DERPRegion)
  : gmap Z DERPRegion :=
  if tailcfg.HomeDERP n =? 0 then regions
  else match regions !! tailcfg.HomeDERP n with
       | Some _ => regions
       | None => <[tailcfg.HomeDERP n := regionOf (tailcfg.HomeDERP n)]> regions
       end.

(** The closure [updateNode], with the two maps that it writes. *)
Definition updateNode (st : gmap Z UserProfile * gmap Z DERPRegion) (n : userNode)
  : userNode * (gmap Z UserProfile * gmap Z DERPRegion) :=
  let '(mut, users) := makeUserForNode n st.1 in
  let regions := makeDERPRegionForNode (theNode mut) st.2 in
  (MkUserNode (withName (tailcfg.Name (theNode mut) +:+ magicDNSSuffix) (theNode mut))
     (User mut),
   (users, regions)).

(** The loop that updates the peers in place. *)
Definition updatePeers (peers : list userNode)
  (st : gmap Z UserProfile * gmap Z DERPRegion)
  : list userNode * (gmap Z UserProfile * gmap Z DERPRegion) :=
  fold_left (λ acc n, let '(n', st') := updateNode acc.2 n in (acc.1 ++ [n'], st'))
    peers ([], st).

Definition buildNetmapWithPeers (self : userNode) (peers : list userNode) : builtMap :=
  let '(self', st) := updateNode (∅, ∅) self in
  let '(peers', st') := updatePeers peers st in
  MkBuiltMap self' (tailcfg.Name (theNode self')) domain peers' st'.1 st'.2.

(** The nodes of a built map. *)
Definition nodes (m : builtMap) : list userNode := SelfNode m :: Peers m.

(** What the maps hold for the nodes [sofar] updated so far: every profile is
    filed under its ID and every node has one; every region is the region of
    its key, no region has the key zero, every region is the home of a node,
    and every node with a home has its region. *)
Definition covers (st : gmap Z UserProfile * gmap Z DERPRegion)
  (sofar : list userNode) : Prop :=
  (∀ k u, st.1 !! k = Some u → upID u = k)
  ∧ (∀ n, n ∈ sofar → is_Some (st.1 !! User n))
  ∧ (∀ k r, st.2 !! k = Some r →
       k ≠ 0 ∧ r = regionOf k ∧ ∃ n, n ∈ sofar ∧ tailcfg.HomeDERP (theNode n) = k)
  ∧ (∀ n, n ∈ sofar → tailcfg.HomeDERP (theNode n) ≠ 0 →
       st.2 !! tailcfg.HomeDERP (theNode n) = Some (regionOf (tailcfg.HomeDERP (theNode n)))).

End netmaptest.

(** * The gateway operator: definitions *)

(** ** The API types, package [v1alpha1] *)

Module v1alpha1.

Definition ProxyTypeIngress : string := "ingress".
Definition ProxyTypeEgress : string := "egress".

Module IngressService.
Record t : Type := Mk {
  Name : string;
  Protocol : string;
  Port : Z;
  TargetPort : Z;
  Path : string
}.
End IngressService.

Module IngressConfig.
Record t : Type := Mk {
  Hostname : string;
  Services : list IngressService.t;
  UseFunnel : bool
}.
End IngressConfig.

Module EgressService.
Record t : Type := Mk {
  Name : string;
  TailscaleTarget : string;
  Port : Z;
  Protocol : string
}.
End EgressService.

Module EgressConfig.
Record t : Type := Mk { Services : list EgressService.t }.
End EgressConfig.

Module TailscaleProxySpec.
Record t : Type := Mk {
  Type_ : string;
  Replicas : Z;
  ClassName : string;
  IngressConfig : option IngressConfig.t;
  EgressConfig : option EgressConfig.t;
  Tags : list string
}.
End TailscaleProxySpec.

(** [metav1.Condition], of the Kubernetes API. *)
Module Condition.
Record t : Type := Mk {
  Type_ : string;
  Status : string;
  ObservedGeneration : Z;
  LastTransitionTime : Z;
  Reason : string;
  Message : string
}.
End Condition.

Module DeviceInfo.
Record t : Type := Mk {
  Hostname : string;
  TailscaleIP : string;
  PodName : string
}.
End DeviceInfo.

Module TailscaleProxyStatus.
Record t : Type := Mk {
  Conditions : list Condition.t;
  ReadyReplicas : Z;
  Devices : list DeviceInfo.t
}.
End TailscaleProxyStatus.

(** Of the object's metadata, the name, the namespace and the generation. *)
Module TailscaleProxy.
Record t : Type := Mk {
  Name : string;
  Namespace : string;
  Generation : Z;
  Spec : TailscaleProxySpec.t;
  Status : TailscaleProxyStatus.t
}.
End TailscaleProxy.

Module AuthKeyReference.
Record t : Type := Mk { Name : string; Key : string }.
End AuthKeyReference.

Module ExtensionHook.
Record t : Type := Mk { Name : string; Priority : Z }.
End ExtensionHook.

Module XDSServerConfig.
Record t : Type := Mk { Port : Z; ExtensionHooks : list ExtensionHook.t }.
End XDSServerConfig.

Module TailscaleGatewaySpec.
Record t : Type := Mk {
  GatewayClassName : string;
  AuthKey : AuthKeyReference.t;
  XDSServer : option XDSServerConfig.t;
  ProxyImage : string;
  Tags : list string
}.
End TailscaleGatewaySpec.

Module TailscaleGateway.
Record t : Type := Mk {
  Name : string;
  Namespace : string;
  Generation : Z;
  Spec : TailscaleGatewaySpec.t
}.
End TailscaleGateway.

End v1alpha1.

(** ** The proxy controller *)

Module controllers.
Import v1alpha1.

(** The parts of the Kubernetes API that the controller fills in. *)
Inductive EnvVarSource : Type :=
| SecretKeyRef (name key : string)
| FieldRef (fieldPath : string).

Record EnvVar : Type := MkEnvVar {
  evName : string;
  evValue : string;
  evValueFrom : option EnvVarSource
}.

Record VolumeMount : Type := MkVolumeMount {
  vmName : string;
  vmMountPath : string;
  vmReadOnly : bool
}.

Record Container : Type := MkContainer {
  cName : string;
  cImage : string;
  cCommand : list string;
  cEnv : list EnvVar;
  cCapabilitiesAdd : list string;
  cVolumeMounts : list VolumeMount
}.

Record Volume : Type := MkVolume { vName : string; vConfigMap : string }.

Record PersistentVolumeClaim : Type := MkPersistentVolumeClaim {
  pvcName : string;
  pvcAccessModes : list string;
  pvcStorageRequest : string
}.

Record StatefulSetSpec : Type := MkStatefulSetSpec {
  ssReplicas : Z;
  ssServiceName : string;
  ssMatchLabels : gmap string string;
  ssTemplateLabels : gmap string string;
  ssServiceAccountName : string;
  ssInitContainers : list Container;
  ssContainers : list Container;
  ssVolumes : list Volume;
  ssVolumeClaimTemplates : list PersistentVolumeClaim
}.

Record Pod : Type := MkPod { podName : string; podPhase : string }.

Definition PodRunning : string := "Running".
Definition ConditionTrue : string := "True".
Definition ConditionFalse : string := "False".

(** Go's [int32], with its wrap-around. *)
Definition int32 (z : Z) : Z := (z + 2 ^ 31) mod 2 ^ 32 - 2 ^ 31.

(** The loop of [createTailscaleEnv] that joins the tags. *)
Definition joinTags (tags : list string) : string :=
  (fold_left (λ (st : nat * string) tag,
                (S st.1, (if (0 <? st.1)%nat then st.2 +:+ "," else st.2) +:+ tag))
     tags (O, "")).2.

(** [createTailscaleEnv] creates environment variables for Tailscale
    containers. *)
Definition createTailscaleEnv (proxy : TailscaleProxy.t) (gateway : TailscaleGateway.t)
  (isIngress : bool) : list EnvVar :=
  let env :=
    [ MkEnvVar "TS_AUTH_KEY" ""
        (Some (SecretKeyRef
                 (AuthKeyReference.Name (TailscaleGatewaySpec.AuthKey (TailscaleGateway.Spec gateway)))
                 (AuthKeyReference.Key (TailscaleGatewaySpec.AuthKey (TailscaleGateway.Spec gateway)))));
      MkEnvVar "HOSTNAME" "" (Some (FieldRef "metadata.name"));
      MkEnvVar "TS_USERSPACE" "false" None ] in
  let env :=
    if isIngress
    then env ++ [MkEnvVar "TS_EXPERIMENTAL_CERT_SHARE" "true" None]
             ++ [MkEnvVar "TS_INGRESS_PROXIES_CONFIG_PATH" "/etc/proxies/serve-config.json" None]
    else env in
  let ptags := TailscaleProxySpec.Tags (TailscaleProxy.Spec proxy) in
  let gtags := TailscaleGatewaySpec.Tags (TailscaleGateway.Spec gateway) in
  if (0 <? length ptags)%nat || (0 <? length gtags)%nat
  then env ++ [MkEnvVar "TS_TAGS" (joinTags (gtags ++ ptags)) None]
  else env.

Definition stateClaim : PersistentVolumeClaim :=
  MkPersistentVolumeClaim "state" ["ReadWriteOnce"] "1Gi".

Definition initCommand : list string :=
  ["sh"; "-c";
   "tailscale up --authkey=$(TS_AUTH_KEY) --hostname=$(HOSTNAME) --accept-routes"].

Definition proxyLabels (type name : string) : gmap string string :=
  <["app" := "tailscale-proxy"]> (<["type" := type]> (<["name" := name]> ∅)).

(** [createIngressStatefulSetSpec] creates the StatefulSet spec for
    ingress. *)
Definition createIngressStatefulSetSpec (proxy : TailscaleProxy.t)
  (gateway : TailscaleGateway.t) : StatefulSetSpec :=
  let replicas := TailscaleProxySpec.Replicas (TailscaleProxy.Spec proxy) in
  let replicas := if replicas =? 0 then 2 else replicas in
  let labels := proxyLabels "ingress" (TailscaleProxy.Name proxy) in
  let image := TailscaleGatewaySpec.ProxyImage (TailscaleGateway.Spec gateway) in
  MkStatefulSetSpec replicas (TailscaleProxy.Name proxy +:+ "-ingress") labels labels
    "tailscale"
    [MkContainer "tailscale-init" image initCommand
       (createTailscaleEnv proxy gateway true) [] []]
    [MkContainer "tailscale" image [] (createTailscaleEnv proxy gateway true)
       ["NET_ADMIN"]
       [MkVolumeMount "serve-config" "/etc/proxies" true;
        MkVolumeMount "state" "/var/lib/tailscale" false]]
    [MkVolume "serve-config" (TailscaleProxy.Name proxy +:+ "-serve-config")]
    [stateClaim].

(** [createEgressStatefulSetSpec] creates the StatefulSet spec for egress. *)
Definition createEgressStatefulSetSpec (proxy : TailscaleProxy.t)
  (gateway : TailscaleGateway.t) : StatefulSetSpec :=
  let replicas := TailscaleProxySpec.Replicas (TailscaleProxy.Spec proxy) in
  let replicas := if replicas =? 0 then 2 else replicas in
  let labels := proxyLabels "egress" (TailscaleProxy.Name proxy) in
  let image := TailscaleGatewaySpec.ProxyImage (TailscaleGateway.Spec gateway) in
  MkStatefulSetSpec replicas (TailscaleProxy.Name proxy +:+ "-egress") labels labels
    "tailscale"
    [MkContainer "tailscale-init" image initCommand
       (createTailscaleEnv proxy gateway false) [] []]
    [MkContainer "tailscale" image [] (createTailscaleEnv proxy gateway false)
       ["NET_ADMIN"]
       [MkVolumeMount "state" "/var/lib/tailscale" false]]
    []
    [stateClaim].

(** The labels by which [updateStatus] lists the pods of a proxy. *)
Definition statusLabels (proxy : TailscaleProxy.t) : gmap string string :=
  proxyLabels (TailscaleProxySpec.Type_ (TailscaleProxy.Spec proxy))
    (TailscaleProxy.Name proxy).

(** The loop of [updateStatus] over the listed pods. *)
Definition countReady (pods : list Pod) : Z * list DeviceInfo.t :=
  fold_left
    (λ (st : Z * list DeviceInfo.t) pod,
       if bool_decide (podPhase pod = PodRunning)
       then (int32 (st.1 + 1), st.2 ++ [DeviceInfo.Mk (podName pod) "" (podName pod)])
       else st)
    pods (0, []).

(** [updateStatus], from the listing of the pods on: the status that it
    hands to the API server.  [now] is the time of the call. *)
Definition updateStatus (pods : list Pod) (now : Z) (proxy : TailscaleProxy.t)
  : TailscaleProxy.t :=
  let '(readyCount, devices) := countReady pods in
  let replicas := TailscaleProxySpec.Replicas (TailscaleProxy.Spec proxy) in
  let message := pretty readyCount +:+ "/" +:+ pretty replicas +:+ " replicas ready" in
  let condition :=
    if readyCount <? replicas
    then Condition.Mk "Ready" ConditionFalse (TailscaleProxy.Generation proxy) now
           "InsufficientReplicas" message
    else Condition.Mk "Ready" ConditionTrue (TailscaleProxy.Generation proxy) now
           "ProxyReady" message in
  TailscaleProxy.Mk (TailscaleProxy.Name proxy) (TailscaleProxy.Namespace proxy)
    (TailscaleProxy.Generation proxy) (TailscaleProxy.Spec proxy)
    (TailscaleProxyStatus.Mk [condition] readyCount devices).

End controllers.

(** ** Envoy's configuration messages

    The parts of Envoy's route, cluster and endpoint messages that the
    operator fills in.  A cluster is discovered through EDS, from the xDS
    cluster named in [clEdsCluster], or is static with its own load
    assignment. *)

Module envoyapi.

Record HeaderMatcher : Type := MkHeaderMatcher { hmName : string; hmExactMatch : string }.

Record Route : Type := MkRoute {
  rPrefix : string;
  rHeaders : list HeaderMatcher;
  rCluster : string
}.

Record VirtualHost : Type := MkVirtualHost {
  vhName : string;
  vhDomains : list string;
  vhRoutes : list Route
}.

Record RouteConfiguration : Type := MkRouteConfiguration {
  rcName : string;
  rcVirtualHosts : list VirtualHost
}.

Record LbEndpoint : Type := MkLbEndpoint { epAddress : string; epPortValue : Z }.

Record ClusterLoadAssignment : Type := MkClusterLoadAssignment {
  claClusterName : string;
  claEndpoints : list (list LbEndpoint)
}.

Record Cluster : Type := MkCluster {
  clName : string;
  clConnectTimeoutSeconds : Z;
  clDiscoveryType : string;
  clEdsCluster : option string;
  clLbPolicy : string;
  clLoadAssignment : option ClusterLoadAssignment
}.

(** Go's conversion to [uint32]. *)
Definition uint32 (z : Z) : Z := z mod 2 ^ 32.

End envoyapi.

(** ** The extension server, package [xds] *)

Module xds.
Import v1alpha1 envoyapi.

(** How a hook ends: with a response, with a gRPC status, or in a panic. *)
Inductive response (A : Type) : Type :=
| Response (a : A)
| StatusError (code : string) (msg : string)
| Panics (why : string).
Arguments Response {A} a.
Arguments StatusError {A} code msg.
Arguments Panics {A} why.

(** [addEgressRoute] adds a route for a Tailscale egress service. *)
Definition addEgressRoute (route : RouteConfiguration) (proxy : TailscaleProxy.t)
  (svc : EgressService.t) : RouteConfiguration :=
  let newRoute :=
    MkRoute ("/" +:+ EgressService.Name svc) []
      ("tailscale-" +:+ TailscaleProxy.Name proxy +:+ "-" +:+ EgressService.Name svc) in
  match rcVirtualHosts route with
  | [] => route
  | vh :: rest =>
      MkRouteConfiguration (rcName route)
        (MkVirtualHost (vhName vh) (vhDomains vh) (vhRoutes vh ++ [newRoute]) :: rest)
  end.

(** [addIngressRoute] adds a route for a Tailscale ingress service; the
    proxy is one with an ingress configuration. *)
Definition addIngressRoute (vhost : option VirtualHost) (config : IngressConfig.t)
  (svc : IngressService.t) : response (option VirtualHost) :=
  let path := IngressService.Path svc in
  let path := if bool_decide (path = "") then "/" else path in
  let newRoute :=
    MkRoute path [MkHeaderMatcher ":authority" (IngressConfig.Hostname config)]
      ("service-" +:+ IngressService.Name svc +:+ "-" +:+ pretty (IngressService.Port svc)) in
  match vhost with
  | None => Panics "nil pointer dereference"
  | Some vh =>
      Response (Some (MkVirtualHost (vhName vh) (vhDomains vh) (vhRoutes vh ++ [newRoute])))
  end.

Definition andThen {A B : Type} (o : response A) (k : A → response B) : response B :=
  match o with
  | Response a => k a
  | StatusError c m => StatusError c m
  | Panics why => Panics why
  end.

(** [PostVirtualHostModify] handles virtual host modification hooks.
    [listed] is what listing the proxies of the namespace gives: the
    proxies, or the text of an error. *)
Definition PostVirtualHostModify (listed : list TailscaleProxy.t + string)
  (reqVirtualHost : option VirtualHost) : response (option VirtualHost) :=
  match listed with
  | inr err => StatusError "Internal" ("failed to list TailscaleProxies: " +:+ err)
  | inl proxies =>
      fold_left
        (λ modifiedVHost proxy,
           if bool_decide (TailscaleProxySpec.Type_ (TailscaleProxy.Spec proxy)
                           = ProxyTypeIngress)
           then match TailscaleProxySpec.IngressConfig (TailscaleProxy.Spec proxy) with
                | Some config =>
                    fold_left
                      (λ vh svc, andThen vh (λ vh, addIngressRoute vh config svc))
                      (IngressConfig.Services config) modifiedVHost
                | None => modifiedVHost
                end
           else modifiedVHost)
        proxies (Response reqVirtualHost)
  end.

(** [createTailscaleCluster] creates an Envoy cluster for a Tailscale
    service. *)
Definition createTailscaleCluster (proxy : TailscaleProxy.t) (svc : EgressService.t)
  : Cluster :=
  let name :=
    "tailscale-" +:+ TailscaleProxy.Name proxy +:+ "-" +:+ EgressService.Name svc in
  MkCluster name 30 "STATIC" None "ROUND_ROBIN"
    (Some (MkClusterLoadAssignment name
             [[MkLbEndpoint (TailscaleProxy.Name proxy +:+ "-egress-svc")
                 (uint32 (EgressService.Port svc))]])).

End xds.

(** ** The Envoy proxy group, package [main] of the operator *)

Module envoy.
Import envoyapi.

(** [ServiceRoute] represents a routing configuration for a service. *)
Record ServiceRoute : Type := MkServiceRoute {
  Name : string;
  Namespace : string;
  ClusterIP : string;
  Port : Z;
  PathPrefix : string;
  HostHeader : string
}.

(** Of a Kubernetes service: its name and namespace, its annotations, its
    cluster IP and the port numbers of its ports. *)
Record Service : Type := MkService {
  svcName : string;
  svcNamespace : string;
  svcAnnotations : gmap string string;
  svcClusterIP : string;
  svcPorts : list Z
}.

(** Reading a Go map of texts: a missing key gives the empty text. *)
Definition annotation (svc : Service) (key : string) : string :=
  default "" (svcAnnotations svc !! key).

Section WithAnnotations.

(** The names of the two annotations are declared outside the sources. *)
Variables AnnotationProxyGroup AnnotationExpose : string.

(** The loop that collects the routes of the services that reference the
    proxy group. *)
Definition collectRoutes (pgName : string) (svcs : list Service) : list ServiceRoute :=
  fold_left
    (λ routes svc,
       if bool_decide (annotation svc AnnotationProxyGroup = pgName)
          && bool_decide (annotation svc AnnotationExpose = "true")
       then
         let port := match svcPorts svc with p :: _ => p | [] => 80 end in
         let pathPrefix := annotation svc "tailscale.com/path-prefix" in
         let pathPrefix := if bool_decide (pathPrefix = "") then "/" else pathPrefix in
         routes ++ [MkServiceRoute (svcName svc) (svcNamespace svc) (svcClusterIP svc)
                      port pathPrefix (annotation svc "tailscale.com/host-header")]
       else routes)
    svcs [].

(** The routes of [generateEnvoyConfigMap] before they are sorted: a
    default backend when no route was found. *)
Definition routesToSort (pgName : string) (svcs : list Service) : list ServiceRoute :=
  let routes := collectRoutes pgName svcs in
  if (length routes =? 0)%nat
  then routes ++ [MkServiceRoute "default" "default" "127.0.0.1" 80 "/" ""]
  else routes.

End WithAnnotations.

(** The ordering handed to [sort.Slice]: by path specificity, more specific
    paths first. *)
Definition less (ri rj : ServiceRoute) : bool :=
  if negb (String.length (PathPrefix ri) =? String.length (PathPrefix rj))%nat
  then (String.length (PathPrefix rj) <? String.length (PathPrefix ri))%nat
  else
    let hasHostI := negb (bool_decide (HostHeader ri = "")) in
    let hasHostJ := negb (bool_decide (HostHeader rj = "")) in
    if negb (Bool.eqb hasHostI hasHostJ) then hasHostI
    else String.ltb (PathPrefix ri) (PathPrefix rj).

(** What [sort.Slice] leaves, for an ordering that is transitive: the same
    routes, none of them less than the one before it.  The sort is not
    stable, so that the order of routes that compare equal is not fixed. *)
Definition sortedSlice (routes sorted : list ServiceRoute) : Prop :=
  sorted ≡ₚ routes ∧ Sorted (λ a b, less b a = false) sorted.

(** *** The resources that the xDS server generates *)

Definition clusterName (svc : ServiceRoute) : string :=
  Name svc +:+ "_" +:+ Namespace svc +:+ "_cluster".

(** [generateClusters] creates Envoy cluster configurations. *)
Definition generateClusters (services : list ServiceRoute) : list Cluster :=
  fold_left
    (λ clusters svc,
       clusters ++ [MkCluster (clusterName svc) 5 "EDS" (Some "xds_cluster")
                      "ROUND_ROBIN" None])
    services [].

(** [generateRoutes] creates Envoy route configurations. *)
Definition generateRoutes (services : list ServiceRoute) : list RouteConfiguration :=
  let sortedServices := services in
  let routes :=
    fold_left
      (λ routes svc,
         routes ++ [MkRoute (PathPrefix svc)
                      (if negb (bool_decide (HostHeader svc = ""))
                       then [MkHeaderMatcher ":authority" (HostHeader svc)] else [])
                      (clusterName svc)])
      sortedServices [] in
  [MkRouteConfiguration "main_route" [MkVirtualHost "backend" ["*"] routes]].

(** [generateEndpoints] creates Envoy endpoint configurations. *)
Definition generateEndpoints (services : list ServiceRoute)
  : list ClusterLoadAssignment :=
  fold_left
    (λ endpoints svc,
       endpoints ++ [MkClusterLoadAssignment (clusterName svc)
                       [[MkLbEndpoint (ClusterIP svc) (uint32 (Port svc))]]])
    services [].

(** The routes of all virtual hosts of the route configurations. *)
Definition allRoutes (rcs : list RouteConfiguration) : list Route :=
  flat_map (λ rc, flat_map vhRoutes (rcVirtualHosts rc)) rcs.

End envoy.

(** ** Vocabulary of the operator's properties *)

Module operator_props.
Import v1alpha1 envoyapi.

(** The route that the extension server adds for one ingress service. *)
Definition ingressRoute (config : IngressConfig.t) (svc : IngressService.t) : Route :=
  MkRoute (if bool_decide (IngressService.Path svc = "") then "/"
           else IngressService.Path svc)
    [MkHeaderMatcher ":authority" (IngressConfig.Hostname config)]
    ("service-" +:+ IngressService.Name svc +:+ "-" +:+ pretty (IngressService.Port svc)).

(** The routes of the ingress services of one proxy: none for a proxy of
    another type or without an ingress configuration. *)
Definition ingressRoutes (proxy : TailscaleProxy.t) : list Route :=
  if bool_decide (TailscaleProxySpec.Type_ (TailscaleProxy.Spec proxy) = ProxyTypeIngress)
  then match TailscaleProxySpec.IngressConfig (TailscaleProxy.Spec proxy) with
       | Some config => map (ingressRoute config) (IngressConfig.Services config)
       | None => []
       end
  else [].

Definition withRoutes (vh : VirtualHost) (routes : list Route) : VirtualHost :=
  MkVirtualHost (vhName vh) (vhDomains vh) (vhRoutes vh ++ routes).

(** The pods that count as ready, and the device listed for a pod. *)
Definition running (pods : list controllers.Pod) : list controllers.Pod :=
  List.filter (λ pod, bool_decide (controllers.podPhase pod = controllers.PodRunning)) pods.

Definition deviceOf (pod : controllers.Pod) : DeviceInfo.t :=
  DeviceInfo.Mk (controllers.podName pod) "" (controllers.podName pod).

(** *** Test data *)

Definition someGateway : TailscaleGateway.t :=
  TailscaleGateway.Mk "main-gateway" "default" 1
    (TailscaleGatewaySpec.Mk "tailscale-class" (AuthKeyReference.Mk "tailscale-auth-key" "authkey")
       None "tailscale/tailscale:latest" ["tag:k8s"]).

Definition webIngress : TailscaleProxy.t :=
  TailscaleProxy.Mk "web-ingress" "default" 1
    (TailscaleProxySpec.Mk ProxyTypeIngress 0 "main-gateway"
       (Some (IngressConfig.Mk "my-web-app"
                [IngressService.Mk "web-service" "https" 443 8080 "/"] false))
       None ["tag:k8s-ingress"])
    (TailscaleProxyStatus.Mk [] 0 []).

Definition onePendingPod : list controllers.Pod :=
  [controllers.MkPod "web-ingress-0" "Pending"].

Definition apiService : envoy.Service :=
  envoy.MkService "api" "default"
    (<["tailscale.com/proxy-group" := "pg"]>
       (<["tailscale.com/expose" := "true"]>
          (<["tailscale.com/path-prefix" := "/api"]> ∅)))
    "10.0.0.1" [8080].

Definition rootService : envoy.Service :=
  envoy.MkService "web" "default"
    (<["tailscale.com/proxy-group" := "pg"]>
       (<["tailscale.com/expose" := "true"]> ∅))
    "10.0.0.2" [].

Definition sortedExample : list envoy.ServiceRoute :=
  [envoy.MkServiceRoute "api" "default" "10.0.0.1" 8080 "/api" "";
   envoy.MkServiceRoute "web" "default" "10.0.0.2" 80 "/" ""].

End operator_props.

Set Warnings "-clear-no-such-hyp".

(** * The translator *)

Section Translator.
Import netip nmcfg nmcfg_props nmcfg_outcome_props.

(** ** The loops of [WGCfg] *)

(** The loop over a peer's allowed IPs is a filter: the lists kept for the
    log do not bear on the result. *)
Lemma aipAllowed_fold peer flags exitNode l st :
  aipAllowed (fold_left (aipStep peer flags exitNode) l st)
  = aipAllowed st ++ List.filter (keepAllowedIP peer flags exitNode) l.
Proof.
  revert st. induction l as [|a l IH]; intros st; simpl.
  - by rewrite app_nil_r.
  - rewrite IH. unfold aipStep, keepAllowedIP, subnetRoutesAccepted.
    rewrite negb_involutive.
    destruct ((Bits a =? 0) && negb (bool_decide (tailcfg.StableID peer = exitNode)));
      simpl.
    + by destruct (didExitNodeLog st).
    + destruct (cidrIsSubnet peer a && (Z.land flags netmap.AllowSubnetRoutes =? 0));
        simpl; [done|].
      by rewrite <- app_assoc.
Qed.

(** The loop over the peers configures the included peers, in map order. *)
Lemma cfgPeers_fold nm flags exitNode l st :
  cfgPeers (fold_left (peerStep nm flags exitNode) l st)
  = cfgPeers st ++ map (cpeerOf nm flags exitNode) (List.filter included l).
Proof.
  revert st. induction l as [|p l IH]; intros st; simpl.
  - by rewrite app_nil_r.
  - rewrite IH. unfold peerStep, included.
    destruct ((tailcfg.DiscoKey p =? 0) && (tailcfg.HomeDERP p =? 0)
              && negb (tailcfg.IsWireGuardOnly p)); simpl; [done|].
    destruct (tailcfg.Expired p); simpl; [done|].
    rewrite aipAllowed_fold. simpl. by rewrite <- app_assoc.
Qed.

(** The peers of the configuration that [WGCfg] returns. *)
Lemma WGCfg_Peers parse pk nm flags exitNode :
  wgcfg.Peers (WGCfg parse pk nm flags exitNode).1
  = map (cpeerOf nm flags exitNode) (List.filter included (netmap.Peers nm)).
Proof. unfold WGCfg. simpl. by rewrite cfgPeers_fold. Qed.

(** The loop over one member's primary routes: it adds the routes not yet
    seen, marks them seen, and keeps the result free of duplicates. *)
Lemma addRoute_fold routes : ∀ (acc : list Prefix) (seen : gset Prefix),
  (∀ x, x ∈ (fold_left addRoute routes (acc, seen)).1
        ↔ x ∈ acc ∨ (x ∈ routes ∧ (x ∉ seen)))
  ∧ (fold_left addRoute routes (acc, seen)).2 = list_to_set routes ∪ seen
  ∧ (NoDup acc → (∀ x, x ∈ acc → x ∈ seen) →
     NoDup (fold_left addRoute routes (acc, seen)).1
     ∧ ∀ x, x ∈ (fold_left addRoute routes (acc, seen)).1 →
            x ∈ (fold_left addRoute routes (acc, seen)).2).
Proof.
  induction routes as [|a routes IH]; intros acc seen; simpl.
  - split; [|split]; [set_solver|set_solver|auto].
  - destruct (decide (a ∈ seen)) as [Hin|Hin].
    + assert (addRoute (acc, seen) a = (acc, seen)) as ->.
      { unfold addRoute; simpl. by rewrite bool_decide_eq_true_2. }
      destruct (IH acc seen) as (H1 & H2 & H3). split; [|split].
      * intros x. rewrite H1. set_solver.
      * rewrite H2. set_solver.
      * done.
    + assert (addRoute (acc, seen) a = (acc ++ [a], {[a]} ∪ seen)) as ->.
      { unfold addRoute; simpl. by rewrite bool_decide_eq_false_2. }
      destruct (IH (acc ++ [a]) ({[a]} ∪ seen)) as (H1 & H2 & H3). split; [|split].
      * intros x. rewrite H1. rewrite elem_of_app, list_elem_of_singleton.
        destruct (decide (x = a)) as [->|]; set_solver.
      * rewrite H2. set_solver.
      * intros Hnd Hsub. apply H3.
        -- apply NoDup_app. split; [done|]. split; [|apply NoDup_singleton].
           intros x Hx Hx'. apply list_elem_of_singleton in Hx'. subst.
           apply Hin. by apply Hsub.
        -- intros x. rewrite elem_of_app, list_elem_of_singleton. set_solver.
Qed.

(** The two tag loops find a shared tag exactly when there is one. *)
Lemma hasSharedTag_spec (ts us : list string) :
  hasSharedTag ts us = true ↔ ∃ t, t ∈ ts ∧ t ∈ us.
Proof.
  unfold hasSharedTag. rewrite existsb_exists. split.
  - intros (t & Ht & Hex). apply existsb_exists in Hex as (u & Hu & Heq).
    apply bool_decide_eq_true in Heq. subst u. exists t.
    split; by apply list_elem_of_In.
  - intros (t & Ht & Hu). exists t. split; [by apply list_elem_of_In|].
    apply existsb_exists. exists t. split; [by apply list_elem_of_In|].
    by apply bool_decide_eq_true.
Qed.

(** One turn of the loop over all peers: a contributing member has its
    primary routes added, any other peer is passed over. *)
Lemma haStep_cases peer st other :
  (contributes peer other
   ∧ haStep peer st other = fold_left addRoute (tailcfg.PrimaryRoutes other) st)
  ∨ (¬ contributes peer other ∧ haStep peer st other = st).
Proof.
  unfold haStep, contributes.
  destruct (Z.eqb_spec (tailcfg.ID other) (tailcfg.ID peer)) as [He|He].
  { right. split; [|done]. intros [? _]. done. }
  destruct (tailcfg.PrimaryRoutes other) as [|r rs] eqn:Hr.
  { right. simpl. split; [|done]. intros (_ & ? & _). done. }
  assert ((Z.of_nat (length (r :: rs)) =? 0) = false) as ->.
  { apply Z.eqb_neq. simpl length. lia. }
  destruct (hasSharedTag (tailcfg.Tags peer) (tailcfg.Tags other)) eqn:Ht; simpl.
  - left. split; [|done]. split; [done|]. split; [done|]. by apply hasSharedTag_spec.
  - right. split; [|done]. intros (_ & _ & Hs). apply hasSharedTag_spec in Hs. congruence.
Qed.

(** The loop over all peers, by induction on the peers still to visit, with
    the invariant that the result is free of duplicates and within [seen]. *)
Lemma haStep_fold peer peers : ∀ (acc : list Prefix) (seen : gset Prefix),
  NoDup acc → (∀ x, x ∈ acc → x ∈ seen) →
  (∀ x, x ∈ (fold_left (haStep peer) peers (acc, seen)).1
        ↔ x ∈ acc
          ∨ ((x ∉ seen) ∧ ∃ other, other ∈ peers ∧ contributes peer other
                                   ∧ x ∈ tailcfg.PrimaryRoutes other))
  ∧ NoDup (fold_left (haStep peer) peers (acc, seen)).1.
Proof.
  induction peers as [|o peers IH]; intros acc seen Hnd Hsub; simpl.
  - split; [|done]. intros x. split; [auto|]. intros [?|(_ & o & Ho & _)]; [done|].
    by apply elem_of_nil in Ho.
  - destruct (haStep_cases peer (acc, seen) o) as [[Hc ->]|[Hc ->]].
    + destruct (addRoute_fold (tailcfg.PrimaryRoutes o) acc seen) as (H1 & H2 & H3).
      destruct (H3 Hnd Hsub) as [Hnd' Hsub'].
      destruct (fold_left addRoute (tailcfg.PrimaryRoutes o) (acc, seen))
        as [acc' seen'] eqn:E.
      simpl in *. destruct (IH acc' seen' Hnd' Hsub') as [IH1 IH2]. split; [|done].
      intros x. rewrite IH1, H1, H2. split.
      * intros [[?|[? ?]]|(Hns & o' & Ho' & Hc' & Hx)].
        -- by left.
        -- right. split; [done|]. exists o. split; [left|done].
        -- right. split; [set_solver|]. exists o'. split; [by right|done].
      * intros [?|(Hns & o' & Ho' & Hc' & Hx)]; [by left; left|].
        apply elem_of_cons in Ho' as [->|Ho'].
        -- left. right. done.
        -- destruct (decide (x ∈ tailcfg.PrimaryRoutes o)) as [Hin|Hin].
           ++ left. by right.
           ++ right. split; [set_solver|]. by exists o'.
    + destruct (IH acc seen Hnd Hsub) as [IH1 IH2]. split; [|done].
      intros x. rewrite IH1. split.
      * intros [?|(Hns & o' & Ho' & Hc' & Hx)]; [by left|].
        right. split; [done|]. exists o'. split; [by right|done].
      * intros [?|(Hns & o' & Ho' & Hc' & Hx)]; [by left|].
        apply elem_of_cons in Ho' as [->|Ho']; [done|].
        right. split; [done|]. by exists o'.
Qed.

(** The result of the HA expansion: its members are the primary routes of
    the contributing peers that the peer's allowed-IP list does not hold,
    each once. *)
Lemma haSubnetRouterAllowedIPs_spec selfNode peer allPeers :
  NoDup (haSubnetRouterAllowedIPs selfNode peer allPeers)
  ∧ ∀ x, x ∈ haSubnetRouterAllowedIPs selfNode peer allPeers
         ↔ selfIsSubnetRouter selfNode ∧ tailcfg.Tags peer ≠ []
           ∧ (x ∉ tailcfg.AllowedIPs peer)
           ∧ ∃ other, other ∈ allPeers ∧ contributes peer other
                      ∧ x ∈ tailcfg.PrimaryRoutes other.
Proof.
  unfold haSubnetRouterAllowedIPs, selfIsSubnetRouter.
  destruct selfNode as [self|].
  2:{ split; [constructor|]. intros x. split; [by intros ?%elem_of_nil|].
      intros ((? & ? & ? & _) & _). done. }
  destruct (existsb (cidrIsSubnet self) (tailcfg.AllowedIPs self)) eqn:Hsub; simpl.
  2:{ split; [constructor|]. intros x. split; [by intros ?%elem_of_nil|].
      intros ((s & a & [= <-] & Ha & Hc) & _).
      assert (existsb (cidrIsSubnet self) (tailcfg.AllowedIPs self) = true);
        [|congruence].
      apply existsb_exists. exists a. split; [by apply list_elem_of_In|done]. }
  destruct (tailcfg.Tags peer) as [|t ts] eqn:Htags.
  { simpl. split; [constructor|]. intros x. split; [by intros ?%elem_of_nil|].
    intros (_ & ? & _). done. }
  assert ((Z.of_nat (length (t :: ts)) =? 0) = false) as ->.
  { apply Z.eqb_neq. simpl length. lia. }
  rewrite <- Htags.
  destruct (haStep_fold peer allPeers [] (list_to_set (tailcfg.AllowedIPs peer)))
    as [Hmem Hnd]; [constructor|by intros ? ?%elem_of_nil|].
  split; [done|]. intros x. rewrite Hmem, elem_of_list_to_set. split.
  - intros [?%elem_of_nil|(Hns & Hex)]; [done|].
    split; [|split; [by rewrite Htags|done]].
    apply existsb_exists in Hsub as (a & Ha & Hc).
    exists self, a. split; [done|]. split; [by apply list_elem_of_In|done].
  - intros (_ & _ & Hns & Hex). by right.
Qed.

(** The test applied to an entry, spelled out: [cidrIsSubnet] is unfolded
    into the entry's length, its being a single address, and the peer's own
    addresses. *)
Lemma keepAllowedIP_kept peer flags exitNode a :
  keepAllowedIP peer flags exitNode a = true ↔ kept peer flags exitNode a.
Proof.
  unfold keepAllowedIP, kept, cidrIsSubnet.
  destruct (Bits a =? 0); simpl.
  - rewrite andb_true_r, negb_involutive. apply bool_decide_eq_true.
  - destruct (IsSingleIP a); simpl.
    + destruct (existsb _ (tailcfg.Addresses peer)) eqn:Hex; simpl.
      * split; [|done]. intros _. left. split; [done|].
        apply existsb_exists in Hex as (x & Hx & Heq).
        apply bool_decide_eq_true in Heq. subst x. by apply list_elem_of_In.
      * rewrite negb_involutive. split; [by right|]. intros [[_ Hin]|?]; [|done].
        assert (existsb (λ selfCIDR, bool_decide (a = selfCIDR))
                  (tailcfg.Addresses peer) = true); [|congruence].
        apply existsb_exists. exists a. split; [by apply list_elem_of_In|].
        by apply bool_decide_eq_true.
    + rewrite negb_involutive. split; [by right|]. by intros [[? _]|?].
Qed.

(** The allowed IPs of a configured peer, entry by entry: an entry of the
    peer's list is there exactly when the filter keeps it. *)
Lemma cpeerOf_allowed nm flags exitNode peer a :
  a ∈ tailcfg.AllowedIPs peer →
  a ∈ wgcfg.AllowedIPs (cpeerOf nm flags exitNode peer) ↔ kept peer flags exitNode a.
Proof.
  intros Ha. unfold cpeerOf. simpl. rewrite elem_of_app, <- keepAllowedIP_kept.
  rewrite list_elem_of_In, filter_In, <- list_elem_of_In. split.
  - intros [[_ ?]|Hha]; [done|]. destruct (subnetRoutesAccepted flags).
    + apply haSubnetRouterAllowedIPs_spec in Hha as (_ & _ & Hn & _). done.
    + by apply elem_of_nil in Hha.
  - intros ?. by left.
Qed.

(** A relation between a list and its image, element by element. *)
Lemma Forall2_map_r {A B} (P : A → B → Prop) (f : A → B) (l : list A) :
  (∀ x, x ∈ l → P x (f x)) → Forall2 P l (map f l).
Proof.
  induction l as [|x l IH]; intros H; simpl; constructor.
  - apply H. by left.
  - apply IH. intros y Hy. apply H. by right.
Qed.

(** ** The claims on the translator *)

(** C7, as the code has it: for every included peer and every entry of its
    allowed-IP list, a default route is kept only for the selected exit
    node; any other entry is kept when it is one of the peer's own single
    addresses or when subnet routes are accepted, and dropped otherwise. *)
Theorem allowed_ips_filtered_by_code_rule
  (parse : string → option Z) (pk : Z) (nm : netmap.NetworkMap) (flags : Z)
  (exitNode : string) :
  allowedIPsFiltered kept (WGCfg parse pk nm flags exitNode).1 nm flags exitNode.
Proof.
  unfold allowedIPsFiltered. rewrite WGCfg_Peers.
  apply Forall2_map_r. intros peer _ a Ha. by apply cpeerOf_allowed.
Qed.

(** The HA expansion in the result of a call that returns: the allowed IPs
    of every configured peer are the filtered list followed by the routes
    of the expansion, under the preconditions of the code. *)
Lemma configured_peers_ha_expansion
  (parse : string → option Z) (pk : Z) (nm : netmap.NetworkMap) (flags : Z)
  (exitNode : string) :
  haExpansion haEnabled (WGCfg parse pk nm flags exitNode).1 nm flags exitNode.
Proof.
  unfold haExpansion.
  rewrite WGCfg_Peers. apply Forall2_map_r. intros peer _.
  unfold cpeerOf. simpl. eexists. split; [reflexivity|].
  assert (∀ x, x ∈ (if subnetRoutesAccepted flags
                     then haSubnetRouterAllowedIPs (netmap.SelfNode nm) peer (netmap.Peers nm)
                     else [])
               ↔ haEnabled nm flags peer
                 ∧ (x ∉ tailcfg.AllowedIPs peer)
                 ∧ ∃ other, other ∈ netmap.Peers nm ∧ contributes peer other
                            ∧ x ∈ tailcfg.PrimaryRoutes other) as Hmem.
  { intros x. unfold haEnabled. destruct (subnetRoutesAccepted flags).
    - destruct (haSubnetRouterAllowedIPs_spec (netmap.SelfNode nm) peer (netmap.Peers nm))
        as [_ Hm]. rewrite Hm. naive_solver.
    - split; [by intros ?%elem_of_nil|]. by intros ((? & _) & _). }
  split; [|split; [done|]].
  - destruct (subnetRoutesAccepted flags); [|constructor].
    apply haSubnetRouterAllowedIPs_spec.
  - intros Hno.
    destruct (if subnetRoutesAccepted flags then _ else _) as [|x l] eqn:E; [done|].
    exfalso. apply Hno. apply (Hmem x). by left.
Qed.

(** C10: the network-logging parameters are set all together or not at
    all: they are set, to the two parsed identifiers and the exit-flow
    attribute, when the self node carries the audit-log capability, both
    identifiers are non-empty and both parse; they are non-zero only in that
    case; and when either parse fails they stay entirely zero. *)
Theorem network_logging_all_or_nothing
  (parse : string → option Z) (pk : Z) (nm : netmap.NetworkMap) (flags : Z)
  (exitNode : string) :
  let nl := wgcfg.NetworkLogging (WGCfg parse pk nm flags exitNode).1 in
  (∀ self nodeID domainID, loggingEnabled parse nm self nodeID domainID →
     nl = wgcfg.MkNetworkLogging nodeID domainID
            (tailcfg.HasCap self tailcfg.NodeAttrLogExitFlows))
  ∧ (nl ≠ wgcfg.zeroNetworkLogging →
     ∃ self nodeID domainID, loggingEnabled parse nm self nodeID domainID)
  ∧ (∀ self, netmap.SelfNode nm = Some self →
       parse (tailcfg.DataPlaneAuditLogID self) = None
       ∨ parse (netmap.DomainAuditLogID nm) = None →
       nl = wgcfg.zeroNetworkLogging).
Proof.
  unfold WGCfg, networkLogging, loggingEnabled. simpl. split; [|split].
  - intros self nodeID domainID (-> & -> & Hn & Hd & -> & ->).
    by rewrite !bool_decide_eq_false_2.
  - destruct (netmap.SelfNode nm) as [self|]; [|done].
    destruct (tailcfg.HasCap self tailcfg.CapabilityDataPlaneAuditLogs) eqn:Hcap;
      [|done].
    simpl. case_bool_decide as Hn; [done|]. case_bool_decide as Hd; [done|]. simpl.
    destruct (parse (tailcfg.DataPlaneAuditLogID self)) as [nodeID|] eqn:E1; [|done].
    destruct (parse (netmap.DomainAuditLogID nm)) as [domainID|] eqn:E2; [|done].
    intros _. by exists self, nodeID, domainID.
  - intros self -> Hfail. destruct (_ && _ && _); [|done].
    destruct Hfail as [-> | ->]; [done|]. by destruct (parse _).
Qed.

End Translator.

(** ** The translator's tests and instances of the claims *)

Section TranslatorInstances.
Import netip nmcfg nmcfg_props.

(** The table of the [cidrIsSubnet] test. *)
Example cidrIsSubnet_test :
  List.map (cidrIsSubnet cidrNode)
    [PrefixFrom (ipv4 0 0 0 0) 0; PrefixFrom (Addr6 0) 0; siteASR1Addr;
     siteASubnet; PrefixFrom (ipv4 192 168 1 0) 24; siteASR2Addr]
  = [false; false; false; true; true; true].
Proof. reflexivity. Qed.

(** The six cases of the HA expansion test. *)
Example haSubnetRouterAllowedIPs_test :
  [haSubnetRouterAllowedIPs (Some siteBSR2) siteASR1AsSeenBySiteBSR2 allPeers;
   haSubnetRouterAllowedIPs (Some siteBSR2) siteASR2AsSeenBySiteBSR2 allPeers;
   haSubnetRouterAllowedIPs (Some nonSubnetRouterSelf) siteASR1 [siteASR1; siteASR2];
   haSubnetRouterAllowedIPs (Some siteBSR2) noTagsPeer allPeers;
   haSubnetRouterAllowedIPs (Some siteBSR2) otherSR allPeers;
   haSubnetRouterAllowedIPs (Some siteBSR2V6) siteASR1V6 allPeersV6]
  = [[siteASubnet]; []; []; []; []; [siteASubnetV6]].
Proof. vm_compute. reflexivity. Qed.

(** The peers of the two maps of the instances are all included. *)
Lemma hostRouteMap_included :
  List.filter included (netmap.Peers hostRouteMap) = [hostRoutePeer].
Proof. reflexivity. Qed.

(** C7 as written fails: without the flag, a peer's entry for the single
    address of another node is dropped, although it is neither a default
    route nor a subnet route in the specification's sense. *)
Lemma allowed_ips_rule_as_written_counterexample :
  ¬ allowedIPsFiltered keptAsWritten (WGCfg parseOk 0 hostRouteMap 0 "").1
      hostRouteMap 0 "".
Proof.
  unfold allowedIPsFiltered. rewrite WGCfg_Peers, hostRouteMap_included.
  intros H. apply Forall2_cons_1 in H as [H _].
  destruct (H siteASR2Addr) as [_ Hin].
  { apply list_elem_of_In. right. by left. }
  assert (siteASR2Addr ∈ wgcfg.AllowedIPs (cpeerOf hostRouteMap 0 "" hostRoutePeer))
    as Hbad.
  { apply Hin. exact I. }
  apply list_elem_of_In in Hbad. vm_compute in Hbad.
  destruct Hbad as [Hbad|[]]. discriminate Hbad.
Qed.

Lemma allowed_ips_filtered_by_code_rule_witness :
  siteASR1Addr ∈ wgcfg.AllowedIPs (cpeerOf hostRouteMap 0 "" hostRoutePeer)
  ∧ siteASR2Addr ∉ wgcfg.AllowedIPs (cpeerOf hostRouteMap 0 "" hostRoutePeer).
Proof.
  pose proof (allowed_ips_filtered_by_code_rule parseOk 0 hostRouteMap 0 "") as H.
  unfold allowedIPsFiltered in H. rewrite WGCfg_Peers, hostRouteMap_included in H.
  apply Forall2_cons_1 in H as [H _]. split.
  - apply H; [apply list_elem_of_In; by left|].
    left. split; [reflexivity|]. apply list_elem_of_In. by left.
  - intros Hin. apply H in Hin; [|apply list_elem_of_In; right; by left].
    destruct Hin as [[_ Hown]|Hflag]; [|discriminate Hflag].
    apply list_elem_of_In in Hown. destruct Hown as [Hown|[]]. discriminate Hown.
Defined.

Lemma siteBSR2Map_included :
  List.filter included (netmap.Peers siteBSR2Map) = List.map reachable allPeers.
Proof. reflexivity. Qed.

Lemma network_logging_all_or_nothing_witness :
  wgcfg.NetworkLogging (WGCfg parseOk 0 (auditMap "ok" "ok") 0 "").1
  = wgcfg.MkNetworkLogging 42 42 false
  ∧ wgcfg.NetworkLogging (WGCfg parseOk 0 (auditMap "ok" "bad") 0 "").1
    = wgcfg.zeroNetworkLogging.
Proof.
  split.
  - destruct (network_logging_all_or_nothing parseOk 0 (auditMap "ok" "ok") 0 "")
      as (Hset & _ & _).
    apply (Hset (auditSelf "ok") 42 42).
    repeat split; try reflexivity; discriminate.
  - destruct (network_logging_all_or_nothing parseOk 0 (auditMap "ok" "bad") 0 "")
      as (_ & _ & Hzero).
    apply (Hzero (auditSelf "ok")); [reflexivity|]. right. reflexivity.
Defined.

End TranslatorInstances.

(** * The orchestrator *)

Section Orchestrator.
Import ipn ipnlocal ipnlocal_props.

(** ** Steps that leave an observation of the backend alone *)

(** The elementary steps are compositions of field updates; that such a
    step preserves an observation is found by unfolding it.  The composite
    steps get instances that follow their pipelines. *)
Ltac unfold_steps :=
  unfold setNetMapLocked, resetControlClient, newControlClient, sendPrefs,
    writePrefs, ccLogin, tick;
  unfold pauseOrResumeControlClient, resetAuthURL, blockEngineUpdates, send;
  unfold withCC, hasCC, haveNetMap, selfAuthorized, hasRelayLink.

Ltac proj_simpl :=
  cbn [prefs cc discarded netMap state blocked keyExpired engineStatus authURL
       authURLTime interact now notifies stateWrites nkeys lastStatusTime
       set_prefs set_cc set_discarded set_netMap set_state set_blocked
       set_keyExpired set_engineStatus set_authURL set_authURLTime set_interact
       set_now set_notifies set_stateWrites set_nkeys set_lastStatusTime].

Ltac solve_preserves :=
  intros []; unfold_steps; proj_simpl;
  repeat (match goal with
          | |- context [match ?x with _ => _ end] => is_var x; destruct x
          end; proj_simpl);
  reflexivity.

#[local] Hint Extern 10 (Preserves _ _) => solve [solve_preserves] : typeclass_instances.

#[local] Instance when_preserves {A} (π : LocalBackend → A) c f :
  Preserves π f → Preserves π (when c f).
Proof. intros H b. unfold when. destruct c; [apply H|done]. Qed.

#[local] Instance noteKeyExpiry_preserves {A} (π : LocalBackend → A) nm :
  (∀ v, Preserves π (set_keyExpired v)) → Preserves π (noteKeyExpiry nm).
Proof. intros H b. destruct nm; [apply H|done]. Qed.

#[local] Instance storeNetMap_preserves {A} (π : LocalBackend → A) nm :
  (∀ m, Preserves π (setNetMapLocked m)) → Preserves π (storeNetMap nm).
Proof. intros H b. destruct nm; [apply H|done]. Qed.

#[local] Instance enterState_preserves {A} (π : LocalBackend → A) s :
  Preserves π (set_state s) → Preserves π resetAuthURL →
  Preserves π pauseOrResumeControlClient → Preserves π (blockEngineUpdates true) →
  Preserves π (send (NotifyState s)) → Preserves π (enterState s).
Proof. intros ????? b. unfold enterState. by rewrite !(preserved (π:=π)). Qed.

#[local] Instance stateMachine_preserves {A} (π : LocalBackend → A) :
  (∀ s, Preserves π (enterState s)) → Preserves π stateMachine.
Proof. intros H b. unfold stateMachine. by rewrite (preserved (π:=π)). Qed.

#[local] Instance setAuthURL_preserves {A} (π : LocalBackend → A) url :
  Preserves π (set_authURL url) → (∀ t, Preserves π (set_authURLTime t)) →
  Preserves π (set_interact false) → Preserves π (blockEngineUpdates true) →
  Preserves π (send (NotifyBrowseToURL url)) → Preserves π (enterState Starting) →
  Preserves π (setAuthURL url).
Proof. intros ?????? b. unfold setAuthURL. by rewrite !(preserved (π:=π)). Qed.

#[local] Instance nextState_preserves f :
  Preserves hasCC f → Preserves netMap f → Preserves prefs f →
  Preserves keyExpired f → Preserves engineStatus f → Preserves state f →
  Preserves nextState f.
Proof.
  intros ?????? b.
  unfold nextState, haveNetMap, selfAuthorized, hasRelayLink.
  by rewrite (preserved (π:=hasCC)), (preserved (π:=netMap)), !(preserved (π:=prefs)),
    (preserved (π:=keyExpired)), (preserved (π:=engineStatus)), (preserved (π:=state)).
Qed.

#[local] Instance runnable_preserves f :
  Preserves hasCC f → Preserves netMap f → Preserves prefs f →
  Preserves keyExpired f → Preserves runnable f.
Proof.
  intros ???? b. unfold runnable.
  by rewrite (preserved (π:=hasCC)), (preserved (π:=netMap)),
    (preserved (π:=keyExpired)), !(preserved (π:=prefs)).
Qed.

(** ** What entering a state does *)

(** The state, the engine-blocked flag and the notifications after
    [enterState]. *)
Lemma enterState_state s b : state (enterState s b) = s.
Proof. unfold enterState. by rewrite !(preserved (π:=state)). Qed.

Lemma stateMachine_state b : state (stateMachine b) = nextState b.
Proof. apply enterState_state. Qed.

Lemma when_blockEngineUpdates c v b :
  blocked (when c (blockEngineUpdates v) b) = if c then v else blocked b.
Proof. by destruct c. Qed.

Lemma enterState_blocked s b :
  blocked (enterState s b)
  = if negb (bool_decide (state b = s)) && bool_decide (s = NeedsLogin) then true
    else blocked b.
Proof.
  unfold enterState. rewrite (preserved (π:=blocked)), when_blockEngineUpdates.
  by rewrite !(preserved (π:=blocked)).
Qed.

Lemma when_send c n b :
  notifies (when c (send n) b) = notifies b ++ (if c then [n] else []).
Proof. destruct c; simpl; [done|]. by rewrite app_nil_r. Qed.

Lemma enterState_notifies s b :
  notifies (enterState s b)
  = notifies b ++ (if bool_decide (state b = s) then [] else [NotifyState s]).
Proof.
  unfold enterState. rewrite when_send, !(preserved (π:=notifies)).
  by case_bool_decide.
Qed.

Lemma sendPrefs_notifies b :
  notifies (sendPrefs b) = notifies b ++ [NotifyPrefs (stripKeysFromPrefs (prefs b))].
Proof. done. Qed.

(** The state that the table yields for a runnable backend. *)
Lemma nextState_runnable b :
  runnable b →
  nextState b = match state b with
                | Running => Running
                | Starting => if hasRelayLink b then Running else Starting
                | _ => Starting
                end.
Proof.
  intros (Hcc & (nm & Hnm & Hauth) & Hexp & Hout & Hwant).
  unfold nextState, transition, haveNetMap, selfAuthorized.
  by rewrite Hcc, Hnm, Hauth, Hexp, Hout, Hwant.
Qed.

(** ** start() *)

(** A start on a logged-out profile, whatever else the backend holds. *)
Lemma Start_logged_out b :
  LoggedOut (prefs b) = true →
  notifies (Start b)
  = notifies b ++ [NotifyPrefs (stripKeysFromPrefs (prefs b)); NotifyState NeedsLogin]
  ∧ prefs (Start b) = prefs b
  ∧ state (Start b) = NeedsLogin.
Proof.
  intros Hout. unfold Start. rewrite Hout. simpl negb. simpl andb.
  set (b0 := when false _ _).
  assert (nextState b0 = NeedsLogin) as Hnext.
  { unfold nextState, transition, b0.
    rewrite !(preserved (π:=prefs)), Hout.
    rewrite 2!(preserved (π:=hasCC)). simpl. by rewrite orb_true_r. }
  split; [|split].
  - unfold stateMachine. rewrite enterState_notifies, Hnext.
    unfold b0, when.
    rewrite sendPrefs_notifies, !(preserved (π:=notifies)), !(preserved (π:=prefs)).
    rewrite 2!(preserved (π:=state)). simpl. by rewrite <- app_assoc.
  - unfold b0. by rewrite !(preserved (π:=prefs)).
  - by rewrite stateMachine_state.
Qed.

(** C1: on a fresh, logged-out profile, start() emits exactly two
    notifications: the preferences, with LoggedOut true and WantRunning
    false, then the state NeedsLogin; a second start() while still logged
    out emits the same two notifications in the same order. *)
Theorem start_emits_prefs_then_NeedsLogin (b : LocalBackend) :
  LoggedOut (prefs b) = true →
  WantRunning (prefs b) = false →
  ∃ p, LoggedOut p = true ∧ WantRunning p = false
       ∧ notifies (Start b) = notifies b ++ [NotifyPrefs p; NotifyState NeedsLogin]
       ∧ notifies (Start (Start b))
         = notifies (Start b) ++ [NotifyPrefs p; NotifyState NeedsLogin].
Proof.
  intros Hout Hwant.
  destruct (Start_logged_out b Hout) as (Hn1 & Hp1 & _).
  destruct (Start_logged_out (Start b)) as (Hn2 & _ & _); [by rewrite Hp1|].
  exists (stripKeysFromPrefs (prefs b)). rewrite Hp1 in Hn2. done.
Qed.

Lemma start_emits_prefs_then_NeedsLogin_witness :
  ∃ p, LoggedOut p = true ∧ WantRunning p = false
       ∧ notifies (Start NewLocalBackend) = [NotifyPrefs p; NotifyState NeedsLogin]
       ∧ notifies (Start (Start NewLocalBackend))
         = [NotifyPrefs p; NotifyState NeedsLogin; NotifyPrefs p; NotifyState NeedsLogin].
Proof.
  destruct (start_emits_prefs_then_NeedsLogin NewLocalBackend) as (p & H1 & H2 & H3 & H4);
    [reflexivity | reflexivity |].
  exists p. rewrite H4, H3. done.
Defined.

(** ** logout *)

Lemma Logout_logged_out b : hasNodeKey b = false → Logout b = (b, None).
Proof. intros Hk. unfold Logout. by rewrite Hk. Qed.

(** A logout in full ends with a start on the fresh, logged-out profile. *)
Lemma Logout_full b :
  hasNodeKey b = true → hasCC b = true →
  ∃ b0, (Logout b).1 = Start (set_prefs emptyPrefs b0) ∧ (Logout b).2 = None.
Proof. intros Hk Hc. unfold Logout. rewrite Hk, Hc. simpl. by eexists. Qed.


(** ** The status handler and key expiry *)

(** A URL leaves the state alone, or takes Running back to Starting. *)
Lemma setAuthURL_state url b :
  state (setAuthURL url b) = state b
  ∨ (state b = Running ∧ state (setAuthURL url b) = Starting).
Proof.
  unfold setAuthURL.
  destruct ((negb (bool_decide (authURL b = url)) || interact b)
            && bool_decide (state b = Running)) eqn:E; unfold when at 1.
  - right. apply andb_true_iff in E as [_ E]. apply bool_decide_eq_true in E.
    split; [done|]. apply enterState_state.
  - left. by rewrite !(preserved (π:=state)).
Qed.

Section StatusWithMap.
Variables (st : controlclient.Status) (nm : netmap.NetworkMap).
Hypothesis Hst : carriesMap st nm.

(** The backend just before the state is recomputed, observation by
    observation. *)
Lemma status_unfold b :
  ∃ b0, SetControlClientStatus st b = stateMachine b0
        ∧ hasCC b0 = hasCC b
        ∧ netMap b0 = Some nm
        ∧ keyExpired b0 = isExpired nm (now b)
        ∧ engineStatus b0 = engineStatus b
        ∧ now b0 = now b
        ∧ prefs b0 = prefsAfterStatus st (negb (bool_decide (authURL b = ""))) (prefs b)
        ∧ (state b0 = state b ∨ (state b = Running ∧ state b0 = Starting))
        ∧ (controlclient.URL st = "" →
           state b0 = state b
           ∧ blocked b0
             = if blocked b && ((keyExpired b && negb (isExpired nm (now b)))
                                || controlclient.LoginFinished st)
               then false else blocked b).
Proof.
  destruct Hst as [He Hn]. unfold SetControlClientStatus. rewrite He, Hn.
  eexists. split; [reflexivity|].
  split; [by rewrite !(preserved (π:=hasCC))|].
  split.
  { rewrite !(preserved (π:=netMap)). unfold storeNetMap, setNetMapLocked.
    by rewrite (preserved (π:=netMap)). }
  split; [by rewrite !(preserved (π:=keyExpired))|].
  split; [by rewrite !(preserved (π:=engineStatus))|].
  split; [by rewrite !(preserved (π:=now))|].
  split.
  { rewrite !(preserved (π:=prefs)). unfold when at 1.
    case_bool_decide as Heq; simpl; [|done].
    by rewrite !(preserved (π:=prefs)). }
  split.
  - unfold when at 1. destruct (negb (bool_decide (controlclient.URL st = ""))).
    + match goal with
      | |- context [setAuthURL ?u ?x] =>
          destruct (setAuthURL_state u x) as [Hs|[Hr Hs]]; rewrite Hs;
          [left|right; split; [rewrite <- Hr|done]]
      end; by rewrite !(preserved (π:=state)).
    + left. by rewrite !(preserved (π:=state)).
  - intros Hurl. rewrite Hurl, bool_decide_eq_true_2 by done.
    unfold when at 1. simpl negb. cbv iota.
    split; [by rewrite !(preserved (π:=state))|].
    rewrite !(preserved (π:=blocked)), !when_blockEngineUpdates.
    simpl.
    by destruct (blocked b), (keyExpired b), (isExpired nm (now b)),
      (controlclient.LoginFinished st), (bool_decide (authURL b = "")).
Qed.

End StatusWithMap.

(** A status event does not stop wanting to run, and does not log out. *)
Lemma prefsAfterStatus_wantRunning st auth p :
  WantRunning p = true → WantRunning (prefsAfterStatus st auth p) = true.
Proof.
  intros Hw. unfold prefsAfterStatus.
  destruct (controlclient.LoginFinished st); simpl; by rewrite ?Hw.
Qed.

Lemma prefsAfterStatus_loggedIn st auth p :
  LoggedOut p = false → LoggedOut (prefsAfterStatus st auth p) = false.
Proof.
  intros Ho. unfold prefsAfterStatus.
  destruct (controlclient.LoginFinished st); simpl; by rewrite ?Ho.
Qed.

(** An expiry in the past, an expiry in the future. *)
Lemma isExpired_past nm e t :
  netmap.Expiry nm = Some e → e < t → isExpired nm t = true.
Proof. intros He Hlt. unfold isExpired. rewrite He. by apply Z.ltb_lt. Qed.

Lemma isExpired_future nm e t :
  netmap.Expiry nm = Some e → t < e → isExpired nm t = false.
Proof. intros He Hlt. unfold isExpired. rewrite He. apply Z.ltb_ge. lia. Qed.


(** ** The engine-status handler *)

(** A status that is older than the last one taken in is dropped. *)
Lemma engine_stale b s :
  AsOf s < lastStatusTime b → setWgengineStatus s None b = b.
Proof.
  intros Hlt. unfold setWgengineStatus.
  by rewrite (proj2 (Z.ltb_lt _ _) Hlt).
Qed.

(** One status report that is taken in, on a runnable backend: the relay
    link turns Starting into Running, Running stays, and the state is
    notified when it changed. *)
Lemma engine_step b s :
  runnable b → lastStatusTime b ≤ AsOf s →
  let b' := setWgengineStatus s None b in
  runnable b'
  ∧ lastStatusTime b' = AsOf s
  ∧ state b' = match state b with
               | Running => Running
               | Starting => if 0 <? DERPs s then Running else Starting
               | _ => Starting
               end
  ∧ notifies b'
    = notifies b ++ (if bool_decide (state b = state b') then []
                     else [NotifyState (state b')]).
Proof.
  intros Hr Hle b'. subst b'. unfold setWgengineStatus.
  rewrite (proj2 (Z.ltb_ge _ _) Hle).
  destruct Hr as (Hcc & Hrest). rewrite Hcc. unfold when.
  set (b0 := set_engineStatus (DERPs s) (set_lastStatusTime (AsOf s) b)).
  assert (runnable b0) as Hr'.
  { unfold b0. rewrite !(preserved (π:=runnable)). by split. }
  assert (state b0 = state b) as Hs0 by (by destruct b).
  assert (notifies b0 = notifies b) as Hn0 by (by destruct b).
  assert (hasRelayLink b0 = (0 <? DERPs s)) as Hrl by (by destruct b).
  split; [by rewrite (preserved (π:=runnable))|].
  split; [rewrite (preserved (π:=lastStatusTime)); by destruct b|].
  rewrite stateMachine_state, (nextState_runnable _ Hr'), Hs0, Hrl.
  split; [done|].
  unfold stateMachine. rewrite enterState_notifies, (nextState_runnable _ Hr').
  by rewrite Hs0, Hrl, Hn0.
Qed.

(** Once Running, reports change nothing and notify nothing, in whatever
    order they come. *)
Lemma deliver_running ss : ∀ b,
  runnable b → state b = Running →
  state (deliver ss b) = Running ∧ notifies (deliver ss b) = notifies b.
Proof.
  induction ss as [|s ss IH]; intros b Hr Hs; [done|].
  change (deliver (s :: ss) b) with (deliver ss (setWgengineStatus s None b)).
  destruct (Z.lt_ge_cases (AsOf s) (lastStatusTime b)) as [Hstale|Hle].
  - rewrite (engine_stale b s Hstale). by apply IH.
  - destruct (engine_step b s Hr Hle) as (Hr' & _ & Hs' & Hn').
    rewrite Hs in Hs'. rewrite Hs', Hs, bool_decide_eq_true_2, app_nil_r in Hn' by done.
    destruct (IH _ Hr' Hs') as [IH1 IH2]. by rewrite IH1, IH2.
Qed.

(** The part of C4 that holds: from Starting, reports that arrive in the
    order of their as-of times end in Running when one of them counts a
    relay link, with one state notification: the reports before the first
    such one change nothing, that one moves to Running, and the rest is
    absorbed. *)
Lemma deliver_in_order ss : ∀ b,
  runnable b → state b = Starting → inOrder (lastStatusTime b) ss →
  Exists (λ s, 0 < DERPs s) ss →
  state (deliver ss b) = Running
  ∧ notifies (deliver ss b) = notifies b ++ [NotifyState Running].
Proof.
  induction ss as [|s ss IH]; intros b Hr Hs Hord Hex; [by apply Exists_nil in Hex|].
  change (deliver (s :: ss) b) with (deliver ss (setWgengineStatus s None b)).
  destruct Hord as [Hle Hord].
  destruct (engine_step b s Hr Hle) as (Hr' & Ht' & Hs' & Hn').
  rewrite Hs in Hs'.
  destruct (0 <? DERPs s) eqn:Hpos.
  - rewrite Hs', Hs, bool_decide_eq_false_2 in Hn' by done.
    destruct (deliver_running ss _ Hr' Hs') as [H1 H2]. by rewrite H1, H2.
  - rewrite Hs', Hs, bool_decide_eq_true_2, app_nil_r in Hn' by done.
    apply Exists_cons in Hex as [Hhd|Htl].
    { apply Z.ltb_ge in Hpos. lia. }
    rewrite <- Ht' in Hord.
    destruct (IH _ Hr' Hs' Hord Htl) as [H1 H2]. by rewrite H1, H2, Hn'.
Qed.

(** ** edit-preferences *)

(** The stored preferences and the notifications after an edit. *)
Lemma EditPrefs_prefs mp b : prefs (EditPrefs mp b).1 = ApplyEdits (prefs b) mp.
Proof.
  unfold EditPrefs. cbn [fst]. rewrite 3!(preserved (π:=prefs)).
  unfold writePrefs. by rewrite (preserved (π:=prefs)).
Qed.

Lemma EditPrefs_notifies mp b :
  notifies (EditPrefs mp b).1
  = notifies b
    ++ (if bool_decide (state b = state (EditPrefs mp b).1) then []
        else [NotifyState (state (EditPrefs mp b).1)])
    ++ [NotifyPrefs (stripKeysFromPrefs (prefs (EditPrefs mp b).1))].
Proof.
  unfold EditPrefs. cbn [fst]. rewrite sendPrefs_notifies.
  rewrite !(preserved (π:=state) (f:=sendPrefs)).
  rewrite !(preserved (π:=prefs) (f:=sendPrefs)).
  unfold stateMachine at 1. rewrite enterState_notifies.
  rewrite !(preserved (π:=notifies)), !(preserved (π:=state)), stateMachine_state.
  by rewrite <- app_assoc.
Qed.

(** C5, as the code has it: an edit that changes the connection state emits
    the state notification first and the preferences notification after
    it. *)
Theorem edit_notifies_state_then_prefs (mp : ipn.MaskedPrefs) (b : LocalBackend) :
  stateThenPrefs mp b.
Proof.
  unfold stateThenPrefs. intros Hne. rewrite EditPrefs_notifies.
  rewrite bool_decide_eq_false_2 by (intros Heq; by apply Hne). done.
Qed.

(** An edit that leaves the connection state as it was emits the
    preferences notification alone. *)
Lemma edit_without_state_change_notifies_prefs mp b :
  state (EditPrefs mp b).1 = state b →
  notifies (EditPrefs mp b).1
  = notifies b ++ [NotifyPrefs (stripKeysFromPrefs (prefs (EditPrefs mp b).1))].
Proof.
  intros Heq. rewrite EditPrefs_notifies. by rewrite bool_decide_eq_true_2.
Qed.

(** C6: an edit leaves the key material of the stored preferences - the
    private node key, the old private node key and the network-lock key -
    as it was.  The edit has no flag for the identity, so every edit touches
    non-identity fields only. *)
Theorem edit_keeps_key_material (mp : ipn.MaskedPrefs) (b : LocalBackend) :
  let p := Persist (prefs b) in
  let p' := Persist (prefs (EditPrefs mp b).1) in
  persist.PrivateNodeKey p' = persist.PrivateNodeKey p
  ∧ persist.OldPrivateNodeKey p' = persist.OldPrivateNodeKey p
  ∧ persist.NetworkLockKey p' = persist.NetworkLockKey p.
Proof. intros p p'. unfold p, p'. by rewrite EditPrefs_prefs. Qed.

(** The preferences handed back by an edit carry no key material, which is
    what the key-material test looks at. *)
Lemma EditPrefs_returns_no_keys mp b :
  let p := Persist (EditPrefs mp b).2 in
  persist.PrivateNodeKey p = 0 ∧ persist.OldPrivateNodeKey p = 0
  ∧ persist.NetworkLockKey p = 0.
Proof. done. Qed.

(** ** The tests and instances of the claims *)

(** The state machine test, step by step: the notifications, the calls seen
    by the current and by the previous session, the state and the
    engine-blocked flag agree with what the test asserts. *)
Example stateMachineTest_observations :
  script stateMachineTest NewLocalBackend =
  [ (* Start *)
    Observe [SeenPrefs true false ""; SeenState NeedsLogin]
      ["New"] [] NeedsLogin true;
    (* Start2 *)
    Observe [SeenPrefs true false ""; SeenState NeedsLogin]
      ["New"] ["Shutdown"] NeedsLogin true;
    (* Login (noninteractive) *)
    Observe [] ["Login"] [] NeedsLogin true;
    (* Login (url response) *)
    Observe [SeenPrefs true false ""; SeenPrefs true false "";
             SeenBrowseToURL "https://localhost:1/1"]
      [] [] NeedsLogin true;
    (* Login (interactive) *)
    Observe [SeenBrowseToURL "https://localhost:1/1"] [] [] NeedsLogin true;
    (* Login2 (interactive) *)
    Observe [] ["Login"] [] NeedsLogin true;
    (* Login2 (url response) *)
    Observe [SeenBrowseToURL "https://localhost:1/2"] [] [] NeedsLogin true;
    (* LoginFinished *)
    Observe [SeenLoginFinished; SeenPrefs false true "user1";
             SeenState NeedsMachineAuth]
      [] [] NeedsMachineAuth false;
    (* MachineAuthorized *)
    Observe [SeenState Starting] [] [] Starting false;
    (* WantRunning -> false *)
    Observe [SeenState Stopped; SeenPrefs false false "user1"]
      ["pause"] [] Stopped false;
    (* WantRunning -> true *)
    Observe [SeenState Starting; SeenPrefs false true "user1"]
      ["Login"; "unpause"] [] Starting false;
    (* Logout *)
    Observe [SeenState Stopped; SeenPrefs true false "user1"; SeenState NoState;
             SeenPrefs true false ""; SeenState NeedsLogin]
      ["New"] ["pause"; "Logout"; "unpause"; "Shutdown"] NeedsLogin true;
    (* Logout2 *)
    Observe [] [] [] NeedsLogin true;
    (* Logout3 *)
    Observe [] [] [] NeedsLogin true;
    (* Start3 *)
    Observe [SeenPrefs true false ""; SeenState NeedsLogin]
      ["New"] ["Shutdown"] NeedsLogin true;
    (* the control URL is set *)
    Observe [SeenPrefs true false ""] [] [] NeedsLogin true;
    (* StartLoginInteractive3 *)
    Observe [SeenPrefs true false ""; SeenBrowseToURL "https://localhost:1/3"]
      ["Login"] [] NeedsLogin true;
    (* LoginFinished3 *)
    Observe [SeenLoginFinished; SeenPrefs false true "user2"; SeenState Starting]
      [] [] Starting false;
    (* WantRunning -> false *)
    Observe [SeenState Stopped; SeenPrefs false false "user2"]
      ["pause"] [] Stopped false;
    (* Start4 *)
    Observe [SeenPrefs false false "user2"; SeenState Stopped]
      ["New"; "Login"; "pause"] ["Shutdown"] Stopped false;
    (* the network map is reset *)
    Observe [] ["unpause"] [] Stopped false;
    (* Start4 -> netmap *)
    Observe [] ["pause"] [] Stopped false;
    (* WantRunning4 -> true *)
    Observe [SeenState Starting; SeenPrefs false true "user2"]
      ["Login"; "unpause"] [] Starting false;
    (* Stop *)
    Observe [SeenState Stopped; SeenPrefs false false "user2"]
      ["pause"] [] Stopped false;
    (* LoginDifferent *)
    Observe [SeenBrowseToURL "https://localhost:1/4"] ["Login"] [] Stopped true;
    (* LoginDifferent URL visited *)
    Observe [SeenLoginFinished; SeenPrefs false true "user3"; SeenState Starting]
      ["unpause"] [] Starting false;
    (* Start5 *)
    Observe [SeenPrefs false true "user3"; SeenState Starting]
      ["New"; "Login"] ["Shutdown"] Starting false;
    (* LoginFinished5 *)
    Observe [] [] [] Starting false;
    (* ExpireKey *)
    Observe [SeenState NeedsLogin] [] [] NeedsLogin true;
    (* ExtendKey *)
    Observe [SeenState Starting] [] [] Starting false;
    (* a relay connection *)
    Observe [SeenState Running] [] [] Running false ].
Proof. vm_compute. reflexivity. Qed.

(** The key-material test: the edit sets the hostname and hands back
    preferences without keys, while the stored keys stay. *)
Example editPrefsHasNoKeys_test :
  let r := EditPrefs (editHostname "foo") keyedBackend in
  Hostname r.2 = "foo"
  ∧ persist.PrivateNodeKey (Persist r.2) = 0
  ∧ persist.OldPrivateNodeKey (Persist r.2) = 0
  ∧ persist.NetworkLockKey (Persist r.2) = 0
  ∧ Persist (prefs r.1) = Persist keyedPrefs.
Proof. repeat split. Qed.

(** The backend of the instances below is the one that the first steps of
    the test lead to: it is in Starting, on what Starting rests. *)
Lemma startingBackend_runnable : state startingBackend = Starting ∧ runnable startingBackend.
Proof.
  split; [reflexivity|]. split; [reflexivity|]. split.
  - exists (authorizedMap None). by split.
  - by repeat split.
Qed.




(** A login that finishes with a key that has expired already: the backend
    was in NeedsLogin, the finished login unblocks the engine, and the
    expired map does not block it again, as the state does not change. *)
Example expired_map_at_login_leaves_engine_unblocked :
  let awaitingVisit :=
    run [OpStart; OpEditPrefs editControlURL; OpStartLoginInteractive;
         OpSend None "https://localhost:1/1" false None]
      (set_now 1000000 NewLocalBackend) in
  let b1 := mockSend None "" true (Some (authorizedMap (Some 999940))) awaitingVisit in
  state awaitingVisit = NeedsLogin ∧ blocked awaitingVisit = true
  ∧ WantRunning (prefs b1) = true
  ∧ state b1 = NeedsLogin ∧ blocked b1 = false.
Proof. vm_compute. by repeat split. Qed.

(** A map with an expiry in the future that comes with a login URL: the
    state is Starting again, but showing the URL has blocked the engine. *)
Example extended_map_with_URL_blocks_engine :
  let b2 := mockSend None "https://localhost:1/5" false
              (Some (authorizedMap (Some 1000070))) expiredBackend in
  state b2 = Starting ∧ blocked b2 = true.
Proof. vm_compute. by split. Qed.



(** Reports in the order of their times, on the backend of the test. *)
Example relay_link_reports_in_order_test :
  let ss := [MkEngineStatus 0 1000000; MkEngineStatus 1 1000001;
             MkEngineStatus 0 1000002; MkEngineStatus 1 1000002] in
  state (deliver ss startingBackend) = Running
  ∧ notifies (deliver ss startingBackend)
    = notifies startingBackend ++ [NotifyState Running].
Proof.
  intros ss. destruct startingBackend_runnable as [Hs Hr].
  apply deliver_in_order; [done|done| |].
  - simpl. change (lastStatusTime startingBackend) with 0. lia.
  - right. left. simpl. lia.
Qed.

(** C5 as written fails: when WantRunning is switched off in Starting, the
    state notification (Stopped) comes first and the preferences after it,
    as the test asserts. *)
Lemma edit_prefs_then_state_counterexample :
  ¬ prefsThenState (editWantRunning false) startingBackend.
Proof.
  unfold prefsThenState. intros H.
  assert (state (EditPrefs (editWantRunning false) startingBackend).1
          ≠ state startingBackend) as Hne by (vm_compute; discriminate).
  specialize (H Hne). vm_compute in H. discriminate H.
Qed.

Lemma edit_notifies_state_then_prefs_witness :
  let b' := (EditPrefs (editWantRunning false) startingBackend).1 in
  state b' = Stopped
  ∧ notifies b'
    = notifies startingBackend
      ++ [NotifyState Stopped; NotifyPrefs (stripKeysFromPrefs (prefs b'))].
Proof.
  split; [reflexivity|].
  apply (edit_notifies_state_then_prefs (editWantRunning false) startingBackend).
  vm_compute. discriminate.
Defined.

End Orchestrator.

(** * More on the translator *)

Section TranslatorMore.
Import netip nmcfg nmcfg_props nmcfg_log nmcfg_more.

(** ** Helpers on lists and texts *)

Lemma Forall2_map_map {A B C} (P : B → C → Prop) (f : A → B) (g : A → C) (l : list A) :
  (∀ x, x ∈ l → P (f x) (g x)) → Forall2 P (map f l) (map g l).
Proof.
  induction l as [|x l IH]; intros H; simpl; constructor.
  - apply H. by left.
  - apply IH. intros y Hy. apply H. by right.
Qed.

Lemma fold_left_ext_in {A B} (f g : A → B → A) (l : list B) (a : A) :
  (∀ a b, b ∈ l → f a b = g a b) → fold_left f l a = fold_left g l a.
Proof.
  revert a. induction l as [|b l IH]; intros a H; simpl; [done|].
  rewrite (H a b); [|by left]. apply IH. intros a' b' Hb'. apply H. by right.
Qed.

Lemma filter_sublist_mono {A} (f g : A → bool) (l : list A) :
  (∀ a, f a = true → g a = true) →
  List.filter f l `sublist_of` List.filter g l.
Proof.
  intros Hfg. induction l as [|a l IH]; simpl; [constructor|].
  destruct (f a) eqn:Hf.
  - rewrite (Hfg a Hf). by constructor.
  - destruct (g a); [by constructor|done].
Qed.

Lemma filter_filter_ext {A} (f k k' : A → bool) (l : list A) :
  (∀ a, f a = true → k a = k' a) →
  List.filter f (List.filter k l) = List.filter f (List.filter k' l).
Proof.
  intros H. induction l as [|a l IH]; simpl; [done|].
  destruct (f a) eqn:Hf.
  - rewrite <- (H a Hf). destruct (k a); simpl; rewrite ?Hf, IH; done.
  - destruct (k a), (k' a); simpl; rewrite ?Hf; done.
Qed.

Lemma NoDup_List_filter {A} (f : A → bool) (l : list A) :
  NoDup l → NoDup (List.filter f l).
Proof.
  induction 1 as [|x l Hx Hl IH]; simpl; [constructor|].
  destruct (f x); [|done]. constructor; [|done].
  intros Hin. apply Hx. apply list_elem_of_In in Hin. apply filter_In in Hin as [Hin _].
  by apply list_elem_of_In.
Qed.

Lemma existsb_andb_r {A} (f : A → bool) (c : bool) (l : list A) :
  existsb (λ a, f a && c) l = existsb f l && c.
Proof.
  induction l as [|a l IH]; simpl; [done|]. rewrite IH.
  destruct (f a), c, (existsb f l); done.
Qed.

Lemma append_cons (x : Ascii.ascii) (a b : string) :
  String x a +:+ b = String x (a +:+ b).
Proof. reflexivity. Qed.

Lemma append_nil_l (a : string) : "" +:+ a = a.
Proof. reflexivity. Qed.

Lemma append_assoc (a b c : string) : (a +:+ b) +:+ c = a +:+ b +:+ c.
Proof.
  induction a as [|x a IH]; [done|]. rewrite !append_cons. by f_equal.
Qed.

Lemma append_nil_r (a : string) : a +:+ "" = a.
Proof.
  induction a as [|x a IH]; [done|]. rewrite append_cons. by f_equal.
Qed.

(** Joining texts puts the separator before every text but the first. *)
Lemma concat_prefixed (sep x : string) (l : list string) :
  String.concat sep (x :: l) = x +:+ prefixed sep l.
Proof.
  revert x. induction l as [|y l IH]; intros x.
  - simpl. by rewrite append_nil_r.
  - change (String.concat sep (x :: y :: l))
      with (x +:+ sep +:+ String.concat sep (y :: l)).
    by rewrite IH.
Qed.

Lemma cidrIsSubnet_not_default peer a :
  cidrIsSubnet peer a = true → (Bits a =? 0) = false.
Proof. unfold cidrIsSubnet. by destruct (Bits a =? 0). Qed.

(** ** The configured peers *)

(** X1: the configured peers are the peers of the map that are neither
    unreachable (no discovery key, no home relay, not WireGuard-only) nor
    expired, in the order of the map; each carries the peer's public key,
    discovery key, masquerade addresses and jailed flag. *)
Theorem configured_peers_are_the_included_peers
  (parse : string → option Z) (pk : Z) (nm : netmap.NetworkMap) (flags : Z)
  (exitNode : string) :
  Forall2
    (λ peer cpeer,
       wgcfg.PublicKey cpeer = tailcfg.Key peer
       ∧ wgcfg.DiscoKey cpeer = tailcfg.DiscoKey peer
       ∧ wgcfg.V4MasqAddr cpeer = tailcfg.SelfNodeV4MasqAddrForThisPeer peer
       ∧ wgcfg.V6MasqAddr cpeer = tailcfg.SelfNodeV6MasqAddrForThisPeer peer
       ∧ wgcfg.IsJailed cpeer = tailcfg.IsJailed peer)
    (List.filter (λ peer, negb (unreachable peer) && negb (tailcfg.Expired peer))
       (netmap.Peers nm))
    (wgcfg.Peers (WGCfg parse pk nm flags exitNode).1).
Proof.
  rewrite WGCfg_Peers. apply Forall2_map_r. intros peer _. done.
Qed.

(** X2: when subnet routes are not accepted, every allowed IP of a
    configured peer is an entry of the peer's own list that is either a
    default route, the peer being the selected exit node, or one of the
    peer's own single addresses. *)
Theorem without_subnet_routes_only_own_addresses
  (parse : string → option Z) (pk : Z) (nm : netmap.NetworkMap) (flags : Z)
  (exitNode : string) :
  Z.land flags netmap.AllowSubnetRoutes = 0 →
  Forall2
    (λ peer cpeer, ∀ a, a ∈ wgcfg.AllowedIPs cpeer →
       a ∈ tailcfg.AllowedIPs peer
       ∧ ((Bits a = 0 ∧ tailcfg.StableID peer = exitNode)
          ∨ (IsSingleIP a = true ∧ a ∈ tailcfg.Addresses peer)))
    (List.filter included (netmap.Peers nm))
    (wgcfg.Peers (WGCfg parse pk nm flags exitNode).1).
Proof.
  intros Hoff. rewrite WGCfg_Peers. apply Forall2_map_r. intros peer _ a.
  assert (subnetRoutesAccepted flags = false) as Hoff'.
  { unfold subnetRoutesAccepted. by rewrite Hoff. }
  unfold cpeerOf. simpl. rewrite Hoff', app_nil_r.
  rewrite list_elem_of_In, filter_In, <- list_elem_of_In.
  intros [Hin Hk]. split; [done|].
  apply keepAllowedIP_kept in Hk. unfold kept in Hk. rewrite Hoff' in Hk.
  destruct (Z.eqb_spec (Bits a) 0) as [Hb|Hb].
  - by left.
  - right. by destruct Hk as [?|?].
Qed.

(** X3: when no peer of the map has a default route among its primary
    routes, a default route among the allowed IPs of a configured peer
    means that the peer is the selected exit node, whatever the flags. *)
Theorem default_route_needs_the_exit_node
  (parse : string → option Z) (pk : Z) (nm : netmap.NetworkMap) (flags : Z)
  (exitNode : string) :
  (∀ other r, other ∈ netmap.Peers nm → r ∈ tailcfg.PrimaryRoutes other →
              Bits r ≠ 0) →
  Forall2
    (λ peer cpeer, ∀ a, a ∈ wgcfg.AllowedIPs cpeer → Bits a = 0 →
       tailcfg.StableID peer = exitNode)
    (List.filter included (netmap.Peers nm))
    (wgcfg.Peers (WGCfg parse pk nm flags exitNode).1).
Proof.
  intros Hprim. rewrite WGCfg_Peers. apply Forall2_map_r. intros peer _ a.
  unfold cpeerOf. simpl. rewrite elem_of_app. intros [Hin|Hin] Hb.
  - apply list_elem_of_In, filter_In in Hin as [_ Hk].
    apply keepAllowedIP_kept in Hk. unfold kept in Hk.
    by rewrite Hb in Hk.
  - destruct (subnetRoutesAccepted flags); [|by apply elem_of_nil in Hin].
    apply haSubnetRouterAllowedIPs_spec in Hin as (_ & _ & _ & o & Ho & _ & Hr).
    by destruct (Hprim o a Ho Hr).
Qed.

(** X4: accepting subnet routes only adds allowed IPs: peer by peer, the
    allowed IPs configured without the flag are a subsequence of those
    configured with any other flags, for the same peers in the same order. *)
Theorem accepting_subnet_routes_only_adds
  (parse : string → option Z) (pk : Z) (nm : netmap.NetworkMap)
  (flags0 flags1 : Z) (exitNode : string) :
  Z.land flags0 netmap.AllowSubnetRoutes = 0 →
  Forall2
    (λ cpeer0 cpeer1,
       wgcfg.PublicKey cpeer0 = wgcfg.PublicKey cpeer1
       ∧ wgcfg.AllowedIPs cpeer0 `sublist_of` wgcfg.AllowedIPs cpeer1)
    (wgcfg.Peers (WGCfg parse pk nm flags0 exitNode).1)
    (wgcfg.Peers (WGCfg parse pk nm flags1 exitNode).1).
Proof.
  intros Hoff. rewrite !WGCfg_Peers. apply Forall2_map_map. intros peer _.
  split; [done|]. unfold cpeerOf. simpl.
  assert (subnetRoutesAccepted flags0 = false) as Hoff'.
  { unfold subnetRoutesAccepted. by rewrite Hoff. }
  rewrite Hoff', app_nil_r.
  apply sublist_inserts_r, filter_sublist_mono. intros a.
  unfold keepAllowedIP. rewrite Hoff'.
  destruct (negb (_ && _)); simpl; [|done].
  by destruct (cidrIsSubnet peer a).
Qed.

Lemma aipStep_flag_bit peer flags exitNode st a :
  aipStep peer (Z.land flags netmap.AllowSubnetRoutes) exitNode st a
  = aipStep peer flags exitNode st a.
Proof.
  unfold aipStep. by rewrite <- Z.land_assoc, Z.land_diag.
Qed.

Lemma peerStep_flag_bit nm flags exitNode st p :
  peerStep nm (Z.land flags netmap.AllowSubnetRoutes) exitNode st p
  = peerStep nm flags exitNode st p.
Proof.
  unfold peerStep. rewrite <- Z.land_assoc, Z.land_diag.
  rewrite (fold_left_ext_in _ (aipStep p flags exitNode)); [done|].
  intros. apply aipStep_flag_bit.
Qed.

(** X5: of the flags, [WGCfg] reads the subnet-route bit only: clearing
    every other bit changes neither the configuration nor the error. *)
Theorem only_the_subnet_route_flag_is_read
  (parse : string → option Z) (pk : Z) (nm : netmap.NetworkMap) (flags : Z)
  (exitNode : string) :
  WGCfg parse pk nm (Z.land flags netmap.AllowSubnetRoutes) exitNode
  = WGCfg parse pk nm flags exitNode.
Proof.
  unfold WGCfg.
  rewrite (fold_left_ext_in _ (peerStep nm flags exitNode)); [done|].
  intros. apply peerStep_flag_bit.
Qed.

(** X6: the choice of the exit node bears on default routes only: for two
    choices the same peers are configured, in the same order, and their
    allowed IPs other than default routes are the same. *)
Theorem exit_node_choice_bears_on_default_routes_only
  (parse : string → option Z) (pk : Z) (nm : netmap.NetworkMap) (flags : Z)
  (exitNode exitNode' : string) :
  Forall2
    (λ cpeer cpeer',
       wgcfg.PublicKey cpeer = wgcfg.PublicKey cpeer'
       ∧ List.filter (λ a, negb (Bits a =? 0)) (wgcfg.AllowedIPs cpeer)
         = List.filter (λ a, negb (Bits a =? 0)) (wgcfg.AllowedIPs cpeer'))
    (wgcfg.Peers (WGCfg parse pk nm flags exitNode).1)
    (wgcfg.Peers (WGCfg parse pk nm flags exitNode').1).
Proof.
  rewrite !WGCfg_Peers. apply Forall2_map_map. intros peer _.
  split; [done|]. unfold cpeerOf. simpl. rewrite !List.filter_app. f_equal.
  apply filter_filter_ext. intros a Ha. unfold keepAllowedIP.
  apply negb_true_iff in Ha. by rewrite Ha.
Qed.

(** X7: the translator adds no duplicates: a peer whose allowed-IP list is
    free of duplicates is configured with allowed IPs free of duplicates,
    the routes of its HA group included. *)
Theorem translator_adds_no_duplicates
  (parse : string → option Z) (pk : Z) (nm : netmap.NetworkMap) (flags : Z)
  (exitNode : string) :
  Forall2
    (λ peer cpeer, NoDup (tailcfg.AllowedIPs peer) → NoDup (wgcfg.AllowedIPs cpeer))
    (List.filter included (netmap.Peers nm))
    (wgcfg.Peers (WGCfg parse pk nm flags exitNode).1).
Proof.
  rewrite WGCfg_Peers. apply Forall2_map_r. intros peer _ Hnd.
  unfold cpeerOf. simpl. apply NoDup_app. split; [by apply NoDup_List_filter|].
  split.
  - intros a Ha Hha. apply list_elem_of_In, filter_In in Ha as [Ha _].
    apply list_elem_of_In in Ha.
    destruct (subnetRoutesAccepted flags); [|by apply elem_of_nil in Hha].
    by apply haSubnetRouterAllowedIPs_spec in Hha as (_ & _ & Hn & _).
  - destruct (subnetRoutesAccepted flags); [|constructor].
    apply haSubnetRouterAllowedIPs_spec.
Qed.

(** ** The HA expansion *)

(** X8: the HA expansion is stable: for a peer whose allowed IPs already
    hold what the expansion adds, the expansion adds nothing. *)
Theorem ha_expansion_is_stable
  (selfNode : tailcfg.NodeView) (peer : tailcfg.Node) (allPeers : list tailcfg.Node) :
  haSubnetRouterAllowedIPs selfNode
    (withAllowedIPs
       (tailcfg.AllowedIPs peer ++ haSubnetRouterAllowedIPs selfNode peer allPeers)
       peer)
    allPeers
  = [].
Proof.
  set (ha := haSubnetRouterAllowedIPs selfNode peer allPeers).
  destruct (haSubnetRouterAllowedIPs selfNode (withAllowedIPs _ peer) allPeers)
    as [|x l] eqn:E; [done|].
  exfalso.
  assert (x ∈ haSubnetRouterAllowedIPs selfNode
                (withAllowedIPs (tailcfg.AllowedIPs peer ++ ha) peer) allPeers)
    as Hx by (rewrite E; by left).
  apply haSubnetRouterAllowedIPs_spec in Hx as (Hs & Ht & Hn & o & Ho & Hc & Hr).
  simpl in Hn, Ht. apply Hn. apply elem_of_app.
  destruct (decide (x ∈ tailcfg.AllowedIPs peer)) as [?|Hnot]; [by left|right].
  apply haSubnetRouterAllowedIPs_spec. split; [done|]. split; [done|].
  split; [done|]. by exists o.
Qed.

Lemma addRoute_fold_order routes : ∀ (acc : list Prefix) (seen : gset Prefix),
  ∃ l, (fold_left addRoute routes (acc, seen)).1 = acc ++ l ∧ l `sublist_of` routes.
Proof.
  induction routes as [|r routes IH]; intros acc seen; simpl.
  - exists []. by rewrite app_nil_r.
  - unfold addRoute at 2. simpl. case_bool_decide.
    + destruct (IH acc seen) as (l & -> & Hl). exists l. split; [done|].
      by constructor.
    + destruct (IH (acc ++ [r]) ({[r]} ∪ seen)) as (l & -> & Hl).
      exists (r :: l). rewrite <- app_assoc. split; [done|]. by constructor.
Qed.

Lemma haStep_fold_order peer peers : ∀ (st : list Prefix * gset Prefix),
  ∃ l, (fold_left (haStep peer) peers st).1 = st.1 ++ l
       ∧ l `sublist_of` concat (map tailcfg.PrimaryRoutes peers).
Proof.
  induction peers as [|o peers IH]; intros st; simpl.
  - exists []. by rewrite app_nil_r.
  - destruct (haStep_cases peer st o) as [[_ ->]|[_ ->]].
    + destruct st as [acc seen].
      destruct (addRoute_fold_order (tailcfg.PrimaryRoutes o) acc seen) as (l1 & E1 & H1).
      destruct (IH (fold_left addRoute (tailcfg.PrimaryRoutes o) (acc, seen)))
        as (l2 & -> & H2).
      exists (l1 ++ l2). rewrite E1. simpl. rewrite <- app_assoc. split; [done|].
      by apply sublist_app.
    + destruct (IH st) as (l & -> & Hl). exists l. split; [done|].
      by apply sublist_inserts_l.
Qed.

(** X9: the routes that the HA expansion adds come in the order of the
    peers of the map and, for one peer, of its primary routes: they are a
    subsequence of the primary routes of all peers put end to end. *)
Theorem ha_routes_come_in_peer_order
  (selfNode : tailcfg.NodeView) (peer : tailcfg.Node) (allPeers : list tailcfg.Node) :
  haSubnetRouterAllowedIPs selfNode peer allPeers
  `sublist_of` concat (map tailcfg.PrimaryRoutes allPeers).
Proof.
  unfold haSubnetRouterAllowedIPs. destruct selfNode as [self|]; [|apply sublist_nil_l].
  destruct (negb _); [apply sublist_nil_l|].
  destruct (_ =? 0); [apply sublist_nil_l|].
  by destruct (haStep_fold_order peer allPeers
                 ([], list_to_set (tailcfg.AllowedIPs peer))) as (l & -> & Hl).
Qed.

(** ** The lists kept for the log *)

Lemma aipStep_fold_log peer flags exitNode l : ∀ st,
  let r := fold_left (aipStep peer flags exitNode) l st in
  aipSkippedExitNode r
  = aipSkippedExitNode st
    ++ (if negb (didExitNodeLog st) && unselectedExitNode exitNode (withAllowedIPs l peer)
        then [peer] else [])
  ∧ didExitNodeLog r
    = didExitNodeLog st || unselectedExitNode exitNode (withAllowedIPs l peer)
  ∧ aipSkippedSubnetRouter r
    = aipSkippedSubnetRouter st
      ++ (if subnetRoutesAccepted flags then []
          else map (λ _, peer) (List.filter (cidrIsSubnet peer) l)).
Proof.
  unfold unselectedExitNode, subnetRoutesAccepted. simpl.
  induction l as [|a l IH]; intros st; simpl.
  - rewrite orb_false_r, andb_false_r, app_nil_r.
    by destruct (negb (_ =? 0)); rewrite ?app_nil_r.
  - destruct (IH (aipStep peer flags exitNode st a)) as (H1 & H2 & H3).
    rewrite H1, H2, H3. clear IH H1 H2 H3. unfold aipStep.
    destruct (cidrIsSubnet peer a) eqn:Hsub.
    + rewrite (cidrIsSubnet_not_default _ _ Hsub). simpl.
      destruct (Z.land flags netmap.AllowSubnetRoutes =? 0); simpl; [|done].
      by rewrite <- app_assoc.
    + simpl. destruct (Bits a =? 0); simpl; [|done].
      destruct (bool_decide (tailcfg.StableID peer = exitNode)); simpl.
      * by rewrite !andb_false_r.
      * destruct (didExitNodeLog st) eqn:Hd; simpl; rewrite ?Hd; simpl; [done|].
        by rewrite <- app_assoc, app_nil_r.
Qed.

Lemma peerStep_fold_log nm flags exitNode l : ∀ st,
  let r := fold_left (peerStep nm flags exitNode) l st in
  skippedExitNode r
  = skippedExitNode st
    ++ List.filter (λ p, included p && unselectedExitNode exitNode p) l
  ∧ skippedSubnetRouter r
    = skippedSubnetRouter st
      ++ (if subnetRoutesAccepted flags then []
          else flat_map (λ p, map (λ _, p)
                                (List.filter (cidrIsSubnet p) (tailcfg.AllowedIPs p)))
                 (List.filter included l))
  ∧ skippedExpired r
    = skippedExpired st
      ++ List.filter (λ p, negb (unreachable p) && tailcfg.Expired p) l.
Proof.
  induction l as [|p l IH]; intros st; simpl.
  - rewrite !app_nil_r. by destruct (subnetRoutesAccepted flags); rewrite ?app_nil_r.
  - destruct (IH (peerStep nm flags exitNode st p)) as (H1 & H2 & H3).
    rewrite H1, H2, H3. clear IH H1 H2 H3. unfold peerStep, included, unreachable.
    destruct ((tailcfg.DiscoKey p =? 0) && (tailcfg.HomeDERP p =? 0)
              && negb (tailcfg.IsWireGuardOnly p)); simpl; [done|].
    destruct (tailcfg.Expired p); simpl.
    { by rewrite <- app_assoc. }
    destruct (aipStep_fold_log p flags exitNode (tailcfg.AllowedIPs p)
                (MkAipState [] false (skippedExitNode st) (skippedSubnetRouter st)))
      as (E2 & _ & E3).
    simpl in E2, E3. rewrite E2, E3.
    change (unselectedExitNode exitNode (withAllowedIPs (tailcfg.AllowedIPs p) p))
      with (unselectedExitNode exitNode p).
    split; [|split; [|done]].
    + destruct (unselectedExitNode exitNode p); simpl;
        by rewrite <- ?app_assoc, ?app_nil_r.
    + destruct (subnetRoutesAccepted flags); simpl;
        by rewrite <- ?app_assoc, ?app_nil_r.
Qed.

(** X10: the list logged as "skipped unselected exit nodes" holds, once
    each and in map order, the included peers that list a default route
    without being the selected exit node, whether they list one default route
    or several; the list logged as "skipped expired peers" holds the expired
    peers that are not unreachable. *)
Theorem skipped_peers_are_listed_once
  (nm : netmap.NetworkMap) (flags : Z) (exitNode : string) :
  skippedExitNode (peersLoop nm flags exitNode)
  = List.filter (λ p, included p && unselectedExitNode exitNode p) (netmap.Peers nm)
  ∧ skippedExpired (peersLoop nm flags exitNode)
    = List.filter (λ p, negb (unreachable p) && tailcfg.Expired p) (netmap.Peers nm).
Proof.
  by destruct (peerStep_fold_log nm flags exitNode (netmap.Peers nm)
                 (MkPeersState [] [] [] [])) as (H1 & _ & H3).
Qed.

(** X11: the list logged as "did not accept subnet routes" is empty when
    subnet routes are accepted; otherwise it holds every included peer once
    for each subnet route of its allowed IPs, so that the number of nodes
    in the log line is the number of routes dropped. *)
Theorem subnet_routers_are_listed_once_per_route
  (nm : netmap.NetworkMap) (flags : Z) (exitNode : string) :
  skippedSubnetRouter (peersLoop nm flags exitNode)
  = if subnetRoutesAccepted flags then []
    else flat_map (λ p, map (λ _, p)
                          (List.filter (cidrIsSubnet p) (tailcfg.AllowedIPs p)))
           (List.filter included (netmap.Peers nm)).
Proof.
  by destruct (peerStep_fold_log nm flags exitNode (netmap.Peers nm)
                 (MkPeersState [] [] [] [])) as (_ & H2 & _).
Qed.

Section Log.
Variable Hostname : tailcfg.Node → string.

Lemma writeNodes_from total i nodes :
  (1 ≤ i ≤ max)%nat →
  writeNodes Hostname total i nodes
  = prefixed ", " (map (logEntry Hostname) (take (max - i) nodes))
    +:+ (if (max - i <? length nodes)%nat
         then "... +" +:+ pretty (Z.of_nat total - Z.of_nat max) else "").
Proof.
  revert i. induction nodes as [|n nodes IH]; intros i Hi.
  - simpl. by rewrite take_nil.
  - simpl writeNodes. destruct (Nat.eqb_spec i max) as [->|Hne].
    + by rewrite Nat.sub_diag.
    + assert ((0 <? i)%nat = true) as -> by (apply Nat.ltb_lt; lia).
      rewrite IH by lia.
      replace (max - i)%nat with (S (max - S i)) by lia.
      simpl. unfold logEntry at 2. by rewrite !append_assoc.
Qed.

(** X12: [logList] logs nothing for an empty list and otherwise one line:
    the title, the number of nodes, and the entries "name (stable ID)" of
    the first five nodes separated by commas, followed without a separator
    by "... +k" when k more nodes are left out. *)
Theorem logList_names_at_most_five_nodes (title : string) (nodes : list tailcfg.Node) :
  logList Hostname title nodes
  = match nodes with
    | [] => []
    | _ :: _ =>
        ["[v1] wgcfg: " +:+ title +:+ " from " +:+ pretty (Z.of_nat (length nodes))
         +:+ " nodes: "
         +:+ String.concat ", " (map (logEntry Hostname) (take 5 nodes))
         +:+ (if (5 <? length nodes)%nat
              then "... +" +:+ pretty (Z.of_nat (length nodes) - 5) else "")]
    end.
Proof.
  destruct nodes as [|n nodes]; [done|].
  unfold logList. simpl length. simpl Nat.eqb. cbv iota.
  do 5 f_equal. simpl writeNodes. simpl take. simpl map.
  rewrite concat_prefixed. rewrite writeNodes_from by (unfold max; lia).
  unfold max. simpl Nat.sub. unfold logEntry at 2. by rewrite !append_assoc.
Qed.

Lemma Cut_dot (s : string) :
  noDot (Cut s ".").1.1
  ∧ ((Cut s ".").1.1 = s ∨ ∃ rest, s = (Cut s ".").1.1 +:+ "." +:+ rest).
Proof.
  assert (noDot "") as Hnil.
  { intros [|x a] b; rewrite ?append_cons, ?append_nil_l; discriminate. }
  induction s as [|c s IH].
  - simpl. split; [done|by left].
  - change (Cut (String c s) ".")
      with (if String.prefix "." (String c s)
            then ("", dropString 1 (String c s), true)
            else let '(before, after, found) := Cut s "." in
                 (String c before, after, found)).
    change (String.prefix "." (String c s))
      with (if Ascii.ascii_dec (Ascii.Ascii false true true true false true false false) c
            then String.prefix "" s else false).
    destruct (Ascii.ascii_dec _ c) as [<-|Hc].
    + assert (String.prefix "" s = true) as -> by (by destruct s).
      simpl. split; [done|]. right. by exists s.
    + destruct (Cut s ".") as [[before after] found]. simpl in *.
      destruct IH as [Hno Hsplit]. split.
      * intros [|x a] b; rewrite ?append_cons, ?append_nil_l;
          intros [= Hx Hrest]; [by apply Hc|].
        by apply (Hno a b).
      * destruct Hsplit as [->|[rest ->]]; [by left|]. right. by exists rest.
Qed.

(** X13: the name under which a node is logged is the first label of its
    name, or of its host name when it has no name: it holds no dot, and it
    is the whole of that name or what comes before its first dot. *)
Theorem nodeDebugName_is_the_first_label (n : tailcfg.Node) :
  let full := cmpOr (tailcfg.Name n) (Hostname n) in
  noDot (nodeDebugName Hostname n)
  ∧ (nodeDebugName Hostname n = full
     ∨ ∃ rest, full = nodeDebugName Hostname n +:+ "." +:+ rest).
Proof. apply Cut_dot. Qed.

End Log.

(** ** Instances *)

Lemma without_subnet_routes_only_own_addresses_witness :
  Forall2
    (λ peer cpeer, ∀ a, a ∈ wgcfg.AllowedIPs cpeer →
       a ∈ tailcfg.AllowedIPs peer
       ∧ ((Bits a = 0 ∧ tailcfg.StableID peer = "")
          ∨ (IsSingleIP a = true ∧ a ∈ tailcfg.Addresses peer)))
    (List.filter included (netmap.Peers hostRouteMap))
    (wgcfg.Peers (WGCfg parseOk 0 hostRouteMap 0 "").1).
Proof.
  apply (without_subnet_routes_only_own_addresses parseOk 0 hostRouteMap 0 "").
  reflexivity.
Defined.

Lemma default_route_needs_the_exit_node_witness :
  Forall2
    (λ peer cpeer, ∀ a, a ∈ wgcfg.AllowedIPs cpeer → Bits a = 0 →
       tailcfg.StableID peer = "")
    (List.filter included (netmap.Peers siteBSR2Map))
    (wgcfg.Peers (WGCfg parseOk 0 siteBSR2Map netmap.AllowSubnetRoutes "").1).
Proof.
  apply (default_route_needs_the_exit_node parseOk 0 siteBSR2Map
           netmap.AllowSubnetRoutes "").
  intros other r Ho Hr.
  assert (Forall (λ o, Forall (λ r, Bits r ≠ 0) (tailcfg.PrimaryRoutes o))
            (netmap.Peers siteBSR2Map)) as Hall.
  { vm_compute. repeat constructor; discriminate. }
  apply (proj1 (Forall_forall _ _) Hall) in Ho.
  by apply (proj1 (Forall_forall _ _) Ho).
Defined.

Lemma accepting_subnet_routes_only_adds_witness :
  Forall2
    (λ cpeer0 cpeer1,
       wgcfg.PublicKey cpeer0 = wgcfg.PublicKey cpeer1
       ∧ wgcfg.AllowedIPs cpeer0 `sublist_of` wgcfg.AllowedIPs cpeer1)
    (wgcfg.Peers (WGCfg parseOk 0 siteBSR2Map 0 "").1)
    (wgcfg.Peers (WGCfg parseOk 0 siteBSR2Map netmap.AllowSubnetRoutes "").1).
Proof.
  apply (accepting_subnet_routes_only_adds parseOk 0 siteBSR2Map 0
           netmap.AllowSubnetRoutes "").
  reflexivity.
Defined.

End TranslatorMore.

(** * The calls of the translator *)

Section TranslatorCalls.
Import netip nmcfg nmcfg_props nmcfg_log nmcfg_more nmcfg_outcome nmcfg_outcome_props.

Section Calls.
Variable Hostinfo : tailcfg.Node → option string.
Variable logfPassesOnPanics : bool.

Lemma nodeDebugName_cases n :
  nodeDebugName Hostinfo n
  = if carriesHostinfo Hostinfo n
    then Returns (nmcfg_log.nodeDebugName (λ n, default "" (Hostinfo n)) n)
    else Panics nilDereference.
Proof.
  unfold nodeDebugName, carriesHostinfo, nmcfg_log.nodeDebugName.
  by destruct (Hostinfo n).
Qed.

(** One turn of the loop over the peers: it panics on an expanded peer
    without host information, and otherwise does what the loop of the
    returning call does. *)
Lemma peerStep_cases nm flags exitNode st peer :
  peerStep Hostinfo nm flags exitNode st peer
  = if negb (haExpanded nm flags peer) || carriesHostinfo Hostinfo peer
    then Returns (nmcfg.peerStep nm flags exitNode st peer)
    else Panics nilDereference.
Proof.
  unfold peerStep, nmcfg.peerStep, haExpanded, included, subnetRoutesAccepted.
  destruct ((tailcfg.DiscoKey peer =? 0) && (tailcfg.HomeDERP peer =? 0)
            && negb (tailcfg.IsWireGuardOnly peer)); simpl; [done|].
  destruct (tailcfg.Expired peer); simpl; [done|].
  destruct (negb (Z.land flags netmap.AllowSubnetRoutes =? 0)); simpl;
    [|by rewrite app_nil_r].
  destruct (haSubnetRouterAllowedIPs (netmap.SelfNode nm) peer (netmap.Peers nm))
    as [|r rs] eqn:Hha; simpl; [by rewrite app_nil_r|].
  rewrite nodeDebugName_cases. by destruct (carriesHostinfo Hostinfo peer).
Qed.

Lemma peersLoop_panics nm flags exitNode (l : list tailcfg.Node) why :
  fold_left (λ st peer, andThen st (λ st, peerStep Hostinfo nm flags exitNode st peer))
    l (Panics why) = Panics why.
Proof. by induction l. Qed.

Lemma peersLoop_fold nm flags exitNode (l : list tailcfg.Node) : ∀ st,
  fold_left (λ st peer, andThen st (λ st, peerStep Hostinfo nm flags exitNode st peer))
    l (Returns st)
  = if forallb (λ peer, negb (haExpanded nm flags peer)
                        || carriesHostinfo Hostinfo peer) l
    then Returns (fold_left (nmcfg.peerStep nm flags exitNode) l st)
    else Panics nilDereference.
Proof.
  induction l as [|peer l IH]; intros st; [done|].
  cbn [fold_left forallb andThen]. rewrite peerStep_cases.
  destruct (negb (haExpanded nm flags peer) || carriesHostinfo Hostinfo peer); simpl.
  - apply IH.
  - apply peersLoop_panics.
Qed.

Lemma peersLoop_cases nm flags exitNode :
  nmcfg_outcome.peersLoop Hostinfo nm flags exitNode
  = if expandedPeersNamed Hostinfo nm flags
    then Returns (nmcfg_log.peersLoop nm flags exitNode)
    else Panics nilDereference.
Proof. apply peersLoop_fold. Qed.

Lemma writeNodes_cases (nodes : list tailcfg.Node) : ∀ i, (i ≤ max)%nat →
  nmcfg_outcome.writeNodes Hostinfo i nodes
  = if forallb (carriesHostinfo Hostinfo) (take (max - i) nodes)
    then Returns tt else Panics nilDereference.
Proof.
  induction nodes as [|n nodes IH]; intros i Hi.
  - by rewrite take_nil.
  - cbn [nmcfg_outcome.writeNodes].
    destruct (Nat.eqb_spec i max) as [->|Hne].
    + by rewrite Nat.sub_diag.
    + replace (max - i)%nat with (S (max - S i)) by lia.
      cbn [take forallb]. rewrite nodeDebugName_cases.
      destruct (carriesHostinfo Hostinfo n); simpl; [|done].
      apply IH. lia.
Qed.

Lemma logList_cases nodes :
  nmcfg_outcome.logList Hostinfo logfPassesOnPanics nodes
  = if negb logfPassesOnPanics || listedNodesNamed Hostinfo nodes
    then Returns tt else Panics nilDereference.
Proof.
  unfold nmcfg_outcome.logList, listedNodesNamed.
  destruct nodes as [|n nodes].
  - simpl. by destruct logfPassesOnPanics.
  - cbn [length Nat.eqb]. destruct logfPassesOnPanics; simpl negb; cbn [orb]; [|done].
    rewrite writeNodes_cases by (unfold max; lia). by rewrite Nat.sub_0_r.
Qed.

(** The outcome of a call on a network map: the result of the returning
    call, unless a node that the call names carries no host information. *)
Lemma WGCfg_cases parse pk nm flags exitNode :
  nmcfg_outcome.WGCfg Hostinfo logfPassesOnPanics parse pk (Some nm) flags exitNode
  = let st := nmcfg_log.peersLoop nm flags exitNode in
    if expandedPeersNamed Hostinfo nm flags
       && (negb logfPassesOnPanics
           || (listedNodesNamed Hostinfo (skippedExitNode st)
               && listedNodesNamed Hostinfo (skippedSubnetRouter st)
               && listedNodesNamed Hostinfo (skippedExpired st)))
    then Returns (nmcfg.WGCfg parse pk nm flags exitNode)
    else Panics nilDereference.
Proof.
  unfold nmcfg_outcome.WGCfg. rewrite peersLoop_cases.
  destruct (expandedPeersNamed Hostinfo nm flags); [|done].
  cbn [andThen andb]. rewrite !logList_cases.
  destruct logfPassesOnPanics; cbn [negb orb andThen]; [|done].
  destruct (listedNodesNamed Hostinfo (skippedExitNode _)); cbn [andThen andb]; [|done].
  destruct (listedNodesNamed Hostinfo (skippedSubnetRouter _)); cbn [andThen andb];
    [|done].
  by destruct (listedNodesNamed Hostinfo (skippedExpired _)).
Qed.

Lemma WGCfg_returned parse pk nm flags exitNode r :
  nmcfg_outcome.WGCfg Hostinfo logfPassesOnPanics parse pk (Some nm) flags exitNode
  = Returns r →
  r = nmcfg.WGCfg parse pk nm flags exitNode.
Proof.
  rewrite WGCfg_cases. cbv zeta. destruct (_ && _); [|done]. by intros [= <-].
Qed.

(** The nodes kept for the log are peers of the map. *)
Lemma skipped_are_peers nm flags exitNode n :
  let st := nmcfg_log.peersLoop nm flags exitNode in
  n ∈ skippedExitNode st ∨ n ∈ skippedSubnetRouter st ∨ n ∈ skippedExpired st →
  n ∈ netmap.Peers nm.
Proof.
  unfold nmcfg_log.peersLoop.
  destruct (peerStep_fold_log nm flags exitNode (netmap.Peers nm)
              (MkPeersState [] [] [] [])) as (H1 & H2 & H3).
  cbv zeta in *. rewrite H1, H2, H3. simpl.
  intros [Hin|[Hin|Hin]].
  - apply list_elem_of_In, filter_In in Hin as [Hin _]. by apply list_elem_of_In.
  - destruct (subnetRoutesAccepted flags); [by apply elem_of_nil in Hin|].
    apply list_elem_of_In, in_flat_map in Hin as (p & Hp & Hin).
    apply in_map_iff in Hin as (_ & <- & _).
    apply filter_In in Hp as [Hp _]. by apply list_elem_of_In.
  - apply list_elem_of_In, filter_In in Hin as [Hin _]. by apply list_elem_of_In.
Qed.

Lemma listedNodesNamed_of_peers nm nodes :
  (∀ peer, peer ∈ netmap.Peers nm → Hostinfo peer ≠ None) →
  (∀ n, n ∈ nodes → n ∈ netmap.Peers nm) →
  listedNodesNamed Hostinfo nodes = true.
Proof.
  intros Hall Hsub. unfold listedNodesNamed. apply forallb_forall. intros n Hn.
  apply list_elem_of_In in Hn. apply (subseteq_take max nodes) in Hn.
  specialize (Hall n (Hsub n Hn)).
  unfold carriesHostinfo. by destruct (Hostinfo n).
Qed.

Lemma expandedPeersNamed_spec nm flags :
  expandedPeersNamed Hostinfo nm flags = true
  ↔ ∀ peer, peer ∈ netmap.Peers nm → haExpanded nm flags peer = true →
            Hostinfo peer ≠ None.
Proof.
  unfold expandedPeersNamed. rewrite forallb_forall. split.
  - intros H peer Hin Hexp. specialize (H peer). rewrite <- list_elem_of_In in H.
    specialize (H Hin). rewrite Hexp in H. simpl in H. unfold carriesHostinfo in H.
    by destruct (Hostinfo peer).
  - intros H peer Hin. apply list_elem_of_In in Hin. specialize (H peer Hin).
    destruct (haExpanded nm flags peer); [|done]. simpl.
    unfold carriesHostinfo. destruct (Hostinfo peer); [done|]. by destruct H.
Qed.

(** C8, as the code has it: whenever [WGCfg] returns, the allowed IPs of
    every configured peer are the filtered list followed by the routes of
    the HA expansion.  With subnet routes accepted, a self node that lists
    among its allowed IPs an entry that is neither a default route nor one
    of its own addresses, and a peer that carries a tag, these are the
    primary routes of every other peer that shares a tag with it and has
    primary routes, without the prefixes of the peer's own allowed-IP list
    and without duplicates; when a precondition fails nothing is added. *)
Theorem ha_expansion_adds_group_routes
  (parse : string → option Z) (pk : Z) (nm : netmap.NetworkMap) (flags : Z)
  (exitNode : string) (cfg : wgcfg.Config) (err : option string) :
  nmcfg_outcome.WGCfg Hostinfo logfPassesOnPanics parse pk (Some nm) flags exitNode
  = Returns (cfg, err) →
  haExpansion haEnabled cfg nm flags exitNode.
Proof.
  intros Hret. apply WGCfg_returned in Hret.
  assert (cfg = (nmcfg.WGCfg parse pk nm flags exitNode).1) as -> by (by rewrite <- Hret).
  apply configured_peers_ha_expansion.
Qed.

(** X27: [WGCfg] does not return an error: a call that returns gives the
    configuration with a nil error.  A call on a network map returns when
    every peer carries host information; with a logger that does not pass
    on the panic of a writer it returns exactly when every included peer
    that the HA expansion gives a route carries host information, and
    panics otherwise.  Whether the call returns does not depend on the
    parser of the audit-log identifiers, and neither do the private key,
    the addresses and the peers of the result.  A call on a nil map
    panics. *)
Theorem translator_returns_no_error
  (parse : string → option Z) (pk : Z) (nm : netmap.NetworkMap) (flags : Z)
  (exitNode : string) :
  let call parse :=
    nmcfg_outcome.WGCfg Hostinfo logfPassesOnPanics parse pk (Some nm) flags exitNode in
  (∀ r, call parse = Returns r →
        r = nmcfg.WGCfg parse pk nm flags exitNode ∧ r.2 = None)
  ∧ ((∀ peer, peer ∈ netmap.Peers nm → Hostinfo peer ≠ None) → returns (call parse))
  ∧ (logfPassesOnPanics = false →
     (returns (call parse)
      ↔ ∀ peer, peer ∈ netmap.Peers nm → haExpanded nm flags peer = true →
                Hostinfo peer ≠ None)
     ∧ (¬ returns (call parse) → call parse = Panics nilDereference))
  ∧ (∀ parse', returns (call parse) ↔ returns (call parse'))
  ∧ (∀ parse' r r', call parse = Returns r → call parse' = Returns r' →
       wgcfg.PrivateKey r.1 = wgcfg.PrivateKey r'.1
       ∧ wgcfg.Addresses r.1 = wgcfg.Addresses r'.1
       ∧ wgcfg.Peers r.1 = wgcfg.Peers r'.1)
  ∧ nmcfg_outcome.WGCfg Hostinfo logfPassesOnPanics parse pk None flags exitNode
    = Panics nilDereference.
Proof.
  intros call. subst call. cbv beta.
  split; [|split; [|split; [|split; [|split; [|done]]]]].
  - intros r Hr. apply WGCfg_returned in Hr. by subst r.
  - intros Hall. rewrite WGCfg_cases. cbv zeta.
    assert (expandedPeersNamed Hostinfo nm flags = true) as ->.
    { apply expandedPeersNamed_spec. auto. }
    rewrite !(listedNodesNamed_of_peers nm); try done.
    + rewrite orb_true_r. by eexists.
    + intros n Hn. apply (skipped_are_peers nm flags exitNode). auto.
    + intros n Hn. apply (skipped_are_peers nm flags exitNode). auto.
    + intros n Hn. apply (skipped_are_peers nm flags exitNode). auto.
  - intros Hlp. rewrite WGCfg_cases, Hlp. cbv zeta. simpl negb. cbn [orb].
    rewrite andb_true_r, <- expandedPeersNamed_spec.
    destruct (expandedPeersNamed Hostinfo nm flags).
    + split; [|intros H; destruct H; by eexists]. split; [done|]. intros _. by eexists.
    + split; [|done]. split; [by intros [? ?]|done].
  - intros parse'. rewrite !WGCfg_cases. cbv zeta.
    destruct (_ && _); [|done]. split; intros _; by eexists.
  - intros parse' r r' Hr Hr'. apply WGCfg_returned in Hr, Hr'. by subst r r'.
Qed.

End Calls.

(** The preconditions as the specification words them fail for a self node
    that lists no subnet but the address of another node, at which the code
    expands all the same. *)
Lemma ha_expansion_as_written_counterexample :
  ∃ cfg,
    nmcfg_outcome.WGCfg withHostinfo false parseOk 0 (Some hostRouteSelfMap)
      netmap.AllowSubnetRoutes ""
    = Returns (cfg, None)
    ∧ ¬ haExpansion haEnabledAsWritten cfg hostRouteSelfMap netmap.AllowSubnetRoutes "".
Proof.
  eexists. split; [vm_compute; reflexivity|].
  unfold haExpansion. intros H.
  apply Forall2_cons_1 in H as [(added & Heq & _ & _ & Hnone) _].
  assert (added = []) as ->.
  { apply Hnone. intros (_ & (self & a & [= <-] & Ha & Hbits & Hsingle) & _).
    apply list_elem_of_In in Ha. destruct Ha as [<-|[<-|[]]]; discriminate Hsingle. }
  vm_compute in Heq. discriminate Heq.
Qed.

Lemma ha_expansion_adds_group_routes_witness :
  ∃ cfg cpeer rest,
    nmcfg_outcome.WGCfg withHostinfo false parseOk 0 (Some siteBSR2Map)
      netmap.AllowSubnetRoutes ""
    = Returns (cfg, None)
    ∧ wgcfg.Peers cfg = cpeer :: rest
    ∧ siteASubnet ∈ wgcfg.AllowedIPs cpeer.
Proof.
  eexists. 
  assert (nmcfg_outcome.WGCfg withHostinfo false parseOk 0 (Some siteBSR2Map)
            netmap.AllowSubnetRoutes ""
          = Returns ((nmcfg.WGCfg parseOk 0 siteBSR2Map netmap.AllowSubnetRoutes "").1,
                     None)) as Hret by (vm_compute; reflexivity).
  pose proof (ha_expansion_adds_group_routes withHostinfo false parseOk 0 siteBSR2Map
                netmap.AllowSubnetRoutes "" _ _ Hret) as H.
  unfold haExpansion in H. rewrite siteBSR2Map_included in H.
  destruct (wgcfg.Peers _) as [|cpeer rest] eqn:Hpeers;
    [by apply Forall2_nil_inv_r in H|].
  apply Forall2_cons_1 in H as [(added & Heq & _ & Hmem & _) _].
  exists cpeer, rest. split; [exact Hret|]. split; [exact Hpeers|].
  rewrite Heq. apply elem_of_app. right. apply Hmem. split; [|split].
  - split; [reflexivity|]. split; [|discriminate].
    exists siteBSR2, siteBSubnet. split; [done|]. split; [|reflexivity].
    apply list_elem_of_In. right. by left.
  - intros Hin. apply list_elem_of_In in Hin. destruct Hin as [Hin|[]].
    discriminate Hin.
  - exists (reachable siteASR2AsSeenBySiteBSR2). split; [|split].
    + apply list_elem_of_In. right. by left.
    + split; [discriminate|]. split; [discriminate|].
      exists "tag:site-a-sr". split; apply list_elem_of_In; by left.
    + apply list_elem_of_In. by left.
Defined.

(** C9 fails on the code: on the map of the HA expansion test, whose nodes
    carry no host information, with subnet routes accepted, the call does
    not return.  The first peer is given the route of its HA group, and the
    log line about it names the peer, which panics; the logger does not
    come into it. *)
Theorem WGCfg_panics_on_a_peer_without_hostinfo (logfPassesOnPanics : bool) :
  nmcfg_outcome.WGCfg withoutHostinfo logfPassesOnPanics parseOk 0 (Some siteBSR2Map)
    netmap.AllowSubnetRoutes ""
  = Panics nilDereference
  ∧ nmcfg_outcome.WGCfg withoutHostinfo false parseOk 0 (Some siteBSR2Map) 0 ""
    = Returns (nmcfg.WGCfg parseOk 0 siteBSR2Map 0 "").
Proof. split; [by destruct logfPassesOnPanics|]. vm_compute. reflexivity. Qed.

End TranslatorCalls.

(** * The helpers of the state machine test *)

Section Throttler.
Import ipn ipnlocal statetest.

Lemma puts_room ns : ∀ cap q,
  Z.of_nat (length q) + Z.of_nat (length ns) ≤ cap →
  puts ns (Some (MkChan cap q false)) = Returns (Some (MkChan cap (q ++ ns) false)).
Proof.
  unfold puts. induction ns as [|n ns IH]; intros cap q Hlen; simpl.
  - by rewrite app_nil_r.
  - simpl length in Hlen.
    assert ((Z.of_nat (length q) <? cap) = true) as -> by (apply Z.ltb_lt; lia).
    rewrite IH; [by rewrite <- app_assoc|]. rewrite length_app. simpl. lia.
Qed.

Lemma receive_queued k : ∀ i count cap q cl nn,
  (k ≤ length q)%nat →
  receive k i count (MkChan cap q cl) nn
  = Returns (nn ++ take k q, MkChan cap (drop k q) cl).
Proof.
  induction k as [|k IH]; intros i count cap q cl nn Hk; simpl.
  - by rewrite app_nil_r.
  - destruct q as [|n q]; simpl in *; [lia|].
    rewrite IH by lia. by rewrite <- app_assoc.
Qed.

Lemma receive_short k : ∀ i count cap q nn,
  (length q < k)%nat →
  receive k i count (MkChan cap q false) nn
  = Fatal (DrainChannelEmpty (i + Z.of_nat (length q)) count).
Proof.
  induction k as [|k IH]; intros i count cap q nn Hk; simpl; [lia|].
  destruct q as [|n q]; simpl in *.
  - by rewrite Z.add_0_r.
  - rewrite IH by lia. do 2 f_equal. lia.
Qed.

Lemma receive_closed k : ∀ i count ch nn,
  closed ch = true →
  ∃ r, receive k i count ch nn = Returns r ∧ closed r.2 = true.
Proof.
  induction k as [|k IH]; intros i count ch nn Hcl; simpl.
  - by eexists.
  - destruct (queue ch) as [|n q].
    + rewrite Hcl. by apply IH.
    + by apply IH.
Qed.

(** X14: after expect(m), notifications put one after the other, no more
    than m of them, and a drain of c of them, no more than were put: the
    drain returns the first c notifications in the order in which they were
    put, without a failure, and closes the channel; a surplus of
    notifications stays in the queue unnoticed. *)
Theorem drain_returns_the_first_notifications
  (nt : notifyThrottler) (m c : Z) (ns : list ipn.Notify) :
  0 ≤ c ≤ Z.of_nat (length ns) → Z.of_nat (length ns) ≤ m →
  andThen (andThen (expect m nt) (puts ns)) (drain c)
  = Returns (take (Z.to_nat c) ns,
             Some (MkChan m (drop (Z.to_nat c) ns) true)).
Proof.
  intros Hc Hm. unfold expect.
  assert ((m <? 0) = false) as -> by (apply Z.ltb_ge; lia). simpl.
  rewrite puts_room by (simpl; lia). simpl.
  by rewrite receive_queued by lia.
Qed.

(** X15: the throttler fails the test on a wrong count: after expect(m) and
    m notifications, one more put fails with "channel full"; and a drain of
    more notifications than were put fails with "channel empty" after it
    received those that were put. *)
Theorem throttler_detects_a_wrong_count
  (nt : notifyThrottler) (m : Z) (ns : list ipn.Notify) :
  Z.of_nat (length ns) ≤ m →
  (∀ n, Z.of_nat (length ns) = m →
        andThen (andThen (expect m nt) (puts ns)) (put n)
        = Fatal (PutChannelFull n))
  ∧ (∀ c, Z.of_nat (length ns) < c →
          andThen (andThen (expect m nt) (puts ns)) (drain c)
          = Fatal (DrainChannelEmpty (Z.of_nat (length ns)) c)).
Proof.
  intros Hm. unfold expect.
  assert ((m <? 0) = false) as -> by (apply Z.ltb_ge; lia). simpl.
  rewrite puts_room by (simpl; lia). simpl. split.
  - intros n <-. by rewrite Z.ltb_irrefl.
  - intros c Hc. by rewrite receive_short by lia.
Qed.

(** X16: a drain spends the throttler: once a drain has returned, every put
    and every further drain panics on the closed channel, until the next
    expect. *)
Theorem throttler_is_spent_after_drain
  (nt nt' : notifyThrottler) (c : Z) (nn : list ipn.Notify) :
  drain c nt = Returns (nn, nt') →
  (∀ n, put n nt' = Panics "send on closed channel")
  ∧ (∀ c', drain c' nt' = Panics "close of closed channel").
Proof.
  unfold drain at 1. destruct nt as [ch|]; [|by destruct (0 <? c)].
  destruct (receive _ _ _ _ _) as [[nn' ch']|f|w]; simpl; [|done..].
  destruct (closed ch'); [done|]. intros [= <- <-]. split; [done|].
  intros c'. unfold drain.
  destruct (receive_closed (Z.to_nat c') 0 c'
              (MkChan (capacity ch') (queue ch') true) [])
    as (r & -> & Hr); [done|].
  simpl. by rewrite Hr.
Qed.

Lemma drain_returns_the_first_notifications_witness :
  andThen (andThen (expect 2 None) (puts twoNotifications)) (drain 2)
  = Returns (twoNotifications, Some (MkChan 2 [] true)).
Proof.
  apply (drain_returns_the_first_notifications None 2 2 twoNotifications);
    simpl; lia.
Defined.

Lemma throttler_detects_a_wrong_count_witness :
  andThen (andThen (expect 2 None) (puts twoNotifications)) (put zeroNotify)
  = Fatal (PutChannelFull zeroNotify)
  ∧ andThen (andThen (expect 2 None) (puts twoNotifications)) (drain 3)
    = Fatal (DrainChannelEmpty 2 3).
Proof.
  destruct (throttler_detects_a_wrong_count None 2 twoNotifications) as [Hput Hdrain].
  { simpl. lia. }
  split.
  - apply Hput. reflexivity.
  - apply (Hdrain 3). simpl. lia.
Defined.

Lemma throttler_is_spent_after_drain_witness :
  put zeroNotify (Some (MkChan 1 [] true)) = Panics "send on closed channel"
  ∧ drain 1 (Some (MkChan 1 [] true)) = Panics "close of closed channel".
Proof.
  destruct (throttler_is_spent_after_drain (Some (MkChan 1 [zeroNotify] false))
              (Some (MkChan 1 [] true)) 1 [zeroNotify]) as [Hput Hdrain].
  { reflexivity. }
  split; [apply Hput|apply Hdrain].
Defined.

End Throttler.

Section Mock.
Import ipn ipnlocal statetest.

Lemma mockRun_snoc calls call c :
  mockRun (calls ++ [call]) c = andThen (mockRun calls c) (λ c, mockStep c call).
Proof. unfold mockRun. by rewrite fold_left_app. Qed.

Lemma inTurn_snoc p k :
  inTurn p (S k)
  = inTurn p k ++ [if Nat.even k then (if p then "unpause" else "pause")
                   else (if p then "pause" else "unpause")].
Proof.
  revert p. induction k as [|k IH]; intros p; [done|].
  change (inTurn p (S (S k)))
    with ((if p then "unpause" else "pause") :: inTurn (negb p) (S k)).
  rewrite IH. simpl inTurn. rewrite Nat.even_succ, <- Nat.negb_even.
  by destruct (Nat.even k), p.
Qed.

Lemma pauseCalls_called s c :
  pauseCalls (called s c)
  = pauseCalls c ++ (if bool_decide (s = "pause") || bool_decide (s = "unpause")
                     then [s] else []).
Proof. unfold pauseCalls. simpl. by rewrite List.filter_app. Qed.

Lemma mockLogin_pauses flags newNode c :
  pauseCalls (mockLogin flags newNode c) = pauseCalls c
  ∧ paused (mockLogin flags newNode c) = paused c.
Proof.
  unfold mockLogin, populateKeys. simpl.
  destruct (_ =? 0); simpl; unfold pauseCalls; simpl;
    rewrite List.filter_app; simpl; by rewrite app_nil_r.
Qed.

(** One call keeps the pauses and unpauses in turn; after [assertCalls]
    they start anew from the flag. *)
Lemma mockStep_pausesInTurn p0 c call c' :
  pausesInTurn p0 c → mockStep c call = Returns c' →
  pausesInTurn p0 c' ∨ (∃ want, call = CallAssertCalls want) ∧ pausesInTurn (paused c') c'.
Proof.
  intros (k & Hcalls & Hp).
  assert (∀ s, s ≠ "pause" → s ≠ "unpause" →
               pausesInTurn p0 (called s c)) as Hother.
  { intros s H1 H2. exists k. rewrite pauseCalls_called.
    rewrite !bool_decide_eq_false_2 by done. simpl. by rewrite app_nil_r. }
  destruct call; simpl; try (intros [= <-]).
  - left. exists k. by destruct (mockLogin_pauses flags newNode c) as [-> ->].
  - left. by apply Hother.
  - left. unfold SetPaused. destruct (Bool.eqb_spec (paused c) p) as [He|Hne].
    + by exists k.
    + exists (S k). rewrite inTurn_snoc. split.
      * destruct p; rewrite pauseCalls_called; simpl;
          change (pauseCalls (MkMockControl _ _ (calls c) _ _)) with (pauseCalls c);
          rewrite Hcalls; f_equal;
          destruct (Nat.even k), p0, (paused c); simpl in *; congruence.
      * rewrite Nat.even_succ, <- Nat.negb_even.
        destruct p, (Nat.even k), p0, (paused c); simpl in *; congruence.
  - destruct (shutdown c); [done|]. intros [= <-]. left.
    destruct (Hother "Shutdown") as (k' & H1 & H2); [done..|]. by exists k'.
  - left. by apply Hother.
  - left. destruct (Hother "SetNetinfo") as (k1 & H1 & H2); [done..|].
    exists k1. rewrite pauseCalls_called. simpl. by rewrite app_nil_r.
  - left. by exists k.
  - left. by apply Hother.
  - case_bool_decide; [|done]. intros [= <-]. right. split; [by eexists|].
    by exists O.
Qed.

(** X17: the mock records a pause or an unpause only when the paused flag
    changes: after any calls on a new mock, the pauses and unpauses recorded
    since the calls were last asserted come in turn and the last of them
    agrees with the flag; when no calls were asserted the first is a
    pause. *)
Theorem pauses_and_unpauses_come_in_turn
  (optsPersist : persist.Persist) (calls : list mockCall) (c : mockControl) :
  mockRun calls (newClient optsPersist) = Returns c →
  ∃ p0, pausesInTurn p0 c
        ∧ ((∀ want, CallAssertCalls want ∉ calls) → p0 = false).
Proof.
  revert c. induction calls as [|call calls IH] using rev_ind; intros c.
  - intros [= <-]. exists false. split; [by exists O|done].
  - rewrite mockRun_snoc.
    destruct (mockRun calls (newClient optsPersist)) as [c0|f|w] eqn:E; [|done..].
    simpl. intros Hstep. destruct (IH c0 eq_refl) as (p0 & Hinv & Hp0).
    destruct (mockStep_pausesInTurn p0 c0 call c Hinv Hstep)
      as [Hkeep|[[want ->] Hnew]].
    + exists p0. split; [done|]. intros Hno. apply Hp0.
      intros want Hin. apply (Hno want). apply elem_of_app. by left.
    + exists (paused c). split; [done|]. intros Hno. exfalso.
      apply (Hno want). apply elem_of_app. right. by left.
Qed.

Lemma pauses_and_unpauses_come_in_turn_witness :
  ∃ c p0, mockRun pausingCalls (newClient persist.zero) = Returns c
          ∧ pausesInTurn p0 c.
Proof.
  eexists.
  destruct (pauses_and_unpauses_come_in_turn persist.zero pausingCalls
              (MkMockControl true (persist.MkPersist 5 0 0 "" "")
                 ["pause"; "Login"; "unpause"; "pause"] true false))
    as (p0 & Hinv & _).
  { reflexivity. }
  exists p0. split; [reflexivity|exact Hinv].
Defined.

End Mock.

Section EngineFacts.
Import statetest.
Context {RouterConfig DNSConfig Filter : Type}.

Lemma last_cons_default {A} (x : A) (l : list A) (d : A) :
  List.last (x :: l) d = List.last l x.
Proof.
  revert x d. induction l as [|y l IH]; intros x d; [done|].
  change (List.last (x :: y :: l) d) with (List.last (y :: l) d).
  by rewrite !IH.
Qed.

Lemma engine_closed_frozen (calls : list (engineCall RouterConfig DNSConfig Filter)) :
  ∀ e : mockEngine RouterConfig DNSConfig Filter,
  engineClosed e = true →
  configs (fold_left engineStep calls e) = configs e
  ∧ engineClosed (fold_left engineStep calls e) = true.
Proof.
  induction calls as [|c calls IH]; intros e He; simpl; [done|].
  assert (engineClosed (engineStep e c) = true ∧ configs (engineStep e c) = configs e)
    as [Hc <-].
  { destruct c; simpl; unfold Reconfig, Close; by rewrite ?He. }
  by apply IH.
Qed.

Lemma engine_open_run (calls : list (engineCall RouterConfig DNSConfig Filter)) :
  ∀ e : mockEngine RouterConfig DNSConfig Filter,
  engineClosed e = false →
  configs (fold_left engineStep calls e) = List.last (accepted calls) (configs e).
Proof.
  induction calls as [|c calls IH]; intros e He; [done|].
  destruct c as [c r d| |f|f].
  - change (fold_left engineStep (CallReconfig c r d :: calls) e)
      with (fold_left engineStep calls (Reconfig c r d e).1).
    unfold Reconfig. rewrite He. rewrite IH by done.
    change (accepted (CallReconfig c r d :: calls)) with ((c, r, d) :: accepted calls).
    by rewrite last_cons_default.
  - change (fold_left engineStep (CallClose :: calls) e)
      with (fold_left engineStep calls (Close e)).
    unfold Close. rewrite He. by apply engine_closed_frozen.
  - change (fold_left engineStep (CallSetFilter f :: calls) e)
      with (fold_left engineStep calls (SetFilter f e)).
    by rewrite IH.
  - change (fold_left engineStep (CallSetJailedFilter f :: calls) e)
      with (fold_left engineStep calls (SetJailedFilter f e)).
    by rewrite IH.
Qed.

Lemma engine_closed_after (calls : list (engineCall RouterConfig DNSConfig Filter)) :
  ∀ e : mockEngine RouterConfig DNSConfig Filter,
  CallClose ∈ calls → engineClosed (fold_left engineStep calls e) = true.
Proof.
  induction calls as [|c0 calls IH]; intros e Hin; [by apply elem_of_nil in Hin|].
  apply elem_of_cons in Hin as [<-|Hin]; simpl; [|by apply IH].
  unfold Close. by destruct (engineClosed e) eqn:He; apply engine_closed_frozen.
Qed.

(** X18: the mock engine keeps the configurations of the last [Reconfig]
    that came before the first [Close]: after any calls on a new engine the
    three getters return these (nil when there was none); and once closed,
    [Reconfig] returns the error "engine closed" and changes nothing. *)
Theorem engine_keeps_the_last_config_before_close
  (calls : list (engineCall RouterConfig DNSConfig Filter)) :
  configs (fold_left engineStep calls newMockEngine)
  = List.last (accepted calls) (None, None, None)
  ∧ (∀ c r d, CallClose ∈ calls →
       Reconfig c r d (fold_left engineStep calls newMockEngine)
       = (fold_left engineStep calls newMockEngine, Some "engine closed")).
Proof.
  split; [by apply engine_open_run|].
  intros c r d Hin. unfold Reconfig. by rewrite engine_closed_after.
Qed.

End EngineFacts.

(** * The network maps of the reconfiguration test *)

Section BuildNetmap.
Import netmaptest.

Lemma updateNode_covers st sofar n :
  covers st sofar →
  covers (updateNode st n).2 (sofar ++ [(updateNode st n).1]).
Proof.
  intros (Hid & Hhas & Hreg & Hhome). destruct st as [users regions]. simpl in *.
  unfold updateNode. simpl.
  destruct (makeUserForNode n users) as [mut users'] eqn:Eu. simpl.
  assert ((∀ k u, users' !! k = Some u → upID u = k)
          ∧ (∀ k, is_Some (users !! k) → is_Some (users' !! k))
          ∧ is_Some (users' !! User mut)
          ∧ tailcfg.HomeDERP (theNode mut) = tailcfg.HomeDERP (theNode n))
    as (Hid' & Hmono & Hnew & Hsame).
  { unfold makeUserForNode in Eu. destruct (User n =? 0).
    - injection Eu as <- <-. simpl. split; [|split; [|split; [|done]]].
      + intros k u [ [? ?]|[_ ?] ]%lookup_insert_Some; subst; [done|by apply Hid].
      + intros k Hk. apply lookup_insert_is_Some.
        destruct (decide (int64 (firstAutoUserID + tailcfg.ID (theNode n)) = k));
          [by left|by right].
      + by rewrite lookup_insert_eq.
    - destruct (users !! User n) as [u|] eqn:El.
      + injection Eu as <- <-. by rewrite El.
      + injection Eu as <- <-. split; [|split; [|split; [|done]]].
        * intros k u [ [? ?]|[_ ?] ]%lookup_insert_Some; subst; [done|by apply Hid].
        * intros k Hk. apply lookup_insert_is_Some.
          destruct (decide (User n = k)); [by left|by right].
        * by rewrite lookup_insert_eq. }
  set (h := tailcfg.HomeDERP (theNode mut)) in *.
  set (n' := MkUserNode _ (User mut)).
  assert (tailcfg.HomeDERP (theNode n') = h) as Hh by done.
  assert (User n' = User mut) as Hu by done.
  clearbody n'.
  assert (∃ regions', makeDERPRegionForNode (theNode mut) regions = regions'
            ∧ (∀ k r, regions' !! k = Some r →
                 regions !! k = Some r ∨ (k = h ∧ h ≠ 0 ∧ r = regionOf h))
            ∧ (∀ k r, regions !! k = Some r → regions' !! k = Some r)
            ∧ (h ≠ 0 → regions' !! h = Some (regionOf h)))
    as (regions' & -> & Hfrom & Hkeep & Hh').
  { unfold makeDERPRegionForNode. fold h. destruct (Z.eqb_spec h 0) as [H0|H0].
    { exists regions. repeat split; auto. done. }
    destruct (regions !! h) as [r0|] eqn:E.
    - exists regions. repeat split; auto. intros _.
      by destruct (Hreg h r0 E) as (_ & -> & _).
    - eexists. split; [done|]. split; [|split].
      + intros k r [ [? ?]|[_ ?] ]%lookup_insert_Some; subst; [by right|by left].
      + intros k r Hk. rewrite lookup_insert_ne; [done|]. intros <-. congruence.
      + intros _. by rewrite lookup_insert_eq. }
  split; [done|]. split; [|split].
  - intros m [Hm|Hm%list_elem_of_singleton]%elem_of_app.
    + by apply Hmono, Hhas.
    + subst m. by rewrite Hu.
  - intros k r Hk. destruct (Hfrom k r Hk) as [Hold|(-> & H0 & ->)].
    + destruct (Hreg k r Hold) as (? & ? & m & Hm & ?).
      split; [done|]. split; [done|]. exists m. split; [|done].
      apply elem_of_app. by left.
    + split; [done|]. split; [done|]. exists n'. split; [|done].
      apply elem_of_app. right. by apply list_elem_of_singleton.
  - intros m [Hm|Hm%list_elem_of_singleton]%elem_of_app Hm0.
    + by apply Hkeep, Hhome.
    + subst m. rewrite Hh in *. by apply Hh'.
Qed.

Lemma updatePeers_covers peers : ∀ st acc sofar,
  covers st (sofar ++ acc) →
  let r := fold_left (λ acc n, let '(n', st') := updateNode acc.2 n in (acc.1 ++ [n'], st'))
             peers (acc, st) in
  covers r.2 (sofar ++ r.1).
Proof.
  induction peers as [|p peers IH]; intros st acc sofar Hc; simpl; [done|].
  destruct (updateNode st p) as [p' st'] eqn:E. simpl.
  apply IH. rewrite app_assoc.
  pose proof (updateNode_covers st (sofar ++ acc) p Hc) as H. by rewrite E in H.
Qed.

Lemma buildNetmapWithPeers_covers self peers :
  covers (UserProfiles (buildNetmapWithPeers self peers),
          DERPMap (buildNetmapWithPeers self peers))
    (nodes (buildNetmapWithPeers self peers)).
Proof.
  unfold buildNetmapWithPeers, nodes.
  destruct (updateNode (∅, ∅) self) as [self' st] eqn:Es.
  assert (covers st [self']) as Hc.
  { pose proof (updateNode_covers (∅, ∅) [] self) as H. rewrite Es in H. apply H.
    split; [|split; [|split]]; simpl; intros *; try rewrite lookup_empty; try done.
    - by intros ?%elem_of_nil.
    - by intros ?%elem_of_nil. }
  pose proof (updatePeers_covers peers st [] [self']) as H.
  rewrite app_nil_r in H. specialize (H Hc). simpl in H.
  unfold updatePeers.
  destruct (fold_left _ peers ([], st)) as [peers' st'] eqn:Ep. simpl in *.
  by destruct st'.
Qed.

(** X19: in a map built by [buildNetmapWithPeers], the self node and every
    peer have a user profile, filed under the node's user and carrying that
    user as its ID; this holds for nodes that came with a user as for
    nodes that were given one. *)
Theorem built_map_has_a_profile_for_every_node (self : userNode) (peers : list userNode) :
  let m := buildNetmapWithPeers self peers in
  Forall (λ n, ∃ u, UserProfiles m !! User n = Some u ∧ upID u = User n) (nodes m).
Proof.
  intros m. apply Forall_forall. intros n Hn.
  destruct (buildNetmapWithPeers_covers self peers) as (Hid & Hhas & _).
  destruct (Hhas n Hn) as [u Hu]. exists u. split; [done|]. by apply (Hid _ _ Hu).
Qed.

(** X20: the relay map of a built map holds exactly the regions of the home
    relays of its nodes: every node with a home relay has the region of this
    number, with one relay node named after it, and every region of the map
    is such a region of some node; no region has the number zero. *)
Theorem built_map_has_the_regions_of_the_homes (self : userNode) (peers : list userNode) :
  let m := buildNetmapWithPeers self peers in
  (∀ n, n ∈ nodes m → tailcfg.HomeDERP (theNode n) ≠ 0 →
     DERPMap m !! tailcfg.HomeDERP (theNode n)
     = Some (regionOf (tailcfg.HomeDERP (theNode n))))
  ∧ (∀ k r, DERPMap m !! k = Some r →
       k ≠ 0 ∧ r = regionOf k
       ∧ ∃ n, n ∈ nodes m ∧ tailcfg.HomeDERP (theNode n) = k).
Proof.
  intros m. destruct (buildNetmapWithPeers_covers self peers) as (_ & _ & Hreg & Hhome).
  split; [apply Hhome|apply Hreg].
Qed.

End BuildNetmap.

(** * The gateway operator *)

Section ProxyController.
Import v1alpha1 controllers operator_props nmcfg_more.

Lemma joinTags_fold tags : ∀ i acc,
  (fold_left (λ (st : nat * string) tag,
                (S st.1, (if (0 <? st.1)%nat then st.2 +:+ "," else st.2) +:+ tag))
     tags (S i, acc)).2
  = acc +:+ prefixed "," tags.
Proof.
  induction tags as [|t tags IH]; intros i acc; simpl.
  - by rewrite append_nil_r.
  - rewrite IH. by rewrite !append_assoc.
Qed.

(** The loop that joins the tags puts a comma between them. *)
Lemma joinTags_concat tags : joinTags tags = String.concat "," tags.
Proof.
  unfold joinTags. destruct tags as [|t tags]; [done|].
  rewrite concat_prefixed. simpl. by rewrite joinTags_fold.
Qed.

(** X21: the environment of a proxy container sets no variable twice, and
    it sets TS_TAGS exactly when the gateway or the proxy has a tag, to the
    tags of the gateway followed by those of the proxy, separated by
    commas. *)
Theorem tailscale_env_sets_the_tags_once
  (proxy : TailscaleProxy.t) (gateway : TailscaleGateway.t) (isIngress : bool) :
  let env := createTailscaleEnv proxy gateway isIngress in
  let tags := TailscaleGatewaySpec.Tags (TailscaleGateway.Spec gateway)
              ++ TailscaleProxySpec.Tags (TailscaleProxy.Spec proxy) in
  NoDup (map evName env)
  ∧ (tags = [] → Forall (λ e, evName e ≠ "TS_TAGS") env)
  ∧ (tags ≠ [] → MkEnvVar "TS_TAGS" (String.concat "," tags) None ∈ env).
Proof.
  intros env tags. subst env tags. unfold createTailscaleEnv.
  rewrite joinTags_concat.
  set (gtags := TailscaleGatewaySpec.Tags (TailscaleGateway.Spec gateway)).
  set (ptags := TailscaleProxySpec.Tags (TailscaleProxy.Spec proxy)).
  assert (((0 <? length ptags)%nat || (0 <? length gtags)%nat = false ∧ gtags ++ ptags = [])
          ∨ ((0 <? length ptags)%nat || (0 <? length gtags)%nat = true ∧ gtags ++ ptags ≠ []))
    as [[-> Htags]|[-> Htags]].
  { destruct ptags, gtags; simpl; [left|right|right|right]; split; done. }
  - split; [|split; [|done]].
    + destruct isIngress; simpl; apply (bool_decide_unpack _); by vm_compute.
    + intros _. destruct isIngress; simpl; repeat constructor; done.
  - split; [|split; [done|]].
    + rewrite map_app. simpl.
      destruct isIngress; simpl; apply (bool_decide_unpack _); by vm_compute.
    + intros _. apply elem_of_app. right. by left.
Qed.

Lemma int32_small (z : Z) : - 2 ^ 31 ≤ z < 2 ^ 31 → int32 z = z.
Proof. intros Hz. unfold int32. rewrite Z.mod_small; lia. Qed.

Lemma countReady_fold pods : ∀ n devices,
  0 ≤ n → n + Z.of_nat (length (running pods)) < 2 ^ 31 →
  fold_left
    (λ (st : Z * list DeviceInfo.t) pod,
       if bool_decide (podPhase pod = PodRunning)
       then (int32 (st.1 + 1), st.2 ++ [DeviceInfo.Mk (podName pod) "" (podName pod)])
       else st)
    pods (n, devices)
  = (n + Z.of_nat (length (running pods)), devices ++ map deviceOf (running pods)).
Proof.
  induction pods as [|pod pods IH]; intros n devices Hn Hlen; simpl.
  - by rewrite Z.add_0_r, app_nil_r.
  - unfold running in *. simpl in *. case_bool_decide; simpl in *.
    + rewrite int32_small by lia. rewrite IH by lia.
      rewrite <- app_assoc. f_equal. lia.
    + by apply IH.
Qed.

(** X22: with fewer than 2^31 running pods, the status that [updateStatus]
    writes counts the running pods, lists a device for each of them, and
    holds one Ready condition, true exactly when the running pods are no
    fewer than the replicas of the specification as written.  The default
    of two replicas that the StatefulSet gets for an unset number is not
    applied here: with the number unset the condition is true whatever the
    pods, while both StatefulSets ask for two replicas. *)
Theorem proxy_is_ready_against_the_replicas_as_written
  (proxy : TailscaleProxy.t) (gateway : TailscaleGateway.t) (pods : list Pod) (now : Z) :
  Z.of_nat (length (running pods)) < 2 ^ 31 →
  let status := TailscaleProxy.Status (updateStatus pods now proxy) in
  let replicas := TailscaleProxySpec.Replicas (TailscaleProxy.Spec proxy) in
  TailscaleProxyStatus.ReadyReplicas status = Z.of_nat (length (running pods))
  ∧ TailscaleProxyStatus.Devices status = map deviceOf (running pods)
  ∧ (∃ c, TailscaleProxyStatus.Conditions status = [c]
          ∧ Condition.Type_ c = "Ready"
          ∧ (Condition.Status c = ConditionTrue
             ↔ replicas ≤ Z.of_nat (length (running pods)))
          ∧ (replicas = 0 → Condition.Status c = ConditionTrue))
  ∧ (replicas = 0 →
     ssReplicas (createIngressStatefulSetSpec proxy gateway) = 2
     ∧ ssReplicas (createEgressStatefulSetSpec proxy gateway) = 2).
Proof.
  intros Hlen status replicas. subst status. unfold updateStatus, countReady.
  rewrite countReady_fold by lia. rewrite Z.add_0_l. simpl. fold replicas.
  split; [done|]. split; [done|]. split.
  - destruct (Z.ltb_spec (Z.of_nat (length (running pods))) replicas) as [Hlt|Hge];
      eexists; (split; [reflexivity|]); simpl; (split; [done|]); split.
    + split; [done|lia].
    + intros; exfalso; lia.
    + split; [intros; lia|done].
    + done.
  - intros H0. unfold createIngressStatefulSetSpec, createEgressStatefulSetSpec. simpl.
    fold replicas. by rewrite H0.
Qed.

Lemma proxy_is_ready_against_the_replicas_as_written_witness :
  ∃ c, TailscaleProxyStatus.Conditions
         (TailscaleProxy.Status (updateStatus onePendingPod 0 webIngress)) = [c]
       ∧ Condition.Status c = ConditionTrue
       ∧ ssReplicas (createIngressStatefulSetSpec webIngress someGateway) = 2.
Proof.
  destruct (proxy_is_ready_against_the_replicas_as_written webIngress someGateway
              onePendingPod 0) as (_ & _ & (c & Hc & _ & _ & Hready) & Hsts).
  { simpl. lia. }
  exists c. split; [exact Hc|]. split; [by apply Hready|]. by apply Hsts.
Defined.

End ProxyController.

Section ExtensionServer.
Import v1alpha1 envoyapi xds operator_props.

Lemma addIngressRoutes_fold config svcs : ∀ vh,
  fold_left (λ vh svc, andThen vh (λ vh, addIngressRoute vh config svc)) svcs
    (Response (Some vh))
  = Response (Some (withRoutes vh (map (ingressRoute config) svcs))).
Proof.
  induction svcs as [|svc svcs IH]; intros vh; simpl.
  - unfold withRoutes. rewrite app_nil_r. by destruct vh.
  - rewrite IH. unfold withRoutes. simpl. by rewrite <- app_assoc.
Qed.

Lemma addIngressRoutes_nil config svcs :
  fold_left (λ vh svc, andThen vh (λ vh, addIngressRoute vh config svc)) svcs
    (Response None)
  = if bool_decide (svcs = []) then Response None
    else Panics "nil pointer dereference".
Proof.
  destruct svcs as [|svc svcs]; [done|]. simpl.
  induction svcs as [|svc' svcs IH]; [done|]. done.
Qed.

Lemma stuck_fold {A} (f : response (option VirtualHost) → A → response (option VirtualHost))
  (l : list A) (r : response (option VirtualHost)) :
  (∀ a, f r a = r) → fold_left f l r = r.
Proof. intros Hf. induction l as [|a l IH]; simpl; [done|]. by rewrite Hf. Qed.

(** The hook on a list of proxies is the hook on the first one, followed,
    if it gives a response, by the hook on the others. *)
Lemma hook_cons (p : TailscaleProxy.t) (proxies : list TailscaleProxy.t) vh :
  PostVirtualHostModify (inl (p :: proxies)) vh
  = andThen (PostVirtualHostModify (inl [p]) vh) (PostVirtualHostModify (inl proxies)).
Proof.
  unfold PostVirtualHostModify. cbn [fold_left].
  match goal with |- fold_left ?f _ ?r = _ => generalize r end.
  intros [vh'|code msg|why]; cbn [andThen]; [done| |].
  - apply stuck_fold. intros a. destruct (bool_decide _); [|done].
    destruct (TailscaleProxySpec.IngressConfig _); [|done]. by apply stuck_fold.
  - apply stuck_fold. intros a. destruct (bool_decide _); [|done].
    destruct (TailscaleProxySpec.IngressConfig _); [|done]. by apply stuck_fold.
Qed.

Lemma hook_one_some (p : TailscaleProxy.t) (vh : VirtualHost) :
  PostVirtualHostModify (inl [p]) (Some vh)
  = Response (Some (withRoutes vh (ingressRoutes p))).
Proof.
  unfold PostVirtualHostModify, ingressRoutes. cbn [fold_left].
  assert (Response (Some vh) = Response (Some (withRoutes vh []))) as Hnil.
  { unfold withRoutes. rewrite app_nil_r. by destruct vh. }
  case_bool_decide; [|done].
  destruct (TailscaleProxySpec.IngressConfig _) as [config|]; [|done].
  apply addIngressRoutes_fold.
Qed.

Lemma hook_one_none (p : TailscaleProxy.t) :
  PostVirtualHostModify (inl [p]) None
  = match ingressRoutes p with
    | [] => Response None
    | _ :: _ => Panics "nil pointer dereference"
    end.
Proof.
  unfold PostVirtualHostModify, ingressRoutes. cbn [fold_left].
  case_bool_decide; [|done].
  destruct (TailscaleProxySpec.IngressConfig _) as [config|]; [|done].
  rewrite addIngressRoutes_nil. by destruct (IngressConfig.Services config).
Qed.

(** X23: the virtual-host hook appends to the routes of the virtual host,
    which it keeps, one route for every service of every ingress proxy with
    an ingress configuration, in the order of the proxies and of their
    services, and leaves name and domains alone; a failed listing gives the
    status Internal; with a nil virtual host the hook returns nil when there
    is no such service and panics otherwise. *)
Theorem virtual_host_hook_appends_the_ingress_routes
  (proxies : list TailscaleProxy.t) :
  (∀ vh, PostVirtualHostModify (inl proxies) (Some vh)
         = Response (Some (withRoutes vh (flat_map ingressRoutes proxies))))
  ∧ PostVirtualHostModify (inl proxies) None
    = (if bool_decide (flat_map ingressRoutes proxies = []) then Response None
       else Panics "nil pointer dereference")
  ∧ (∀ err vh, PostVirtualHostModify (inr err) vh
               = StatusError "Internal" ("failed to list TailscaleProxies: " +:+ err)).
Proof.
  split; [|split; [|done]].
  - induction proxies as [|p proxies IH]; intros vh.
    + unfold withRoutes. cbn. rewrite app_nil_r. by destruct vh.
    + rewrite hook_cons, hook_one_some. cbn [andThen flat_map]. rewrite IH.
      unfold withRoutes. cbn. by rewrite <- app_assoc.
  - induction proxies as [|p proxies IH]; [done|].
    rewrite hook_cons, hook_one_none. cbn [flat_map].
    destruct (ingressRoutes p) as [|r routes]; cbn [andThen app]; [apply IH|].
    by rewrite bool_decide_false.
Qed.

End ExtensionServer.

Section Envoy.
Import envoyapi envoy operator_props.

Lemma fold_left_snoc_map {A B} (f : A → B) (l : list A) (acc : list B) :
  fold_left (λ acc x, acc ++ [f x]) l acc = acc ++ map f l.
Proof.
  revert acc. induction l as [|x l IH]; intros acc; simpl.
  - by rewrite app_nil_r.
  - rewrite IH. by rewrite <- app_assoc.
Qed.

(** X24: the resources that the xDS server generates for a list of routes
    fit together: there is one cluster and one endpoint assignment per
    route, and one route configuration with one virtual host whose routes,
    in the order in which the routes were given, carry their path prefixes
    and name the clusters; cluster, endpoint assignment and route of one
    service bear the same cluster name. *)
Theorem xds_resources_name_the_same_clusters (services : list ServiceRoute) :
  map clName (generateClusters services) = map clusterName services
  ∧ map claClusterName (generateEndpoints services) = map clusterName services
  ∧ map rCluster (allRoutes (generateRoutes services)) = map clusterName services
  ∧ map rPrefix (allRoutes (generateRoutes services)) = map PathPrefix services
  ∧ ∃ routes, generateRoutes services
              = [MkRouteConfiguration "main_route" [MkVirtualHost "backend" ["*"] routes]].
Proof.
  unfold generateClusters, generateEndpoints, generateRoutes, allRoutes.
  rewrite !fold_left_snoc_map. simpl. rewrite !app_nil_r, !map_map. simpl.
  repeat split; try done. by eexists.
Qed.

(** ** The ordering of the routes *)

Lemma compare_refl (s : string) : String.compare s s = Eq.
Proof.
  pose proof (String.compare_antisym s s) as H.
  by destruct (String.compare s s).
Qed.

Lemma ltb_leb (s t : string) :
  String.ltb s t = false ↔ String.leb t s = true.
Proof.
  unfold String.ltb, String.leb. rewrite (String.compare_antisym s t).
  destruct (String.compare t s); simpl; split; done.
Qed.

Lemma leb_trans (s t u : string) :
  String.leb s t = true → String.leb t u = true → String.leb s u = true.
Proof.
  intros H1 H2.
  assert (String.le s u) as H.
  { transitivity t; unfold String.le; by apply Is_true_true. }
  by apply Is_true_true in H.
Qed.

Lemma ltb_true (s t : string) :
  String.ltb s t = true ↔ String.leb s t = true ∧ s ≠ t.
Proof.
  unfold String.ltb, String.leb. split.
  - destruct (String.compare s t) eqn:E; try done. intros _. split; [done|].
    intros ->. by rewrite compare_refl in E.
  - intros [Hle Hne]. destruct (String.compare s t) eqn:E; try done.
    by apply String.compare_eq_iff in E.
Qed.

Lemma less_cases (a b : ServiceRoute) :
  let la := String.length (PathPrefix a) in
  let lb := String.length (PathPrefix b) in
  let ha := negb (bool_decide (HostHeader a = "")) in
  let hb := negb (bool_decide (HostHeader b = "")) in
  less a b = true
  ↔ (lb < la)%nat
    ∨ (la = lb ∧ ha = true ∧ hb = false)
    ∨ (la = lb ∧ ha = hb ∧ String.ltb (PathPrefix a) (PathPrefix b) = true).
Proof.
  intros la lb ha hb. unfold less. fold la lb ha hb.
  destruct (Nat.eqb_spec la lb) as [He|Hne]; simpl.
  - destruct ha, hb; simpl; split; try (intros [?|[(?&?&?)|(?&?&?)]]); try lia; try done; auto.
    all: intros; right; right; done.
  - rewrite Nat.ltb_lt. split; [by left|]. intros [?|[(?&?&?)|(?&?&?)]]; lia.
Qed.

Lemma not_less_cases (a b : ServiceRoute) :
  let la := String.length (PathPrefix a) in
  let lb := String.length (PathPrefix b) in
  let ha := negb (bool_decide (HostHeader a = "")) in
  let hb := negb (bool_decide (HostHeader b = "")) in
  less a b = false
  ↔ (la < lb)%nat
    ∨ (la = lb ∧ ha = false ∧ hb = true)
    ∨ (la = lb ∧ ha = hb ∧ String.leb (PathPrefix b) (PathPrefix a) = true).
Proof.
  simpl. rewrite <- ltb_leb, <- not_true_iff_false, less_cases. simpl.
  destruct (String.ltb (PathPrefix a) (PathPrefix b)),
    (negb (bool_decide (HostHeader a = ""))), (negb (bool_decide (HostHeader b = "")));
    split; intros H; try (intros [?|[(?&?&?)|(?&?&?)]]); try lia; try done.
  all: try (destruct H as [?|[(?&?&?)|(?&?&?)]]; try lia; done).
  all: destruct (Nat.lt_trichotomy (String.length (PathPrefix a))
                   (String.length (PathPrefix b))) as [?|[?|?]];
    try (by left); try (right; by auto); exfalso; apply H; auto.
Qed.

Lemma not_less_trans (a b c : ServiceRoute) :
  less a b = false → less b c = false → less a c = false.
Proof.
  rewrite !not_less_cases. simpl.
  intros [?|[(?&?&?)|(?&?&Hab)]] [?|[(?&?&?)|(?&?&Hbc)]];
    try (left; lia); try (right; left; split; [lia|]; split; congruence).
  right. right. split; [lia|]. split; [congruence|].
  by apply (leb_trans _ (PathPrefix b)).
Qed.

(** X25: the ordering by which the routes are sorted is a strict weak
    ordering, as [sort.Slice] needs: no route is less than itself, the
    ordering is transitive, and so is its complement; two routes are
    unordered exactly when they have the same path prefix and both have, or
    both lack, a host header. *)
Theorem route_order_is_a_strict_weak_order :
  (∀ a, less a a = false)
  ∧ (∀ a b c, less a b = true → less b c = true → less a c = true)
  ∧ (∀ a b c, less a b = false → less b c = false → less a c = false)
  ∧ (∀ a b, less a b = false ∧ less b a = false
            ↔ PathPrefix a = PathPrefix b
              ∧ bool_decide (HostHeader a = "") = bool_decide (HostHeader b = "")).
Proof.
  split; [|split; [|split]].
  - intros a. apply not_less_cases. simpl. right. right. split; [done|]. split; [done|].
    unfold String.leb. by rewrite compare_refl.
  - intros a b c. rewrite !less_cases. simpl.
    intros [?|[(?&?&?)|(?&?&Hab)]] [?|[(?&?&?)|(?&?&Hbc)]];
      try (left; lia); try (right; left; split; [lia|]; split; congruence).
    right. right. split; [lia|]. split; [congruence|].
    apply ltb_true in Hab as [Hab Hne], Hbc as [Hbc Hne']. apply ltb_true. split.
    + by apply (leb_trans _ (PathPrefix b)).
    + intros Heq. rewrite Heq in Hab. apply Hne'. by apply String.leb_antisym.
  - apply not_less_trans.
  - intros a b. rewrite !not_less_cases. simpl. split.
    + intros [[?|[(?&?&?)|(?&?&Hab)]] [?|[(?&?&?)|(?&?&Hba)]]]; try lia; try congruence.
      split; [by apply String.leb_antisym|].
      by destruct (bool_decide (HostHeader a = "")), (bool_decide (HostHeader b = "")).
    + intros [Hp Hh]. rewrite Hp, Hh.
      assert (String.leb (PathPrefix b) (PathPrefix b) = true) as Hrefl.
      { unfold String.leb. by rewrite compare_refl. }
      split; right; right; done.
Qed.

Section Sorting.
Variables AnnotationProxyGroup AnnotationExpose : string.

Lemma collectRoutes_prefixes (pgName : string) (svcs : list Service) :
  Forall (λ r, PathPrefix r ≠ "")
    (collectRoutes AnnotationProxyGroup AnnotationExpose pgName svcs).
Proof.
  unfold collectRoutes.
  assert (∀ acc, Forall (λ r, PathPrefix r ≠ "") acc →
            Forall (λ r, PathPrefix r ≠ "")
              (fold_left
                 (λ routes svc,
                    if bool_decide (annotation svc AnnotationProxyGroup = pgName)
                       && bool_decide (annotation svc AnnotationExpose = "true")
                    then
                      let port := match svcPorts svc with p :: _ => p | [] => 80 end in
                      let pathPrefix := annotation svc "tailscale.com/path-prefix" in
                      let pathPrefix :=
                        if bool_decide (pathPrefix = "") then "/" else pathPrefix in
                      routes ++ [MkServiceRoute (svcName svc) (svcNamespace svc)
                                   (svcClusterIP svc) port pathPrefix
                                   (annotation svc "tailscale.com/host-header")]
                    else routes)
                 svcs acc)) as H.
  { induction svcs as [|svc svcs IH]; intros acc Hacc; simpl; [done|].
    apply IH. destruct (_ && _); [|done].
    apply Forall_app. split; [done|]. constructor; [|done]. simpl.
    by case_bool_decide. }
  by apply H.
Qed.

Lemma routesToSort_prefixes (pgName : string) (svcs : list Service) :
  routesToSort AnnotationProxyGroup AnnotationExpose pgName svcs ≠ []
  ∧ Forall (λ r, PathPrefix r ≠ "")
      (routesToSort AnnotationProxyGroup AnnotationExpose pgName svcs).
Proof.
  unfold routesToSort.
  pose proof (collectRoutes_prefixes pgName svcs) as H.
  destruct (collectRoutes _ _ _ _) as [|r routes]; simpl; [|done].
  split; [done|]. by repeat constructor.
Qed.

(** X26: whatever order [sort.Slice] leaves the routes of a proxy group
    in, the list is not empty, no route has an empty path prefix, a route
    never comes after one with a shorter path prefix, and among routes with
    path prefixes of one length those with a host header come first.  When
    no service is exposed through the proxy group the list is the default
    backend alone. *)
Theorem longer_path_prefixes_come_first
  (pgName : string) (svcs : list Service) (sorted : list ServiceRoute) :
  sortedSlice (routesToSort AnnotationProxyGroup AnnotationExpose pgName svcs) sorted →
  sorted ≠ []
  ∧ Forall (λ r, PathPrefix r ≠ "") sorted
  ∧ (∀ i j a b, (i < j)%nat → sorted !! i = Some a → sorted !! j = Some b →
       (String.length (PathPrefix b) ≤ String.length (PathPrefix a))%nat
       ∧ (String.length (PathPrefix a) = String.length (PathPrefix b) →
          HostHeader a = "" → HostHeader b = ""))
  ∧ (collectRoutes AnnotationProxyGroup AnnotationExpose pgName svcs = [] →
     sorted = [MkServiceRoute "default" "default" "127.0.0.1" 80 "/" ""]).
Proof.
  intros [Hperm Hsorted].
  destruct (routesToSort_prefixes pgName svcs) as [Hne Hall].
  split; [|split; [|split]].
  - intros ->. by apply Permutation_nil_l in Hperm.
  - by rewrite Hperm.
  - intros i j a b Hij Ha Hb.
    assert (less b a = false) as Hba.
    { apply Sorted_StronglySorted in Hsorted.
      - rewrite <- (take_drop j sorted) in Hsorted.
        apply (StronglySorted_app_1_elem_of _ _ _ a b Hsorted).
        + apply list_elem_of_lookup. exists i. by rewrite lookup_take_lt.
        + apply list_elem_of_lookup. exists 0%nat. rewrite lookup_drop.
          by rewrite Nat.add_0_r.
      - intros x y z Hxy Hyz. by apply (not_less_trans z y x). }
    apply not_less_cases in Hba. simpl in Hba.
    destruct Hba as [?|[(?&?&?)|(?&Hh&?)]].
    + split; [lia|]. intros; lia.
    + split; [lia|]. intros _ Hae. rewrite bool_decide_true in *; done.
    + split; [lia|]. intros _ Hae. rewrite (bool_decide_true _ Hae) in Hh.
      simpl in Hh. apply negb_false_iff in Hh. by apply bool_decide_eq_true_1 in Hh.
  - intros Hnone. unfold routesToSort in Hperm. rewrite Hnone in Hperm. simpl in Hperm.
    by apply Permutation_singleton_r in Hperm.
Qed.

End Sorting.

Lemma longer_path_prefixes_come_first_witness :
  sortedSlice
    (routesToSort "tailscale.com/proxy-group" "tailscale.com/expose" "pg"
       [rootService; apiService])
    sortedExample
  ∧ sortedExample ≠ [].
Proof.
  assert (sortedSlice
            (routesToSort "tailscale.com/proxy-group" "tailscale.com/expose" "pg"
               [rootService; apiService])
            sortedExample) as H.
  { split.
    - vm_compute. apply perm_swap.
    - repeat constructor. }
  split; [exact H|].
  exact (proj1 (longer_path_prefixes_come_first "tailscale.com/proxy-group"
                  "tailscale.com/expose" "pg" [rootService; apiService] sortedExample H)).
Defined.

End Envoy.
